(** * fileshare: server path containment, listing and file serving;
    client ledger, single-file transfer and batch download.

  A shallow embedding of [main.go] of sjqzhang/fileshare.  Go strings are
  byte strings and are modelled by [string] (a list of 8-bit [ascii]);
  [int64] values by [Z]; [map[string]int64] by [gmap string Z].  The
  library functions the program calls ([strings.HasPrefix],
  [url.QueryUnescape], [filepath.Clean], [filepath.Join], [filepath.Rel],
  [filepath.Walk], [encoding/json]) are modelled after their Go
  definitions in the modules below; the functions of [main.go] itself are
  in [Server], [Client] and [Batch]. *)

From Stdlib Require Import ZArith NArith Ascii String List Lia Bool Permutation.
From Stdlib Require Import DecimalString DecimalZ.
From stdpp Require Import base option list gmap strings.

Local Open Scope Z_scope.
#[local] Set Warnings "-register-all".

(** ** Go strings *)
Module Strings.

(** [strings.HasPrefix(s, prefix)]: [s] begins with [prefix]. *)
Fixpoint HasPrefix (s pre : string) {struct pre} : bool :=
  match pre, s with
  | EmptyString, _ => true
  | String c pre', String d s' => Ascii.eqb c d && HasPrefix s' pre'
  | String _ _, EmptyString => false
  end.

(** [strings.Split(s, "/")]: the fields between the slashes; never empty. *)
Fixpoint split_slash (s : string) : list string :=
  match s with
  | EmptyString => [EmptyString]
  | String c r =>
      if Ascii.eqb c "/" then EmptyString :: split_slash r
      else match split_slash r with
           | h :: t => String c h :: t
           | [] => [String c EmptyString]
           end
  end.

(** [strings.Join(elems, "/")]. *)
Definition join_slash (elems : list string) : string :=
  String.concat "/" elems.

(** [s[1:]]: drops the first byte; slicing the empty string panics. *)
Definition slice_from_1 (s : string) : option string :=
  match s with
  | EmptyString => None
  | String _ r => Some r
  end.

Definition len (s : string) : Z := Z.of_nat (String.length s).

End Strings.

(** ** net/url *)
Module Url.

Definition ishex (c : ascii) : bool :=
  let n := N_of_ascii c in
  ((48 <=? n) && (n <=? 57) || (97 <=? n) && (n <=? 102)
   || (65 <=? n) && (n <=? 70))%N.

Definition unhex (c : ascii) : N :=
  let n := N_of_ascii c in
  if ((48 <=? n) && (n <=? 57))%N then (n - 48)%N
  else if ((97 <=? n) && (n <=? 102))%N then (n - 97 + 10)%N
  else if ((65 <=? n) && (n <=? 70))%N then (n - 65 + 10)%N
  else 0%N.

(** [url.QueryUnescape]: [%XX] becomes the byte with that hexadecimal
    value, [+] becomes a space; a [%] not followed by two hex digits is an
    error ([None]). *)
Fixpoint QueryUnescape (s : string) : option string :=
  match s with
  | EmptyString => Some EmptyString
  | String c r =>
      if Ascii.eqb c "%" then
        match r with
        | String h1 (String h2 r') =>
            if ishex h1 && ishex h2 then
              match QueryUnescape r' with
              | Some t =>
                  Some (String (ascii_of_N (unhex h1 * 16 + unhex h2)) t)
              | None => None
              end
            else None
        | _ => None
        end
      else
        match QueryUnescape r with
        | Some t => Some (String (if Ascii.eqb c "+" then " "%char else c) t)
        | None => None
        end
  end.

End Url.

(** ** path/filepath (Unix) *)
Module Filepath.
Import Strings.

(** One step of [Clean]'s scan over the path elements.  [out] holds, most
    recent first, the elements written after the point where [..] must
    stop; [ups] counts the leading [..] elements of a path that is not
    rooted. *)
Definition clean_step (rooted : bool) (st : list string * nat) (e : string)
  : list string * nat :=
  let '(out, ups) := st in
  if String.eqb e "" then st                      (* empty path element *)
  else if String.eqb e "." then st                (* . element *)
  else if String.eqb e ".." then
    match out with
    | _ :: out' => (out', ups)                    (* can backtrack *)
    | [] => if rooted then st else ([], S ups)   (* keep .. when not rooted *)
    end
  else (e :: out, ups).                           (* real path element *)

Definition clean_elems (rooted : bool) (segs : list string) : list string :=
  let '(out, ups) := fold_left (clean_step rooted) segs ([], O) in
  repeat ".."%string ups ++ rev out.

Definition is_rooted (path : string) : bool :=
  match path with
  | String c _ => Ascii.eqb c "/"
  | EmptyString => false
  end.

(** [filepath.Clean]. *)
Definition Clean (path : string) : string :=
  if String.eqb path "" then "."
  else
    let rooted := is_rooted path in
    let body := join_slash (clean_elems rooted (split_slash path)) in
    if rooted then String "/" body
    else if String.eqb body "" then "." else body.

(** [filepath.Join(a, b)]: empty leading elements are ignored, the rest
    joined by the separator and cleaned. *)
Definition Join (a b : string) : string :=
  if negb (String.eqb a "") then Clean (a +:+ "/" +:+ b)
  else if negb (String.eqb b "") then Clean b
  else "".

(** The directory part of [path]: everything up to and including the last
    separator. *)
Definition dir_prefix (path : string) : string :=
  match rev (split_slash path) with
  | _ :: (_ :: _) as front => join_slash (rev front) +:+ "/"
  | _ => ""
  end.

(** [filepath.Dir]: all but the last element of [path], cleaned. *)
Definition Dir (path : string) : string := Clean (dir_prefix path).

(** The elements [Rel] steps through: the fields between separators, where
    a final separator does not open a further (empty) element. *)
Definition rel_elems (s : string) : list string :=
  if String.eqb s "" then []
  else
    let l := split_slash s in
    match rev l with
    | last :: (_ :: _) as front =>
        if String.eqb last "" then rev front else l
    | _ => l
    end.

(** Positions both element lists at the first differing elements. *)
Fixpoint strip_common (b t : list string) : list string * list string :=
  match b, t with
  | x :: b', y :: t' => if String.eqb x y then strip_common b' t' else (b, t)
  | _, _ => (b, t)
  end.

(** [filepath.Rel(basepath, targpath)]; [None] is the error result. *)
Definition Rel (basepath targpath : string) : option string :=
  let base := Clean basepath in
  let targ := Clean targpath in
  if String.eqb targ base then Some "."%string
  else
    let base := if String.eqb base "." then ""%string else base in
    if negb (Bool.eqb (is_rooted base) (is_rooted targ)) then None
    else
      let '(b, t) := strip_common (rel_elems base) (rel_elems targ) in
      match b, t with
      | x :: _, _ :: _ =>
          if String.eqb x ".." then None
          else Some (join_slash (repeat ".."%string (List.length b) ++ t))
      | _ :: _, [] => Some (join_slash (repeat ".."%string (List.length b)))
      | [], _ => Some (join_slash t)
      end.

End Filepath.


(** ** strconv / fmt *)
Module Strconv.

(** [strconv.FormatInt(i, 10)], which is also what [fmt.Sprintf("%d", i)]
    prints: decimal digits, a leading [-] for negative numbers. *)
Definition FormatInt (i : Z) : string :=
  DecimalString.NilZero.string_of_int (Z.to_int i).

End Strconv.

(** ** The server's file system

  The tree the server reads.  A directory lists its entries in the order
  [readDirNames] returns them (sorted by name); [readable = false] makes
  reading the directory fail; [Gone] is an entry whose [lstat] fails. *)
Module Os.
Import Strings.

Inductive node : Type :=
| File (data : string)
| Folder (readable : bool) (entries : list (string * node))
| Gone.

(** [os.FileInfo], reduced to the two methods the program calls. *)
Record FileInfo := { IsDir : bool; Size : Z }.

(** The size a directory reports is file-system dependent; 4096 here. *)
Definition dir_size : Z := 4096.

(** [os.Lstat] on an entry: [None] is the error result. *)
Definition lstat (n : node) : option FileInfo :=
  match n with
  | File data => Some {| IsDir := false; Size := len data |}
  | Folder _ _ => Some {| IsDir := true; Size := dir_size |}
  | Gone => None
  end.

Fixpoint lookup_entry (name : string) (es : list (string * node))
  : option node :=
  match es with
  | [] => None
  | (n, x) :: es' => if String.eqb n name then Some x else lookup_entry name es'
  end.

(** Path resolution from [cur], whose ancestors are [anc] (nearest first). *)
Fixpoint resolve (anc : list node) (cur : node) (elems : list string)
  : option node :=
  match elems with
  | [] => Some cur
  | e :: rest =>
      if String.eqb e "" then resolve anc cur rest
      else
        match cur with
        | Folder _ es =>
            if String.eqb e "." then resolve anc cur rest
            else if String.eqb e ".." then
              match anc with
              | p :: anc' => resolve anc' p rest
              | [] => resolve [] cur rest
              end
            else
              match lookup_entry e es with
              | Some child => resolve (cur :: anc) child rest
              | None => None
              end
        | _ => None
        end
  end.

(** The node an absolute path names in the tree with root [root]. *)
Definition node_at (root : node) (path : string) : option node :=
  resolve [] root (split_slash path).

(** [os.Stat(path)]: [None] is the error result. *)
Definition Stat (root : node) (path : string) : option FileInfo :=
  match node_at root path with
  | Some n => lstat n
  | None => None
  end.

(** Errors, as far as the program can tell them apart. *)
Inductive error : Type :=
| SkipDir
| SkipAll
| ErrLstat (path : string)
| ErrReadDir (path : string).

Definition is_SkipDir (e : error) : bool :=
  match e with SkipDir => true | _ => false end.

Definition is_SkipAll (e : error) : bool :=
  match e with SkipAll => true | _ => false end.

End Os.

(** ** filepath.Walk *)
Module Walker.
Import Strings Filepath Os.

Section Walk.
Context {St : Type}.

(** [filepath.WalkFunc]; the closure's captured variables are the state
    [St] it threads. *)
Definition WalkFunc : Type :=
  string -> option FileInfo -> option error -> St -> St * option error.

Variable walkFn : WalkFunc.

(** [walk(path, info, walkFn)] on the node at [path]. *)
Fixpoint walk (path : string) (n : node) (st : St) {struct n}
  : St * option error :=
  match n with
  | Folder readable es =>
      let err := if readable then None else Some (ErrReadDir path) in
      let '(st1, err1) := walkFn path (lstat n) err st in
      match err, err1 with
      | None, None =>
          (fix each (es : list (string * node)) (st : St) {struct es}
             : St * option error :=
             match es with
             | [] => (st, None)
             | (name, child) :: rest =>
                 let filename := Join path name in
                 match lstat child with
                 | None =>
                     let '(st', e) :=
                       walkFn filename None (Some (ErrLstat filename)) st in
                     match e with
                     | Some e' =>
                         if negb (is_SkipDir e') then (st', Some e')
                         else each rest st'
                     | None => each rest st'
                     end
                 | Some fileInfo =>
                     let '(st', e) := walk filename child st in
                     match e with
                     | Some e' =>
                         if negb (IsDir fileInfo) || negb (is_SkipDir e')
                         then (st', Some e')
                         else each rest st'
                     | None => each rest st'
                     end
                 end
             end) es st1
      | _, _ => (st1, err1)
      end
  | _ => walkFn path (lstat n) None st
  end.

(** The loop of [walk] over the names of a directory, as a function of its
    own. *)
Definition walk_entries (path : string)
  : list (string * node) -> St -> St * option error :=
  fix each (es : list (string * node)) (st : St) {struct es}
    : St * option error :=
    match es with
    | [] => (st, None)
    | (name, child) :: rest =>
        let filename := Join path name in
        match lstat child with
        | None =>
            let '(st', e) :=
              walkFn filename None (Some (ErrLstat filename)) st in
            match e with
            | Some e' =>
                if negb (is_SkipDir e') then (st', Some e')
                else each rest st'
            | None => each rest st'
            end
        | Some fileInfo =>
            let '(st', e) := walk filename child st in
            match e with
            | Some e' =>
                if negb (IsDir fileInfo) || negb (is_SkipDir e')
                then (st', Some e')
                else each rest st'
            | None => each rest st'
            end
        end
    end.

(** [filepath.Walk(root, fn)] over the tree [fs]. *)
Definition Walk (fs : node) (root : string) (st : St) : St * option error :=
  let '(st', err) :=
    match node_at fs root with
    | Some n =>
        match lstat n with
        | Some _ => walk root n st
        | None => walkFn root None (Some (ErrLstat root)) st
        end
    | None => walkFn root None (Some (ErrLstat root)) st
    end in
  match err with
  | Some e => if is_SkipDir e || is_SkipAll e then (st', None) else (st', err)
  | None => (st', None)
  end.

End Walk.

End Walker.

(** ** The server: [startServer]'s two handlers *)
Module Server.
Import Strings Url Filepath Strconv Os Walker.

Definition StatusOK : Z := 200.
Definition StatusBadRequest : Z := 400.
Definition StatusForbidden : Z := 403.
Definition StatusNotFound : Z := 404.
Definition StatusInternalServerError : Z := 500.

(** The messages of the [{"error": ...}] bodies. *)
Inductive message : Type :=
| InvalidFilePath        (* /download: the path does not unescape *)
| InvalidDirPath         (* /list: the path does not unescape *)
| AccessDenied
| FileNotFound
| DirNotFound
| CannotDownloadDir      (* use /list instead *)
| NotADirectory
| WalkFailed (e : error). (* err.Error() *)

(** An element of the handler's [files] slice. *)
Record FileRecord := { Path : string; FSize : Z }.

Inductive response : Type :=
| JSONError (status : Z) (msg : message)     (* c.JSON(status, gin.H{"error": msg}) *)
| JSONFiles (status : Z) (files : list FileRecord) (* c.JSON(status, gin.H{"files": files}) *)
| Served (status : Z) (content_length : string) (body : string)
| TextError (status : Z)                     (* http.Error, plain text *)
| Panicked.                                  (* slice bounds out of range *)

(** [http.ServeFile] for a plain GET of a regular file: status 200 and
    the file's bytes, under the headers already set on the writer. *)
Definition ServeFile (content_length : string) (fs : node) (name : string)
  : response :=
  match node_at fs name with
  | Some (File data) => Served StatusOK content_length data
  | _ => TextError StatusNotFound
  end.

(** Handler of [GET /download/*path]; [param] is [c.Param("path")]. *)
Definition download_handler (absPath : string) (fs : node) (param : string)
  : response :=
  match slice_from_1 param with
  | None => Panicked
  | Some filePath =>
      match QueryUnescape filePath with
      | None => JSONError StatusBadRequest InvalidFilePath
      | Some decodedPath =>
          let fullPath := Join absPath decodedPath in
          if negb (HasPrefix fullPath absPath) then
            JSONError StatusForbidden AccessDenied
          else
            match Stat fs fullPath with
            | None => JSONError StatusNotFound FileNotFound
            | Some info =>
                if IsDir info then JSONError StatusBadRequest CannotDownloadDir
                else ServeFile (FormatInt (Size info)) fs fullPath
            end
      end
  end.

(** The closure passed to [filepath.Walk] by the /list handler; its state
    is the captured [files] slice. *)
Definition list_walk_fn (absPath : string)
  : @WalkFunc (list FileRecord) :=
  fun path info err files =>
    match err with
    | Some e => (files, Some e)
    | None =>
        let relPath := default ""%string (Rel absPath path) in
        match info with
        | Some i =>
            if negb (IsDir i) then
              (files ++ [ {| Path := relPath; FSize := Size i |} ], None)
            else (files, None)
        | None => (files, None)
        end
    end.

(** Handler of [GET /list/*path]. *)
Definition list_handler (absPath : string) (fs : node) (param : string)
  : response :=
  match slice_from_1 param with
  | None => Panicked
  | Some dirPath =>
      match QueryUnescape dirPath with
      | None => JSONError StatusBadRequest InvalidDirPath
      | Some decodedPath =>
          let fullPath := Join absPath decodedPath in
          if negb (HasPrefix fullPath absPath) then
            JSONError StatusForbidden AccessDenied
          else
            match Stat fs fullPath with
            | None => JSONError StatusNotFound DirNotFound
            | Some info =>
                if negb (IsDir info) then JSONError StatusBadRequest NotADirectory
                else
                  match Walk (list_walk_fn absPath) fs fullPath [] with
                  | (_, Some e) =>
                      JSONError StatusInternalServerError (WalkFailed e)
                  | (files, None) => JSONFiles StatusOK files
                  end
            end
      end
  end.

Definition status_of (r : response) : option Z :=
  match r with
  | JSONError s _ | JSONFiles s _ | Served s _ _ | TextError s => Some s
  | Panicked => None
  end.

End Server.

(** ** Specification-side notions for the server *)
Module ServerSpec.
Import Strings Filepath Os Server.

(** The containment rule of the specification: the resolved path is the
    root itself or begins with the root followed by a separator. *)
Definition contained (absPath fullPath : string) : bool :=
  String.eqb fullPath absPath || HasPrefix fullPath (absPath +:+ "/").

(** A path element as a file system can hold it: not empty, not [.] or
    [..], and without a separator. *)
Fixpoint has_slash (s : string) : bool :=
  match s with
  | EmptyString => false
  | String c r => Ascii.eqb c "/" || has_slash r
  end.

Definition proper_name (s : string) : bool :=
  negb (String.eqb s "") && negb (String.eqb s ".")
  && negb (String.eqb s "..") && negb (has_slash s).

(** The clean absolute path with the given elements. *)
Definition abs_path (elems : list string) : string :=
  String "/" (join_slash elems).

(** Every entry name in the tree is a proper path element. *)
Fixpoint wf_node (n : node) : bool :=
  match n with
  | Folder _ es => forallb (fun p => proper_name (fst p) && wf_node (snd p)) es
  | _ => true
  end.

(** No I/O error anywhere in the subtree: every directory can be read and
    every entry can be examined. *)
Fixpoint healthy (n : node) : bool :=
  match n with
  | File _ => true
  | Folder r es => r && forallb (fun p => healthy (snd p)) es
  | Gone => false
  end.

(** The non-directory entries of the subtree at [n], in walk order; [rel]
    are the path elements leading from the configured root to [n]. *)
Fixpoint files_of (rel : list string) (n : node) : list FileRecord :=
  match n with
  | File data => [ {| Path := join_slash rel; FSize := len data |} ]
  | Folder _ es => flat_map (fun p => files_of (rel ++ [fst p]) (snd p)) es
  | Gone => []
  end.

(** A tree with the served root [/data/a] and its sibling [/data/ab]. *)
Definition sibling_fs : node :=
  Folder true
    [("data"%string,
      Folder true
        [("a"%string, Folder true [("pub.txt"%string, File "hello")]);
         ("ab"%string, Folder true [("secret"%string, File "top secret")])])].

(** The directory of the specification's example, served as [/srv]: a file
    [a] of 10 bytes and a file [b/c] of 20 bytes. *)
Definition listing_fs : node :=
  Folder true
    [("srv"%string,
      Folder true
        [("a"%string, File "0123456789");
         ("b"%string, Folder true [("c"%string, File "01234567890123456789")])])].

End ServerSpec.
(** ** The client's data *)
Module ClientData.

(** [type FileInfo struct { Path string; Size int64 }]. *)
Record FileInfo := { Path : string; Size : Z }.

(** [type DownloadState struct { Files map[string]int64 }]; a Go map may be
    [nil], which reads as the empty map and panics when written. *)
Record DownloadState := { Files : option (gmap string Z) }.

End ClientData.

(** ** unicode/utf8 and unicode/utf16 *)
Module Utf8.

Definition byte (c : ascii) : N := N_of_ascii c.
Definition chr (n : N) : ascii := ascii_of_N n.

Definition RuneError : N := 0xFFFD.
Definition RuneSelf : N := 0x80.
Definition MaxRune : N := 0x10FFFF.

(** [s[n:]] for [n <= len(s)], else the empty tail. *)
Fixpoint skip (s : string) (n : nat) {struct s} : string :=
  match n, s with
  | S n', String _ r => skip r n'
  | _, _ => s
  end.

(** [s[:n]]. *)
Fixpoint take (s : string) (n : nat) {struct s} : string :=
  match n, s with
  | S n', String c r => String c (take r n')
  | _, _ => EmptyString
  end.

(** The table [first] with [acceptRanges]: the length of the sequence a
    leading byte opens and the range its second byte must lie in; [None]
    for a byte that opens no sequence. *)
Definition first (p0 : N) : option (nat * N * N) :=
  (if (0xC2 <=? p0) && (p0 <=? 0xDF) then Some (2%nat, 0x80, 0xBF)
   else if p0 =? 0xE0 then Some (3%nat, 0xA0, 0xBF)
   else if (0xE1 <=? p0) && (p0 <=? 0xEC) then Some (3%nat, 0x80, 0xBF)
   else if p0 =? 0xED then Some (3%nat, 0x80, 0x9F)
   else if (0xEE <=? p0) && (p0 <=? 0xEF) then Some (3%nat, 0x80, 0xBF)
   else if p0 =? 0xF0 then Some (4%nat, 0x90, 0xBF)
   else if (0xF1 <=? p0) && (p0 <=? 0xF3) then Some (4%nat, 0x80, 0xBF)
   else if p0 =? 0xF4 then Some (4%nat, 0x80, 0x8F)
   else None)%N.

(** A continuation byte: [locb <= b <= hicb]. *)
Definition cont (b : N) : bool := ((0x80 <=? b) && (b <=? 0xBF))%N.

(** [utf8.DecodeRune(p)]: the first rune of [p] and its width in bytes;
    [(RuneError, 1)] for an encoding that is not valid. *)
Definition DecodeRune (p : string) : N * nat :=
  match p with
  | EmptyString => (RuneError, 0%nat)
  | String c0 p1 =>
      let p0 := byte c0 in
      if (p0 <? RuneSelf)%N then (p0, 1%nat)
      else
        match first p0 with
        | None => (RuneError, 1%nat)
        | Some (sz, lo, hi) =>
            if (String.length p <? sz)%nat then (RuneError, 1%nat)
            else
              match p1 with
              | EmptyString => (RuneError, 1%nat)
              | String c1 p2 =>
                  let b1 := byte c1 in
                  if ((b1 <? lo) || (hi <? b1))%N then (RuneError, 1%nat)
                  else if (sz <=? 2)%nat then
                    (N.lor (N.shiftl (N.land p0 0x1F) 6) (N.land b1 0x3F),
                     2%nat)
                  else
                    match p2 with
                    | EmptyString => (RuneError, 1%nat)
                    | String c2 p3 =>
                        let b2 := byte c2 in
                        if negb (cont b2) then (RuneError, 1%nat)
                        else if (sz <=? 3)%nat then
                          (N.lor (N.shiftl (N.land p0 0x0F) 12)
                             (N.lor (N.shiftl (N.land b1 0x3F) 6)
                                (N.land b2 0x3F)), 3%nat)
                        else
                          match p3 with
                          | EmptyString => (RuneError, 1%nat)
                          | String c3 _ =>
                              let b3 := byte c3 in
                              if negb (cont b3) then (RuneError, 1%nat)
                              else
                                (N.lor (N.shiftl (N.land p0 0x07) 18)
                                   (N.lor (N.shiftl (N.land b1 0x3F) 12)
                                      (N.lor (N.shiftl (N.land b2 0x3F) 6)
                                         (N.land b3 0x3F))), 4%nat)
                          end
                    end
              end
        end
  end.

Definition is_surrogate (r : N) : bool := ((0xD800 <=? r) && (r <? 0xE000))%N.

Definition bytes (l : list N) : string :=
  fold_right (fun n s => String (chr n) s) EmptyString l.

(** [utf8.EncodeRune]: the UTF-8 encoding of [r]; a surrogate or a value
    above [MaxRune] is encoded as [RuneError]. *)
Definition EncodeRune (r : N) : string :=
  (if r <=? 0x7F then bytes [r]
   else if r <=? 0x7FF then
     bytes [N.lor 0xC0 (N.shiftr r 6); N.lor 0x80 (N.land r 0x3F)]
   else if (MaxRune <? r) || is_surrogate r then bytes [0xEF; 0xBF; 0xBD]
   else if r <=? 0xFFFF then
     bytes [N.lor 0xE0 (N.shiftr r 12);
            N.lor 0x80 (N.land (N.shiftr r 6) 0x3F);
            N.lor 0x80 (N.land r 0x3F)]
   else
     bytes [N.lor 0xF0 (N.shiftr r 18);
            N.lor 0x80 (N.land (N.shiftr r 12) 0x3F);
            N.lor 0x80 (N.land (N.shiftr r 6) 0x3F);
            N.lor 0x80 (N.land r 0x3F)])%N.

(** [utf16.DecodeRune(r1, r2)]: the code point of a surrogate pair, or
    [RuneError] when the two halves are not a pair. *)
Definition utf16_DecodeRune (r1 r2 : N) : N :=
  (if (0xD800 <=? r1) && (r1 <? 0xDC00) && (0xDC00 <=? r2) && (r2 <? 0xE000)
   then N.lor (N.shiftl (r1 - 0xD800) 10) (r2 - 0xDC00) + 0x10000
   else RuneError)%N.

(** What a Go string becomes when every rune is decoded and encoded again:
    each byte that is not part of a valid encoding turns into the encoding
    of [RuneError]. *)
Fixpoint coerce (s : string) : string :=
  match s with
  | EmptyString => EmptyString
  | String c0 r0 =>
      if (byte c0 <? RuneSelf)%N then String c0 (coerce r0)
      else
        let '(r, size) := DecodeRune s in
        EncodeRune r +:+ coerce (skip r0 (size - 1))
  end.

(** A string that is valid UTF-8 is one this leaves as it is. *)
Definition valid (s : string) : Prop := coerce s = s.

End Utf8.

(** ** strconv.ParseInt *)
Module StrconvParse.

Definition is_digit (c : ascii) : bool :=
  let n := N_of_ascii c in ((48 <=? n) && (n <=? 57))%N.

Definition digit (c : ascii) : Z := Z.of_N (N_of_ascii c) - 48.

(** The value of a run of decimal digits read after [acc]; [None] when a
    byte is not a digit. *)
Fixpoint digits_from (acc : Z) (s : string) : option Z :=
  match s with
  | EmptyString => Some acc
  | String c r =>
      if is_digit c then digits_from (acc * 10 + digit c) r else None
  end.

Definition min_int64 : Z := - 2 ^ 63.
Definition max_int64 : Z := 2 ^ 63 - 1.

(** [strconv.ParseInt(s, 10, 64)]: an optional sign, then digits only; the
    value has to fit an [int64].  [None] is the error result. *)
Definition ParseInt (s : string) : option Z :=
  let '(neg, body) :=
    match s with
    | String "+" r => (false, r)
    | String "-" r => (true, r)
    | _ => (false, s)
    end in
  match body with
  | EmptyString => None
  | _ =>
      match digits_from 0 body with
      | Some un =>
          let n := if neg then - un else un in
          if (min_int64 <=? n) && (n <=? max_int64) then Some n else None
      | None => None
      end
  end.

End StrconvParse.

(** ** encoding/json *)
Module Json.
Import Utf8 StrconvParse ClientData.

(** *** Encoding *)

Definition hex_digit (n : N) : ascii :=
  match n with
  | 0 => "0" | 1 => "1" | 2 => "2" | 3 => "3" | 4 => "4" | 5 => "5"
  | 6 => "6" | 7 => "7" | 8 => "8" | 9 => "9" | 10 => "a" | 11 => "b"
  | 12 => "c" | 13 => "d" | 14 => "e" | _ => "f"
  end%N%char.

(** [htmlSafeSet]: the ASCII bytes written as they are. *)
Definition html_safe (b : N) : bool :=
  ((0x20 <=? b) && (b <? 0x80)
   && negb ((b =? 0x22) || (b =? 0x5C)          (* the quote, the backslash *)
            || (b =? 0x3C) || (b =? 0x3E) || (b =? 0x26)))%N.  (* < > & *)

(** How [appendString] writes an ASCII byte that is not in the safe set. *)
Definition escape_ascii (c : ascii) : string :=
  let b := byte c in
  (if (b =? 0x5C) || (b =? 0x22) then String "\" (String c EmptyString)
   else if b =? 0x08 then "\b"
   else if b =? 0x0C then "\f"
   else if b =? 0x0A then "\n"
   else if b =? 0x0D then "\r"
   else if b =? 0x09 then "\t"
   else "\u00" +:+ String (hex_digit (N.shiftr b 4))
                     (String (hex_digit (N.land b 0xF)) EmptyString))%N.

(** The body of [appendString(dst, src, escapeHTML = true)], between the
    two quotes. *)
Fixpoint quote_body (s : string) : string :=
  match s with
  | EmptyString => EmptyString
  | String c0 r0 =>
      let b := byte c0 in
      if (b <? RuneSelf)%N then
        if html_safe b then String c0 (quote_body r0)
        else escape_ascii c0 +:+ quote_body r0
      else
        let '(c, size) := DecodeRune (take s 4) in
        if (c =? RuneError)%N && (size =? 1)%nat then
          "\ufffd" +:+ quote_body r0
        else if (c =? 0x2028)%N || (c =? 0x2029)%N then
          "\u202" +:+ String (hex_digit (N.land c 0xF))
                        (quote_body (skip r0 (size - 1)))
        else take s size +:+ quote_body (skip r0 (size - 1))
  end.

Definition dquote : ascii := chr 0x22.

Definition quote (s : string) : string :=
  String dquote (quote_body s +:+ String dquote EmptyString).

(** [strings.Compare(a, b) <= 0], the order map keys are written in. *)
Definition key_le (a b : string) : bool := String.leb a b.

Fixpoint insert_sorted (kv : string * Z) (l : list (string * Z))
  : list (string * Z) :=
  match l with
  | [] => [kv]
  | kv' :: l' =>
      if key_le (fst kv) (fst kv') then kv :: l
      else kv' :: insert_sorted kv l'
  end.

Definition sort_entries (l : list (string * Z)) : list (string * Z) :=
  fold_right insert_sorted [] l.

Definition encode_entry (kv : string * Z) : string :=
  quote (fst kv) +:+ ":" +:+ Strconv.FormatInt (snd kv).

(** The map encoder: [null] for a nil map, else the entries sorted by
    key. *)
Definition encode_map (m : option (gmap string Z)) : string :=
  match m with
  | None => "null"
  | Some m =>
      "{" +:+ String.concat "," (List.map encode_entry
                                   (sort_entries (map_to_list m))) +:+ "}"
  end.

(** [json.Marshal(state)] for a [DownloadState]; it cannot fail. *)
Definition Marshal (state : DownloadState) : string :=
  "{" +:+ quote "files" +:+ ":" +:+ encode_map (Files state) +:+ "}".

(** *** Decoding *)

Inductive value : Type :=
| Null
| Bool (b : bool)
| Number (lit : string)                  (* the literal as written *)
| Str (s : string)                       (* the string, unquoted *)
| Array (elems : list value)
| Object (members : list (string * value)).

Definition isb (c d : ascii) : bool := Ascii.eqb c d.

Definition is_space (c : ascii) : bool :=
  isb c " " || (byte c =? 0x09)%N || (byte c =? 0x0D)%N || (byte c =? 0x0A)%N.

Fixpoint skip_space (s : string) : string :=
  match s with
  | String c r => if is_space c then skip_space r else s
  | EmptyString => s
  end.

Definition hex_val (c : ascii) : option N :=
  let n := byte c in
  (if (0x30 <=? n) && (n <=? 0x39) then Some (n - 0x30)
   else if (0x61 <=? n) && (n <=? 0x66) then Some (n - 0x61 + 10)
   else if (0x41 <=? n) && (n <=? 0x46) then Some (n - 0x41 + 10)
   else None)%N.

(** [getu4] on the four bytes after [\u]: their value as a hexadecimal
    number, [None] when they are not four hex digits. *)
Definition hex4 (s : string) : option N :=
  match s with
  | String a (String b (String c (String d _))) =>
      match hex_val a, hex_val b, hex_val c, hex_val d with
      | Some x, Some y, Some z, Some w =>
          Some (((x * 16 + y) * 16 + z) * 16 + w)%N
      | _, _, _, _ => None
      end
  | _ => None
  end.

(** [getu4]: the value of a [\uXXXX] escape at the start of [s]. *)
Definition getu4 (s : string) : option N :=
  match s with
  | String a (String b r) => if isb a "\" && isb b "u" then hex4 r else None
  | _ => None
  end.

(** The byte a one-letter escape stands for. *)
Definition simple_escape (e : ascii) : option ascii :=
  if isb e dquote || isb e "\" || isb e "/" then Some e
  else if isb e "b" then Some (chr 0x08)
  else if isb e "f" then Some (chr 0x0C)
  else if isb e "n" then Some (chr 0x0A)
  else if isb e "r" then Some (chr 0x0D)
  else if isb e "t" then Some (chr 0x09)
  else None.

Definition prepend (p : string) (r : option (string * string))
  : option (string * string) :=
  match r with
  | Some (t, rest) => Some (p +:+ t, rest)
  | None => None
  end.

(** A string literal from after its opening quote: what the scanner
    accepts, unquoted as [unquoteBytes] does it, and the input after the
    closing quote.  [None] isb a syntax error.  (The scanner finds the
    closing quote before [unquoteBytes] decodes runes; a quote is no
    continuation byte, so decoding from the input gives the same runes.) *)
Fixpoint scan_string (s : string) : option (string * string) :=
  match s with
  | EmptyString => None
  | String c r =>
      let b := byte c in
      if isb c dquote then Some (EmptyString, r)
      else if (b <? 0x20)%N then None
      else if isb c "\" then
        match r with
        | EmptyString => None
        | String e r1 =>
            match simple_escape e with
            | Some d => prepend (String d EmptyString) (scan_string r1)
            | None =>
                if isb e "u" then
                  match hex4 r1 with
                  | None => None
                  | Some rr =>
                      if is_surrogate rr then
                        match getu4 (skip r1 4) with
                        | Some rr1 =>
                            let dec := utf16_DecodeRune rr rr1 in
                            if negb (dec =? RuneError)%N then
                              (* a valid pair: both escapes are consumed *)
                              prepend (EncodeRune dec)
                                (scan_string (skip r1 10))
                            else
                              prepend (EncodeRune RuneError)
                                (scan_string (skip r1 4))
                        | None =>
                            prepend (EncodeRune RuneError)
                              (scan_string (skip r1 4))
                        end
                      else prepend (EncodeRune rr) (scan_string (skip r1 4))
                  end
                else None
            end
        end
      else if (b <? RuneSelf)%N then
        prepend (String c EmptyString) (scan_string r)
      else
        let '(rr, size) := DecodeRune s in
        prepend (EncodeRune rr) (scan_string (skip r (size - 1)))
  end.

(** The longest run of digits at the start of [s], and what follows. *)
Fixpoint span_digits (s : string) : string * string :=
  match s with
  | String c r =>
      if is_digit c then
        let '(d, rest) := span_digits r in (String c d, rest)
      else (EmptyString, s)
  | EmptyString => (EmptyString, s)
  end.

(** One or more digits. *)
Definition digits1 (s : string) : option (string * string) :=
  match span_digits s with
  | (EmptyString, _) => None
  | (d, rest) => Some (d, rest)
  end.

(** A number literal: an optional minus sign; a zero, or digits of which
    the first is not zero; optionally a point and digits; optionally [e] or
    [E], a sign and digits. *)
Definition scan_number (s : string) : option (string * string) :=
  let '(sign, s1) :=
    match s with
    | String c r => if isb c "-" then ("-"%string, r) else (EmptyString, s)
    | EmptyString => (EmptyString, s)
    end in
  let int_part :=
    match s1 with
    | String c r =>
        if isb c "0" then Some ("0"%string, r)
        else if is_digit c then digits1 s1
        else None
    | EmptyString => None
    end in
  match int_part with
  | None => None
  | Some (i, s2) =>
      let frac :=
        match s2 with
        | String c r =>
            if isb c "." then
              match digits1 r with
              | Some (d, rest) => Some (String c d, rest)
              | None => None
              end
            else Some (EmptyString, s2)
        | EmptyString => Some (EmptyString, s2)
        end in
      match frac with
      | None => None
      | Some (f, s3) =>
          let exp :=
            match s3 with
            | String c r =>
                if isb c "e" || isb c "E" then
                  let '(sg, r') :=
                    match r with
                    | String c' r'' =>
                        if isb c' "+" || isb c' "-"
                        then (String c' EmptyString, r'')
                        else (EmptyString, r)
                    | EmptyString => (EmptyString, r)
                    end in
                  match digits1 r' with
                  | Some (d, rest) => Some (String c (sg +:+ d), rest)
                  | None => None
                  end
                else Some (EmptyString, s3)
            | EmptyString => Some (EmptyString, s3)
            end in
          match exp with
          | None => None
          | Some (e, s4) => Some (sign +:+ i +:+ f +:+ e, s4)
          end
      end
  end.

(** [s] begins with the keyword [kw]: the input after it. *)
Definition keyword (kw s : string) : option string :=
  if Strings.HasPrefix s kw then Some (skip s (String.length kw)) else None.

Definition maxNestingDepth : N := 10000.

(** The grammar the scanner checks, building the value on the way.  Every
    call consumes input, so [fuel] above the length of the input is never
    used up; [depth] counts the arrays and objects that are open. *)
Fixpoint parse_value (fuel : nat) (depth : N) (s : string) {struct fuel}
  : option (value * string) :=
  match fuel with
  | O => None
  | S fuel' =>
      match skip_space s with
      | EmptyString => None
      | String c r =>
          if isb c "{" then
            if (maxNestingDepth <? depth + 1)%N then None
            else
              match skip_space r with
              | String c' r' =>
                  if isb c' "}" then Some (Object [], r')
                  else
                    match parse_members fuel' (depth + 1)%N r with
                    | Some (ms, rest) => Some (Object ms, rest)
                    | None => None
                    end
              | EmptyString => None
              end
          else if isb c "[" then
            if (maxNestingDepth <? depth + 1)%N then None
            else
              match skip_space r with
              | String c' r' =>
                  if isb c' "]" then Some (Array [], r')
                  else
                    match parse_elements fuel' (depth + 1)%N r with
                    | Some (vs, rest) => Some (Array vs, rest)
                    | None => None
                    end
              | EmptyString => None
              end
          else if isb c dquote then
            match scan_string r with
            | Some (str, rest) => Some (Str str, rest)
            | None => None
            end
          else if isb c "-" || is_digit c then
            match scan_number (String c r) with
            | Some (lit, rest) => Some (Number lit, rest)
            | None => None
            end
          else if isb c "t" then
            match keyword "rue" r with
            | Some rest => Some (Bool true, rest)
            | None => None
            end
          else if isb c "f" then
            match keyword "alse" r with
            | Some rest => Some (Bool false, rest)
            | None => None
            end
          else if isb c "n" then
            match keyword "ull" r with
            | Some rest => Some (Null, rest)
            | None => None
            end
          else None
      end
  end
with parse_members (fuel : nat) (depth : N) (s : string) {struct fuel}
  : option (list (string * value) * string) :=
  match fuel with
  | O => None
  | S fuel' =>
      match skip_space s with
      | EmptyString => None
      | String c r =>
          if isb c dquote then
            match scan_string r with
            | None => None
            | Some (k, r1) =>
                match skip_space r1 with
                | EmptyString => None
                | String c1 r2 =>
                    if isb c1 ":" then
                      match parse_value fuel' depth r2 with
                      | None => None
                      | Some (v, r3) =>
                          match skip_space r3 with
                          | EmptyString => None
                          | String c3 r4 =>
                              if isb c3 "," then
                                match parse_members fuel' depth r4 with
                                | Some (ms, rest) => Some ((k, v) :: ms, rest)
                                | None => None
                                end
                              else if isb c3 "}" then Some ([(k, v)], r4)
                              else None
                          end
                      end
                    else None
                end
            end
          else None
      end
  end
with parse_elements (fuel : nat) (depth : N) (s : string) {struct fuel}
  : option (list value * string) :=
  match fuel with
  | O => None
  | S fuel' =>
      match parse_value fuel' depth s with
      | None => None
      | Some (v, r1) =>
          match skip_space r1 with
          | EmptyString => None
          | String c r2 =>
              if isb c "," then
                match parse_elements fuel' depth r2 with
                | Some (vs, rest) => Some (v :: vs, rest)
                | None => None
                end
              else if isb c "]" then Some ([v], r2)
              else None
          end
      end
  end.

(** [checkValid] and the scan of the whole input: one value, then nothing
    but white space.  [None] isb a [SyntaxError]. *)
Definition parse (data : string) : option value :=
  match parse_value (S (String.length data)) 0 data with
  | Some (v, rest) =>
      match skip_space rest with
      | EmptyString => Some v
      | _ => None
      end
  | None => None
  end.

(** [foldName]: ASCII letters in upper case; of the other runes only
    U+017F and U+212A fold to ASCII letters (S and K). *)
Fixpoint foldName (s : string) : string :=
  match s with
  | EmptyString => EmptyString
  | String c0 r0 =>
      let b := byte c0 in
      if (b <? RuneSelf)%N then
        String (if (0x61 <=? b)%N && (b <=? 0x7A)%N then chr (b - 0x20) else c0)
          (foldName r0)
      else
        let '(r, size) := DecodeRune s in
        let folded :=
          (if r =? 0x17F then 0x53 else if r =? 0x212A then 0x4B else r)%N in
        EncodeRune folded +:+ foldName (skip r0 (size - 1))
  end.

(** The one field of [DownloadState]: the exact name, else the folded
    one. *)
Definition is_files_key (k : string) : bool :=
  String.eqb k "files" || String.eqb (foldName k) (foldName "files").

(** Storing a value into an [int64] that starts at zero; the flag reports
    an [UnmarshalTypeError], after which decoding goes on. *)
Definition decode_int64 (v : value) : Z * bool :=
  match v with
  | Number lit =>
      match ParseInt lit with
      | Some n => (n, false)
      | None => (0, true)
      end
  | Null => (0, false)
  | _ => (0, true)
  end.

(** Storing a value into the field [Files]. *)
Definition decode_map (m : option (gmap string Z)) (v : value)
  : option (gmap string Z) * bool :=
  match v with
  | Null => (None, false)
  | Object ms =>
      let '(m', e) :=
        fold_left
          (fun (acc : gmap string Z * bool) (kv : string * value) =>
             let '(n, e) := decode_int64 (snd kv) in
             (<[fst kv := n]> (fst acc), snd acc || e))
          ms (default ∅ m, false) in
      (Some m', e)
  | _ => (m, true)
  end.

(** Storing a value into a [DownloadState]. *)
Definition decode_state (v : value) (state : DownloadState)
  : DownloadState * bool :=
  match v with
  | Object ms =>
      fold_left
        (fun (acc : DownloadState * bool) (kv : string * value) =>
           if is_files_key (fst kv) then
             let '(m, e) := decode_map (Files (fst acc)) (snd kv) in
             ({| Files := m |}, snd acc || e)
           else acc)
        ms (state, false)
  | Null => (state, false)
  | _ => (state, true)
  end.

(** [json.Unmarshal(data, &state)]: the state afterwards and whether an
    error is returned.  Input that is not valid JSON changes nothing. *)
Definition Unmarshal (data : string) (state : DownloadState)
  : DownloadState * bool :=
  match parse data with
  | None => (state, true)
  | Some v => decode_state v state
  end.

End Json.
(** ** net/url: PathEscape *)
Module UrlEscape.
Import Utf8.

Definition upperhex (n : N) : ascii :=
  match n with
  | 0 => "0" | 1 => "1" | 2 => "2" | 3 => "3" | 4 => "4" | 5 => "5"
  | 6 => "6" | 7 => "7" | 8 => "8" | 9 => "9" | 10 => "A" | 11 => "B"
  | 12 => "C" | 13 => "D" | 14 => "E" | _ => "F"
  end%N%char.

Definition among (c : ascii) (set : string) : bool :=
  existsb (Ascii.eqb c) (list_ascii_of_string set).

(** [shouldEscape(c, encodePathSegment)]. *)
Definition shouldEscape (c : ascii) : bool :=
  let b := byte c in
  if ((0x61 <=? b) && (b <=? 0x7A) || (0x41 <=? b) && (b <=? 0x5A)
      || (0x30 <=? b) && (b <=? 0x39))%N then false
  else if among c "-_.~" then false
  else if among c "$&+,/:;=?@" then among c "/;,?"
  else true.

(** [url.PathEscape]. *)
Fixpoint PathEscape (s : string) : string :=
  match s with
  | EmptyString => EmptyString
  | String c r =>
      if shouldEscape c then
        String "%" (String (upperhex (N.shiftr (byte c) 4))
                      (String (upperhex (N.land (byte c) 15)) (PathEscape r)))
      else String c (PathEscape r)
  end.

End UrlEscape.

(** ** The client's file system

  A store from cleaned path names to what is there.  [.] and [/], and a
  path that climbs out of the working directory, always name a directory.
  A file that is not [readable] cannot be opened for reading, a file or
  directory that is not [writable] cannot be written or added to. *)
Module ClientOs.
Import Strings Filepath.

Inductive node : Type :=
| File (readable writable : bool) (data : string)
| Dir (writable : bool).

Abbreviation fs := (gmap string node).

(** The key under which the store holds [path]. *)
Definition key (path : string) : string := Clean path.

Definition always_dir (k : string) : bool :=
  String.eqb k "." || String.eqb k "/"
  || String.eqb (List.last (split_slash k) EmptyString) "..".

(** What [path] names; the empty path names nothing. *)
Definition node_at (f : fs) (path : string) : option node :=
  if String.eqb path "" then None
  else
    match f !! key path with
    | Some n => Some n
    | None => if always_dir (key path) then Some (Dir true) else None
    end.

(** [os.Stat]. *)
Definition Stat (f : fs) (path : string) : option Os.FileInfo :=
  match node_at f path with
  | Some (File _ _ data) => Some {| Os.IsDir := false; Os.Size := len data |}
  | Some (Dir _) => Some {| Os.IsDir := true; Os.Size := Os.dir_size |}
  | None => None
  end.

(** [os.ReadFile]. *)
Definition ReadFile (f : fs) (path : string) : option string :=
  match node_at f path with
  | Some (File true _ data) => Some data
  | _ => None
  end.

(** Opening [path] with [O_WRONLY|O_CREATE|O_TRUNC], as [os.Create] and
    [os.WriteFile] do: an existing file is emptied, a missing one is
    created in its directory. *)
Definition Create (f : fs) (path : string) : option fs :=
  match node_at f path with
  | Some (File r w _) =>
      if w then Some (<[key path := File r w EmptyString]> f) else None
  | Some (Dir _) => None
  | None =>
      if String.eqb path "" then None
      else
        match node_at f (Filepath.Dir (key path)) with
        | Some (Dir true) =>
            Some (<[key path := File true true EmptyString]> f)
        | _ => None
        end
  end.

(** Writing [data] through the handle of the file opened at [path]. *)
Definition write (f : fs) (path : string) (data : string) : fs :=
  match f !! key path with
  | Some (File r w old) => <[key path := File r w (old +:+ data)]> f
  | _ => f
  end.

(** [os.WriteFile]; the flag is [err == nil]. *)
Definition WriteFile (f : fs) (path : string) (data : string) : fs * bool :=
  match Create f path with
  | Some f' => (write f' path data, true)
  | None => (f, false)
  end.

(** [os.Mkdir]. *)
Definition Mkdir (f : fs) (path : string) : fs * bool :=
  match node_at f path with
  | Some _ => (f, false)
  | None =>
      if String.eqb path "" then (f, false)
      else
        match node_at f (Filepath.Dir (key path)) with
        | Some (Dir true) => (<[key path := Dir true]> f, true)
        | _ => (f, false)
        end
  end.

(** The path with the elements [elems]. *)
Definition path_of (rooted : bool) (elems : list string) : string :=
  match elems with
  | [] => if rooted then "/" else "."
  | _ => (if rooted then "/" else "") +:+ join_slash elems
  end.

(** The elements of a cleaned path. *)
Definition elements (k : string) : list string :=
  List.filter (fun e => negb (String.eqb e "") && negb (String.eqb e "."))
    (split_slash k).

(** [os.MkdirAll] on the path whose elements are [relems], last first:
    nothing to do for a directory, an error for a file, else the parent is
    made first.  Directories made before an error stay. *)
Fixpoint mkdir_all (f : fs) (rooted : bool) (relems : list string)
  : fs * bool :=
  let path := path_of rooted (rev relems) in
  match node_at f path with
  | Some (Dir _) => (f, true)
  | Some (File _ _ _) => (f, false)
  | None =>
      match relems with
      | [] => (f, false)
      | _ :: parent =>
          let '(f1, ok) := mkdir_all f rooted parent in
          if ok then Mkdir f1 path else (f1, false)
      end
  end.

Definition MkdirAll (f : fs) (path : string) : fs * bool :=
  if String.eqb path "" then (f, false)
  else mkdir_all f (is_rooted path) (rev (elements (key path))).

(** The file, if any, the store holds under [k]. *)
Definition file_at (f : fs) (k : string) : option node :=
  match f !! k with
  | Some (File r w data) => Some (File r w data)
  | _ => None
  end.

(** Both stores hold the same files with the same contents. *)
Definition same_files (f f' : fs) : Prop :=
  forall k, file_at f k = file_at f' k.

(** The same, but for the file under [k0]. *)
Definition same_files_but (k0 : string) (f f' : fs) : Prop :=
  forall k, k <> k0 -> file_at f k = file_at f' k.

End ClientOs.

(** ** The client: ledger and single-file transfer *)
Module Client.
Import Strings Filepath ClientData ClientOs.

(** The flags of the client command. *)
Record Config := {
  serverURL : string;
  savePath : string;
  resumeFile : string
}.

(** [http.Response]: the status, [ContentLength] ([-1] when unknown), and
    the body as [io.Copy] will see it: the bytes delivered, and whether the
    stream then ends with an error instead of EOF. *)
Record Response := {
  StatusCode : Z;
  ContentLength : Z;
  Body : string;
  BodyErr : bool
}.

(** The network: whether [http.NewRequest] accepts a URL, and what
    [client.Do] returns for it ([None] is the error result). *)
Record Net := {
  NewRequest_ok : string -> bool;
  Do : string -> option Response
}.

Definition StatusOK : Z := 200.

Definition empty_state : DownloadState := {| Files := Some ∅ |}.

(** [loadDownloadState]. *)
Definition loadDownloadState (cfg : Config) (f : fs) : DownloadState :=
  let state := {| Files := Some ∅ |} in
  match ReadFile f (resumeFile cfg) with
  | Some data => fst (Json.Unmarshal data state)
  | None => state
  end.

(** [saveDownloadState]; [json.Marshal] cannot fail on a [DownloadState],
    the result of [os.WriteFile] is dropped. *)
Definition saveDownloadState (cfg : Config) (state : DownloadState) (f : fs)
  : fs :=
  let data := Json.Marshal state in
  fst (WriteFile f (resumeFile cfg) data).

(** Where [downloadFile] returns. *)
Inductive outcome : Type :=
| ErrNewRequest
| ErrDo
| ErrStatus (code : Z)
| ErrMkdir
| Skipped
| ErrCreate
| ErrCopy
| ErrSizeMismatch
| PanicNilMap                  (* assignment to an entry in a nil map *)
| Downloaded (written : Z).

Definition download_url (cfg : Config) (filePath : string) : string :=
  serverURL cfg +:+ "/download/" +:+ UrlEscape.PathEscape filePath.

(** [downloadFile(filePath)]. *)
Definition downloadFile (cfg : Config) (net : Net) (f : fs)
  (filePath : string) : outcome * fs :=
  let state := loadDownloadState cfg f in
  let url := download_url cfg filePath in
  if negb (NewRequest_ok net url) then (ErrNewRequest, f)
  else
    match Do net url with
    | None => (ErrDo, f)
    | Some resp =>
        if negb (StatusCode resp =? StatusOK) then
          (ErrStatus (StatusCode resp), f)
        else
          let totalSize := ContentLength resp in
          let saveDir := Join (savePath cfg) (Filepath.Dir filePath) in
          let '(f1, ok) := MkdirAll f saveDir in
          if negb ok then (ErrMkdir, f1)
          else
            let fileName := Join (savePath cfg) filePath in
            let complete :=
              match Stat f1 fileName with
              | Some info => (0 <? totalSize) && (Os.Size info =? totalSize)
              | None => false
              end in
            if complete then (Skipped, f1)
            else
              match Create f1 fileName with
              | None => (ErrCreate, f1)
              | Some f2 =>
                  let f3 := write f2 fileName (Body resp) in
                  let written := len (Body resp) in
                  if BodyErr resp then (ErrCopy, f3)
                  else if (0 <? totalSize) && negb (written =? totalSize)
                  then (ErrSizeMismatch, f3)
                  else
                    match Files state with
                    | None => (PanicNilMap, f3)
                    | Some m =>
                        (Downloaded written,
                         saveDownloadState cfg
                           {| Files := Some (<[filePath := written]> m) |} f3)
                    end
              end
    end.

(** The URL, the directory and the file [downloadFile] works with. *)
Definition saveDir (cfg : Config) (filePath : string) : string :=
  Join (savePath cfg) (Filepath.Dir filePath).

Definition fileName (cfg : Config) (filePath : string) : string :=
  Join (savePath cfg) filePath.

(** The return points after [os.Create]: the local file has been opened
    and the body copied into it. *)
Definition copied (out : outcome) : bool :=
  match out with
  | ErrCopy | ErrSizeMismatch | PanicNilMap | Downloaded _ => true
  | _ => false
  end.

(** The return point after [saveDownloadState]. *)
Definition saved (out : outcome) : bool :=
  match out with
  | Downloaded _ => true
  | _ => false
  end.

(** A client set up for the examples: files are saved under [out], the
    ledger is [state.json], and the server answers every request with
    [resp]. *)
Definition demo_cfg : Config :=
  {| serverURL := "http://localhost:8080"; savePath := "out";
     resumeFile := "state.json" |}.

Definition demo_net (resp : Response) : Net :=
  {| NewRequest_ok := fun _ => true; Do := fun _ => Some resp |}.

Definition demo_fs : fs :=
  <["out/x" := File true true "abc"]> (<["out" := Dir true]> ∅).

(** The server's answer [resp] lets [downloadFile] get as far as the size
    check after the copy, and pass it: the request is accepted and answered
    with status 200, the directory can be made, the local file is not
    taken to be complete and can be opened for writing, and the body is
    delivered without error in the length announced, if one is. *)
Definition transfer_ok (cfg : Config) (net : Net) (f : fs)
  (filePath : string) (resp : Response) : Prop :=
  NewRequest_ok net (download_url cfg filePath) = true
  /\ Do net (download_url cfg filePath) = Some resp
  /\ StatusCode resp = StatusOK
  /\ snd (MkdirAll f (saveDir cfg filePath)) = true
  /\ (forall info,
        Stat (fst (MkdirAll f (saveDir cfg filePath))) (fileName cfg filePath)
        = Some info ->
        0 < ContentLength resp -> Os.Size info <> ContentLength resp)
  /\ Create (fst (MkdirAll f (saveDir cfg filePath))) (fileName cfg filePath)
     <> None
  /\ BodyErr resp = false
  /\ (0 < ContentLength resp -> len (Body resp) = ContentLength resp).

(** A ledger file as [saveDownloadState] writes it for a nil map. *)
Definition null_ledger : string := Json.Marshal {| Files := None |}.

Definition null_ledger_fs : fs :=
  <["state.json" := File true true null_ledger]> demo_fs.

(** A ledger file that is not JSON, and one that is JSON of another
    shape. *)
Definition demo_fs_ledger (data : string) : fs :=
  <["state.json" := File true true data]> demo_fs.

End Client.

(** ** The client: the directories of a listing *)
Module ClientList.
Import ClientData.

(** The loop of [listServerContent] over [result.Files]: [dirs] is a
    [map[string]bool] that only ever holds [true], that is a set; the
    order in which its keys are printed is not fixed. *)
Definition listed_dirs (files : list FileInfo) : gset string :=
  fold_left
    (fun (dirs : gset string) (file : FileInfo) =>
       let dir := Filepath.Dir (Path file) in
       if negb (String.eqb dir ".") then {[ dir ]} ∪ dirs else dirs)
    files ∅.

End ClientList.

(** ** The batch download: [downloadDirectory] from the point where the
    listing has been decoded and is not empty

    The goroutines of [downloadDirectory] are interleaved by a step
    relation.  The state holds the position of the main goroutine, the
    buffered channel [tasks] (capacity [len(result.Files)]), the counter of
    the [sync.WaitGroup], one entry per started worker, and the log of the
    [downloadFile] calls begun so far.  A call to [downloadFile] is taken to
    return. *)
Module Batch.
Import ClientData.

(** Where the main goroutine stands. *)
Inductive main_pc : Type :=
| Spawning (i : Z)                  (* for i := 0; i < concurrency; i++ *)
| Sending (rest : list FileInfo)    (* for _, file := range result.Files *)
| Closing                           (* close(tasks) *)
| Waiting                           (* wg.Wait() *)
| Returned.                         (* the completion message is printed *)

(** Where a worker goroutine stands. *)
Inductive worker : Type :=
| Receiving                         (* for file := range tasks *)
| Downloading (file : FileInfo)     (* downloadFile(file.Path) *)
| Exited.                           (* wg.Done() has run *)

Record state := {
  pc : main_pc;
  tasks : list FileInfo;
  closed : bool;
  wg : Z;
  workers : list worker;
  calls : list string
}.

Section Run.
Variable files : list FileInfo.      (* result.Files *)
Variable concurrency : Z.

Definition capacity : nat := List.length files.

Definition init : state :=
  {| pc := Spawning 0; tasks := []; closed := false; wg := 0;
     workers := []; calls := [] |}.

Inductive step : state -> state -> Prop :=
| step_spawn i s :
    pc s = Spawning i -> i < concurrency ->
    (* wg.Add(1); go func() {...}() *)
    step s {| pc := Spawning (i + 1); tasks := tasks s; closed := closed s;
              wg := wg s + 1; workers := workers s ++ [Receiving];
              calls := calls s |}
| step_spawned i s :
    pc s = Spawning i -> ~ i < concurrency ->
    step s {| pc := Sending files; tasks := tasks s; closed := closed s;
              wg := wg s; workers := workers s; calls := calls s |}
| step_send file rest s :
    pc s = Sending (file :: rest) ->
    (List.length (tasks s) < capacity)%nat ->     (* the send does not block *)
    step s {| pc := Sending rest; tasks := tasks s ++ [file];
              closed := closed s; wg := wg s; workers := workers s;
              calls := calls s |}
| step_sent s :
    pc s = Sending [] ->
    step s {| pc := Closing; tasks := tasks s; closed := closed s;
              wg := wg s; workers := workers s; calls := calls s |}
| step_close s :
    pc s = Closing ->
    step s {| pc := Waiting; tasks := tasks s; closed := true;
              wg := wg s; workers := workers s; calls := calls s |}
| step_wait s :
    pc s = Waiting -> wg s = 0 ->
    step s {| pc := Returned; tasks := tasks s; closed := closed s;
              wg := wg s; workers := workers s; calls := calls s |}
| step_receive k file rest s :
    workers s !! k = Some Receiving -> tasks s = file :: rest ->
    (* the worker takes the head of the queue and calls downloadFile *)
    step s {| pc := pc s; tasks := rest; closed := closed s; wg := wg s;
              workers := <[k := Downloading file]> (workers s);
              calls := calls s ++ [Path file] |}
| step_downloaded k file s :
    workers s !! k = Some (Downloading file) ->
    step s {| pc := pc s; tasks := tasks s; closed := closed s; wg := wg s;
              workers := <[k := Receiving]> (workers s); calls := calls s |}
| step_exit k s :
    workers s !! k = Some Receiving -> tasks s = [] -> closed s = true ->
    (* the range loop ends; the deferred wg.Done() runs *)
    step s {| pc := pc s; tasks := tasks s; closed := closed s;
              wg := wg s - 1; workers := <[k := Exited]> (workers s);
              calls := calls s |}.

Inductive reachable : state -> Prop :=
| reach_init : reachable init
| reach_step s s' : reachable s -> step s s' -> reachable s'.

(** The files the main goroutine has still to send. *)
Definition pending (s : state) : list FileInfo :=
  match pc s with
  | Spawning _ => files
  | Sending rest => rest
  | _ => []
  end.

Definition live (w : worker) : bool :=
  match w with Exited => false | _ => true end.

Definition is_downloading (w : worker) : bool :=
  match w with Downloading _ => true | _ => false end.

(** A bound on the number of steps still to come. *)
Definition worker_weight (w : worker) : nat :=
  match w with Receiving => 1 | Downloading _ => 2 | Exited => 0 end%nat.

Definition main_weight (p : main_pc) : nat :=
  match p with
  | Spawning i => 2 * Z.to_nat (concurrency - i) + 3 * List.length files + 4
  | Sending rest => 3 * List.length rest + 3
  | Closing => 2
  | Waiting => 1
  | Returned => 0
  end%nat.

Definition weight (s : state) : nat :=
  (main_weight (pc s) + list_sum (List.map worker_weight (workers s))
   + 2 * List.length (tasks s))%nat.

Definition live_count (ws : list worker) : nat :=
  list_sum (List.map (fun w => if live w then 1%nat else 0%nat) ws).

(** What holds of every state the goroutines can reach. *)
Record Inv (s : state) : Prop := {
  inv_wg : wg s = Z.of_nat (live_count (workers s));
  inv_perm : Permutation (List.map Path files)
               (calls s ++ List.map Path (tasks s) ++ List.map Path (pending s));
  inv_cap : (List.length (tasks s) + List.length (pending s)
             <= List.length files)%nat;
  inv_exited : Exists (fun w => w = Exited) (workers s) ->
               tasks s = [] /\ closed s = true;
  inv_pc :
    match pc s with
    | Spawning i =>
        0 <= i /\ Z.of_nat (List.length (workers s)) = i
        /\ i <= Z.max 0 concurrency /\ tasks s = [] /\ calls s = []
        /\ closed s = false /\ Forall (fun w => w = Receiving) (workers s)
    | Sending _ | Closing =>
        Z.of_nat (List.length (workers s)) = Z.max 0 concurrency
        /\ closed s = false /\ Forall (fun w => live w = true) (workers s)
    | Waiting =>
        Z.of_nat (List.length (workers s)) = Z.max 0 concurrency
        /\ closed s = true
    | Returned =>
        Z.of_nat (List.length (workers s)) = Z.max 0 concurrency
        /\ closed s = true /\ wg s = 0
    end
}.

End Run.

(** A listing of two files, for the examples. *)
Definition two_files : list FileInfo :=
  [ {| Path := "a"; Size := 10 |}; {| Path := "b"; Size := 20 |} ].

(** One worker holds the first file while the second is still to be sent. *)
Definition early_state : state :=
  {| pc := Sending [ {| Path := "b"; Size := 20 |} ]; tasks := [];
     closed := false; wg := 1;
     workers := [Downloading {| Path := "a"; Size := 10 |}];
     calls := ["a"%string] |}.

(** The end of that run. *)
Definition final_state : state :=
  {| pc := Returned; tasks := []; closed := true; wg := 0;
     workers := [Exited]; calls := ["a"%string; "b"%string] |}.

End Batch.
(** ** Notions used to state properties of the request paths *)
Module UrlSpec.

(** [s] with every [+] replaced by a space. *)
Fixpoint plus_to_space (s : string) : string :=
  match s with
  | EmptyString => EmptyString
  | String c r =>
      String (if Ascii.eqb c "+" then " "%char else c) (plus_to_space r)
  end.

Fixpoint has_percent (s : string) : bool :=
  match s with
  | EmptyString => false
  | String c r => Ascii.eqb c "%" || has_percent r
  end.

(** [s] begins with two hexadecimal digits. *)
Definition two_hex (s : string) : bool :=
  match s with
  | String h1 (String h2 _) => Url.ishex h1 && Url.ishex h2
  | _ => false
  end.

End UrlSpec.

(** ** Notions used to state properties of the ledger file *)
Module JsonSpec.
Import Utf8 StrconvParse ClientData Json.

(** Input at which a number literal ends: the end, or a byte that cannot
    continue the number. *)
Definition ends_number (rest : string) : bool :=
  match rest with
  | EmptyString => true
  | String c _ =>
      negb (is_digit c) && negb (isb c ".") && negb (isb c "e")
      && negb (isb c "E")
  end.

(** The values of an [int64]. *)
Definition int64 (v : Z) : Prop := min_int64 <= v <= max_int64.

(** The ledger as it is read back: every key coerced to UTF-8, entries
    entered in the order they were written. *)
Definition reloaded (m : gmap string Z) : gmap string Z :=
  fold_left (fun acc kv => <[coerce (fst kv) := snd kv]> acc)
    (sort_entries (map_to_list m)) ∅.

(** A state a Go program can hold: the values are [int64]. *)
Definition wf_state (state : DownloadState) : Prop :=
  forall m k v, Files state = Some m -> m !! k = Some v -> int64 v.

(** All keys are valid UTF-8. *)
Definition valid_keys (state : DownloadState) : Prop :=
  forall m k v, Files state = Some m -> m !! k = Some v -> valid k.

(** The ledger file can be opened for writing and then read: it is a
    readable and writable file, or it is missing in a writable
    directory. *)
Definition can_rewrite (f : ClientOs.fs) (path : string) : bool :=
  match ClientOs.node_at f path with
  | Some (ClientOs.File r w _) => r && w
  | Some (ClientOs.Dir _) => false
  | None =>
      negb (String.eqb path "")
      && match ClientOs.node_at f (Filepath.Dir (ClientOs.key path)) with
         | Some (ClientOs.Dir true) => true
         | _ => false
         end
  end.

(** A ledger with a key that is not valid UTF-8, and one with plain
    keys. *)
Definition bad_key : string := String (chr 0xFF) "x".

Definition bad_state : DownloadState :=
  {| Files := Some (<[bad_key := 7]> ∅) |}.

Definition plain_state : DownloadState :=
  {| Files := Some (<["a/b.txt"%string := 100]> (<["x"%string := 0]> ∅)) |}.

(** The example client with that ledger on disk, and an answer of three
    bytes. *)
Definition ledger_fs : ClientOs.fs :=
  <["state.json"%string := ClientOs.File true true (Marshal plain_state)]>
    Client.demo_fs.

Definition three_bytes : Client.Response :=
  {| Client.StatusCode := 200; Client.ContentLength := 3;
     Client.Body := "abc"; Client.BodyErr := false |}.

End JsonSpec.
(** ** The listing on the wire

  The body the /list handler sends with [c.JSON(200, gin.H{"files":
  files})], and what [json.NewDecoder(resp.Body).Decode(&result)] makes of
  a body in [downloadDirectory] and [listServerContent]. *)
Module ListingJson.
Import Utf8 StrconvParse ClientData Json.

(** One element of the handler's slice, a struct with the fields [path]
    and [size]. *)
Definition encode_record (r : Server.FileRecord) : string :=
  "{" +:+ quote "path" +:+ ":" +:+ quote (Server.Path r) +:+ ","
  +:+ quote "size" +:+ ":" +:+ Strconv.FormatInt (Server.FSize r) +:+ "}".

(** The slice: [null] while nothing has been appended to it. *)
Definition encode_records (files : list Server.FileRecord) : string :=
  match files with
  | [] => "null"
  | _ => "[" +:+ String.concat "," (List.map encode_record files) +:+ "]"
  end.

(** The body for [gin.H{"files": files}]. *)
Definition encode_listing (files : list Server.FileRecord) : string :=
  "{" +:+ quote "files" +:+ ":" +:+ encode_records files +:+ "}".

(** A struct field named [name] takes the member with key [k]: the exact
    name, else the folded one. *)
Definition key_matches (name k : string) : bool :=
  String.eqb k name || String.eqb (foldName k) (foldName name).

(** Storing a value into a string field. *)
Definition decode_string_into (cur : string) (v : value) : string * bool :=
  match v with
  | Str s => (s, false)
  | Null => (cur, false)
  | _ => (cur, true)
  end.

(** Storing a value into an [int64] field. *)
Definition decode_int64_into (cur : Z) (v : value) : Z * bool :=
  match v with
  | Number lit =>
      match ParseInt lit with
      | Some n => (n, false)
      | None => (cur, true)
      end
  | Null => (cur, false)
  | _ => (cur, true)
  end.

(** Storing a value into a [FileInfo]. *)
Definition decode_FileInfo (cur : FileInfo) (v : value) : FileInfo * bool :=
  match v with
  | Object ms =>
      fold_left
        (fun (acc : FileInfo * bool) (kv : string * value) =>
           let '(file, e) := acc in
           if key_matches "path" (fst kv) then
             let '(p, e') := decode_string_into (Path file) (snd kv) in
             ({| Path := p; Size := Size file |}, e || e')
           else if key_matches "size" (fst kv) then
             let '(n, e') := decode_int64_into (Size file) (snd kv) in
             ({| Path := Path file; Size := n |}, e || e')
           else acc)
        ms (cur, false)
  | Null => (cur, false)
  | _ => (cur, true)
  end.

Definition zero_FileInfo : FileInfo := {| Path := ""; Size := 0 |}.

(** Storing a value into the slice [result.Files], which is nil before:
    every element of an array is decoded into a new zero element. *)
Definition decode_files (cur : list FileInfo) (v : value)
  : list FileInfo * bool :=
  match v with
  | Array vs =>
      fold_left
        (fun (acc : list FileInfo * bool) (x : value) =>
           let '(file, e') := decode_FileInfo zero_FileInfo x in
           (fst acc ++ [file], snd acc || e'))
        vs ([], false)
  | Null => ([], false)
  | _ => (cur, true)
  end.

(** Storing a value into [result]. *)
Definition decode_result (v : value) : list FileInfo * bool :=
  match v with
  | Object ms =>
      fold_left
        (fun (acc : list FileInfo * bool) (kv : string * value) =>
           if key_matches "files" (fst kv) then
             let '(files, e') := decode_files (fst acc) (snd kv) in
             (files, snd acc || e')
           else acc)
        ms ([], false)
  | Null => ([], false)
  | _ => ([], true)
  end.

(** [json.NewDecoder(body).Decode(&result)]: the first JSON value of the
    body is decoded, what follows it is not looked at; [None] is the error
    result (a body that does not begin with a complete JSON value, or a
    value of the wrong type somewhere). *)
Definition Decode (body : string) : option (list FileInfo) :=
  match parse_value (S (String.length body)) 0 body with
  | None => None
  | Some (v, _) =>
      let '(files, err) := decode_result v in
      if err then None else Some files
  end.

End ListingJson.

(** ** The client: the listing request of a batch download *)
Module ClientDir.
Import ClientData Client ListingJson.

Definition list_url (cfg : Config) (dirPath : string) : string :=
  serverURL cfg +:+ "/list/" +:+ UrlEscape.PathEscape dirPath.

(** Where [downloadDirectory] stands when the listing has been dealt
    with: it has returned, or it goes on to start the workers for
    [result.Files]. *)
Inductive listing_outcome : Type :=
| ListErrNewRequest
| ListErrDo
| ListErrStatus (code : Z)
| ListErrDecode
| ListEmpty                         (* "empty or missing" *)
| ListStarted (files : list FileInfo).

(** [downloadDirectory(dirPath)] up to the creation of the channel. *)
Definition downloadDirectory_listing (cfg : Config) (net : Net)
  (dirPath : string) : listing_outcome :=
  let url := list_url cfg dirPath in
  if negb (NewRequest_ok net url) then ListErrNewRequest
  else
    match Do net url with
    | None => ListErrDo
    | Some resp =>
        if negb (StatusCode resp =? StatusOK) then
          ListErrStatus (StatusCode resp)
        else
          match Decode (Body resp) with
          | None => ListErrDecode
          | Some files =>
              if (List.length files =? 0)%nat then ListEmpty
              else ListStarted files
          end
    end.

(** The file of the client for a record of the server. *)
Definition to_FileInfo (r : Server.FileRecord) : FileInfo :=
  {| Path := Server.Path r; Size := Server.FSize r |}.

(** The answer of the server to a /list request it answers with
    [files]. *)
Definition listing_response (files : list Server.FileRecord) : Response :=
  {| StatusCode := 200; ContentLength := Strings.len (encode_listing files);
     Body := encode_listing files; BodyErr := false |}.

End ClientDir.

(** ** Notions used to state properties of the listing *)
Module ListingSpec.
Import Utf8 Json.

(** The value an element of the listing is parsed into. *)
Definition record_value (r : Server.FileRecord) : value :=
  Object [("path"%string, Str (coerce (Server.Path r)));
          ("size"%string, Number (Strconv.FormatInt (Server.FSize r)))].

(** A listing of two files, one of them below a directory. *)
Definition two_records : list Server.FileRecord :=
  [ {| Server.Path := "a"; Server.FSize := 10 |};
    {| Server.Path := "b/c"; Server.FSize := 20 |} ].

End ListingSpec.
(** * Properties of the path functions *)
Module PathFacts.
Import Strings Url Filepath ServerSpec.

Example clean_1 : Clean "/data/a/../ab/secret" = "/data/ab/secret"%string.
Proof. reflexivity. Qed.
Example clean_2 : Clean "a//b/./c/.." = "a/b"%string.
Proof. reflexivity. Qed.
Example clean_3 : Clean "../../a/../.." = "../../.."%string.
Proof. reflexivity. Qed.
Example clean_4 : Clean "/../.." = "/"%string.
Proof. reflexivity. Qed.
Example clean_5 : Clean "a/.." = "."%string.
Proof. reflexivity. Qed.
Example join_1 : Join "/data/a" "" = "/data/a"%string.
Proof. reflexivity. Qed.
Example unescape_1 : QueryUnescape "%2e%2E%2Fa+b" = Some "../a b"%string.
Proof. reflexivity. Qed.
Example unescape_2 : QueryUnescape "abc%2" = None.
Proof. reflexivity. Qed.
Example rel_1 : Rel "/data/a" "/data/a/b/c" = Some "b/c"%string.
Proof. reflexivity. Qed.
Example rel_2 : Rel "/data/a" "/data/ab/x" = Some "../ab/x"%string.
Proof. reflexivity. Qed.
Example rel_3 : Rel "/" "/a" = Some "a"%string.
Proof. reflexivity. Qed.
Example rel_4 : Rel "/a/b" "/a" = Some ".."%string.
Proof. reflexivity. Qed.
Example rel_5 : Rel "../a" "b" = None.
Proof. reflexivity. Qed.
Example rel_6 : Rel "." "a/b" = Some "a/b"%string.
Proof. reflexivity. Qed.
Example rel_7 : Rel "/a" "/a" = Some "."%string.
Proof. reflexivity. Qed.
Example rel_8 : Rel "/a" "b" = None.
Proof. reflexivity. Qed.
Example dir_1 : Dir "a/b/c.txt" = "a/b"%string.
Proof. reflexivity. Qed.
Example dir_2 : Dir "c.txt" = "."%string.
Proof. reflexivity. Qed.
Example dir_3 : Dir "/c.txt" = "/"%string.
Proof. reflexivity. Qed.
Example dir_4 : Dir "a/b/" = "a/b"%string.
Proof. reflexivity. Qed.

(** *** Splitting and joining *)

Lemma split_slash_cons_slash s :
  split_slash (String "/" s) = EmptyString :: split_slash s.
Proof. reflexivity. Qed.

Lemma split_slash_not_nil s : split_slash s <> [].
Proof.
  destruct s as [|c r]; simpl; [discriminate|].
  destruct (Ascii.eqb c "/"); [discriminate|].
  destruct (split_slash r); discriminate.
Qed.

Lemma split_slash_no_slash x : has_slash x = false -> split_slash x = [x].
Proof.
  induction x as [|c r IH]; simpl; [reflexivity|].
  intros H. apply orb_false_iff in H as [Hc Hr].
  rewrite Hc, (IH Hr). reflexivity.
Qed.

Lemma split_slash_app x r :
  has_slash x = false ->
  split_slash (x +:+ String "/" r) = x :: split_slash r.
Proof.
  induction x as [|c x IH]; simpl; [reflexivity|].
  intros H. apply orb_false_iff in H as [Hc Hr].
  rewrite Hc, (IH Hr). reflexivity.
Qed.

Lemma join_slash_cons x y l :
  join_slash (x :: y :: l) = x +:+ String "/" (join_slash (y :: l)).
Proof. reflexivity. Qed.

Lemma split_join l :
  l <> [] -> Forall (fun s => has_slash s = false) l ->
  split_slash (join_slash l) = l.
Proof.
  induction l as [|x l IH]; [congruence|].
  intros _ H. inversion H as [|? ? Hx Hl]; subst.
  destruct l as [|y l].
  - simpl. apply split_slash_no_slash, Hx.
  - rewrite join_slash_cons, split_slash_app by exact Hx.
    rewrite IH; [reflexivity|discriminate|exact Hl].
Qed.

Lemma append_cons c (a b : string) : String c a +:+ b = String c (a +:+ b).
Proof. reflexivity. Qed.

Lemma append_nil_l (b : string) : EmptyString +:+ b = b.
Proof. reflexivity. Qed.

Lemma append_assoc (a b c : string) : (a +:+ b) +:+ c = a +:+ (b +:+ c).
Proof.
  induction a as [|x a IH]; [reflexivity|].
  rewrite !append_cons, IH. reflexivity.
Qed.

Lemma join_slash_snoc l name :
  l <> [] -> join_slash (l ++ [name]) = join_slash l +:+ String "/" name.
Proof.
  induction l as [|x l IH]; [congruence|]. intros _.
  destruct l as [|y l].
  - reflexivity.
  - change ((x :: y :: l) ++ [name]) with (x :: y :: (l ++ [name])).
    rewrite !join_slash_cons.
    change (y :: l ++ [name]) with ((y :: l) ++ [name]).
    rewrite IH by discriminate.
    rewrite append_assoc, append_cons. reflexivity.
Qed.

Lemma proper_name_no_slash s : proper_name s = true -> has_slash s = false.
Proof.
  unfold proper_name. intros H.
  apply andb_true_iff in H as [_ H]. apply negb_true_iff in H. exact H.
Qed.

Lemma proper_name_inv s :
  proper_name s = true ->
  String.eqb s "" = false /\ String.eqb s "." = false
  /\ String.eqb s ".." = false /\ has_slash s = false.
Proof.
  unfold proper_name. intros H.
  repeat (apply andb_true_iff in H as [H ?]).
  repeat match goal with
         | h : negb _ = true |- _ => apply negb_true_iff in h
         end.
  auto.
Qed.

Lemma Forall_proper_no_slash l :
  Forall (fun s => proper_name s = true) l ->
  Forall (fun s => has_slash s = false) l.
Proof.
  intros H. eapply Forall_impl; [exact H|]. intros s. apply proper_name_no_slash.
Qed.

(** *** [Clean] on paths that are already clean *)

Definition blank_or_proper (s : string) : Prop :=
  s = EmptyString \/ proper_name s = true.

Lemma clean_fold_proper rooted l : forall out ups,
  Forall blank_or_proper l ->
  fold_left (clean_step rooted) l (out, ups)
  = (rev (List.filter (fun s => negb (String.eqb s "")) l) ++ out, ups).
Proof.
  induction l as [|x l IH]; intros out ups H; [reflexivity|].
  inversion H as [|? ? Hx Hl]; subst. simpl fold_left.
  destruct Hx as [->|Hx].
  - simpl. apply IH, Hl.
  - destruct (proper_name_inv _ Hx) as (H1 & H2 & H3 & _).
    rewrite H1, H2, H3.
    rewrite IH by exact Hl. simpl List.filter. rewrite H1. simpl.
    rewrite <- app_assoc. reflexivity.
Qed.

Lemma clean_elems_proper rooted l :
  Forall blank_or_proper l ->
  clean_elems rooted l = List.filter (fun s => negb (String.eqb s "")) l.
Proof.
  intros H. unfold clean_elems. rewrite clean_fold_proper by exact H.
  simpl. rewrite app_nil_r, rev_involutive. reflexivity.
Qed.

Lemma filter_proper l :
  Forall (fun s => proper_name s = true) l ->
  List.filter (fun s => negb (String.eqb s "")) l = l.
Proof.
  induction 1 as [|x l Hx Hl IH]; [reflexivity|].
  simpl. destruct (proper_name_inv _ Hx) as (-> & _). simpl.
  rewrite IH. reflexivity.
Qed.

Lemma filter_blank_cons l :
  List.filter (fun s => negb (String.eqb s "")) (EmptyString :: l)
  = List.filter (fun s => negb (String.eqb s "")) l.
Proof. reflexivity. Qed.

Lemma Forall_proper_blank l :
  Forall (fun s => proper_name s = true) l -> Forall blank_or_proper l.
Proof. intros H. eapply Forall_impl; [exact H|]. intros s Hs. right. exact Hs. Qed.

Lemma split_abs_path l :
  Forall (fun s => proper_name s = true) l ->
  split_slash (abs_path l)
  = EmptyString :: (if l is [] then [EmptyString] else l).
Proof.
  intros H. unfold abs_path. rewrite split_slash_cons_slash. f_equal.
  destruct l as [|x l]; [reflexivity|].
  apply split_join; [discriminate|]. apply Forall_proper_no_slash, H.
Qed.

Lemma Clean_abs_path l :
  Forall (fun s => proper_name s = true) l -> Clean (abs_path l) = abs_path l.
Proof.
  intros H. unfold Clean. simpl String.eqb. simpl is_rooted. cbv iota.
  rewrite split_abs_path by exact H.
  unfold abs_path. f_equal. f_equal.
  destruct l as [|x l]; [reflexivity|].
  rewrite clean_elems_proper.
  - rewrite filter_blank_cons. apply filter_proper, H.
  - constructor; [left; reflexivity|]. apply Forall_proper_blank, H.
Qed.

(** [filepath.Join] of a clean absolute path and a proper name appends the
    name as a further element. *)
Lemma Join_abs_path l name :
  Forall (fun s => proper_name s = true) l -> proper_name name = true ->
  Join (abs_path l) name = abs_path (l ++ [name]).
Proof.
  intros Hl Hn. unfold Join. simpl String.eqb. simpl negb. cbv iota.
  assert (Hcat : abs_path l +:+ "/" +:+ name
                 = String "/" (join_slash ((if l is [] then [EmptyString] else l)
                                             ++ [name]))).
  { unfold abs_path. simpl. f_equal.
    destruct l as [|x l]; [reflexivity|].
    rewrite join_slash_snoc by discriminate. reflexivity. }
  rewrite Hcat. unfold Clean. simpl String.eqb. simpl is_rooted. cbv iota.
  rewrite split_slash_cons_slash.
  rewrite split_join.
  - unfold abs_path. f_equal. f_equal.
    rewrite clean_elems_proper.
    + rewrite filter_blank_cons. destruct l as [|x l].
      * simpl. destruct (proper_name_inv _ Hn) as (-> & _). reflexivity.
      * apply filter_proper. apply Forall_app. split; [exact Hl|].
        constructor; [exact Hn|constructor].
    + constructor; [left; reflexivity|].
      apply Forall_app. split.
      * destruct l; [constructor; [left; reflexivity|constructor]|].
        apply Forall_proper_blank, Hl.
      * constructor; [right; exact Hn|constructor].
  - destruct l; discriminate.
  - apply Forall_app. split.
    + destruct l; [constructor; [reflexivity|constructor]|].
      apply Forall_proper_no_slash, Hl.
    + constructor; [apply proper_name_no_slash, Hn|constructor].
Qed.

(** *** [Rel] of a path below its base *)

Lemma rel_elems_abs_path l :
  Forall (fun s => proper_name s = true) l ->
  rel_elems (abs_path l) = EmptyString :: l.
Proof.
  intros H. unfold rel_elems. simpl String.eqb. cbv iota.
  rewrite split_abs_path by exact H.
  destruct l as [|x l]; [reflexivity|].
  destruct (rev (EmptyString :: x :: l)) as [|z [|y w]] eqn:E;
    try reflexivity.
  assert (Hz : In z (x :: l)).
  { change (EmptyString :: x :: l) with ([EmptyString] ++ (x :: l)) in E.
    rewrite rev_app_distr in E.
    destruct (rev (x :: l)) as [|z' w'] eqn:E2.
    - apply (f_equal (@List.length _)) in E2.
      rewrite length_rev in E2. discriminate.
    - simpl in E. injection E as <- _.
      apply in_rev. rewrite E2. left. reflexivity. }
  rewrite List.Forall_forall in H. apply H in Hz.
  destruct (proper_name_inv _ Hz) as (-> & _). reflexivity.
Qed.

Lemma strip_common_app l t : strip_common l (l ++ t) = ([], t).
Proof.
  induction l as [|x l IH]; simpl.
  - destruct t; reflexivity.
  - rewrite String.eqb_refl. exact IH.
Qed.

Lemma abs_path_app_neq rs ss :
  Forall (fun s => proper_name s = true) rs ->
  Forall (fun s => proper_name s = true) ss ->
  ss <> [] -> abs_path (rs ++ ss) <> abs_path rs.
Proof.
  intros Hr Hs Hne Heq. apply (f_equal rel_elems) in Heq.
  rewrite !rel_elems_abs_path in Heq;
    [|exact Hr|apply Forall_app; split; assumption].
  injection Heq as Heq. rewrite <- (app_nil_r rs) in Heq at 2.
  apply app_inv_head in Heq. contradiction.
Qed.

Lemma Rel_abs_path rs ss :
  Forall (fun s => proper_name s = true) rs ->
  Forall (fun s => proper_name s = true) ss ->
  ss <> [] ->
  Rel (abs_path rs) (abs_path (rs ++ ss)) = Some (join_slash ss).
Proof.
  intros Hr Hs Hne.
  assert (Hrs : Forall (fun s => proper_name s = true) (rs ++ ss))
    by (apply Forall_app; split; assumption).
  unfold Rel. rewrite !Clean_abs_path by assumption.
  destruct (String.eqb_spec (abs_path (rs ++ ss)) (abs_path rs)) as [E|_].
  { exfalso. exact (abs_path_app_neq rs ss Hr Hs Hne E). }
  change (String.eqb (abs_path rs) ".") with false. cbv iota.
  change (is_rooted (abs_path rs)) with true.
  change (is_rooted (abs_path (rs ++ ss))) with true.
  simpl negb. cbv iota.
  rewrite !rel_elems_abs_path by assumption.
  change (EmptyString :: rs ++ ss) with ((EmptyString :: rs) ++ ss).
  rewrite strip_common_app. reflexivity.
Qed.

(** *** The prefix test *)

Lemma HasPrefix_app a b : HasPrefix (a +:+ b) a = true.
Proof.
  induction a as [|c a IH]; [reflexivity|].
  rewrite append_cons. simpl. rewrite Ascii.eqb_refl. exact IH.
Qed.

Lemma HasPrefix_refl a : HasPrefix a a = true.
Proof.
  induction a as [|c a IH]; [reflexivity|].
  simpl. rewrite Ascii.eqb_refl. exact IH.
Qed.

Lemma join_slash_app l1 l2 :
  l1 <> [] -> l2 <> [] ->
  join_slash (l1 ++ l2) = join_slash l1 +:+ String "/" (join_slash l2).
Proof.
  induction l1 as [|x l1 IH]; [congruence|]. intros _ H2.
  destruct l1 as [|y l1].
  - destruct l2 as [|z l2]; [congruence|]. reflexivity.
  - change ((x :: y :: l1) ++ l2) with (x :: y :: (l1 ++ l2)).
    rewrite !join_slash_cons.
    change (y :: l1 ++ l2) with ((y :: l1) ++ l2).
    rewrite IH by (discriminate || assumption).
    rewrite append_assoc, append_cons. reflexivity.
Qed.

Lemma HasPrefix_abs_path rs ds :
  HasPrefix (abs_path (rs ++ ds)) (abs_path rs) = true.
Proof.
  destruct ds as [|d ds].
  - rewrite app_nil_r. apply HasPrefix_refl.
  - destruct rs as [|r rs]; [reflexivity|].
    unfold abs_path. rewrite join_slash_app by discriminate.
    simpl. apply HasPrefix_app.
Qed.

End PathFacts.

(** * The server handlers *)
Module ServerFacts.
Import Strings Url Filepath Strconv Os Walker Server ServerSpec PathFacts.

(** What both handlers do with a path that unescapes: 403 exactly when the
    joined path does not have the root as a string prefix. *)
Lemma download_forbidden_iff absPath fs param filePath decoded :
  slice_from_1 param = Some filePath ->
  QueryUnescape filePath = Some decoded ->
  download_handler absPath fs param = JSONError StatusForbidden AccessDenied
  <-> HasPrefix (Join absPath decoded) absPath = false.
Proof.
  intros Hs Hq. unfold download_handler. rewrite Hs, Hq.
  destruct (HasPrefix (Join absPath decoded) absPath) eqn:Hp; simpl.
  - split; [|discriminate].
    destruct (Stat fs (Join absPath decoded)) as [info|]; [|discriminate].
    destruct (IsDir info); [discriminate|].
    unfold ServeFile.
    destruct (node_at fs (Join absPath decoded)) as [[]|]; discriminate.
  - split; reflexivity.
Qed.

Lemma list_forbidden_iff absPath fs param dirPath decoded :
  slice_from_1 param = Some dirPath ->
  QueryUnescape dirPath = Some decoded ->
  list_handler absPath fs param = JSONError StatusForbidden AccessDenied
  <-> HasPrefix (Join absPath decoded) absPath = false.
Proof.
  intros Hs Hq. unfold list_handler. rewrite Hs, Hq.
  destruct (HasPrefix (Join absPath decoded) absPath) eqn:Hp; simpl.
  - split; [|discriminate].
    destruct (Stat fs (Join absPath decoded)) as [info|]; [|discriminate].
    destruct (IsDir info); simpl; [|discriminate].
    destruct (Walk _ _ _ _) as [files [e|]]; discriminate.
  - split; reflexivity.
Qed.

(** C1 (the code departs from the claim).  With root [/data/a], the
    requests [/download/%2e%2e/ab/secret] and [/list/%2e%2e/ab] resolve to
    [/data/ab/secret] and [/data/ab], which the separator-terminated rule
    places outside the root; the handlers' plain prefix test lets both
    through, and they answer 200 with the sibling directory's data instead
    of 403. *)
Theorem C1_sibling_directory_admitted :
  Join "/data/a" "../ab/secret" = "/data/ab/secret"%string
  /\ contained "/data/a" "/data/ab/secret" = false
  /\ contained "/data/a" "/data/ab" = false
  /\ download_handler "/data/a" sibling_fs "/%2e%2e/ab/secret"
     = Served StatusOK "10" "top secret"
  /\ list_handler "/data/a" sibling_fs "/%2e%2e/ab"
     = JSONFiles StatusOK [ {| Path := "../ab/secret"; FSize := 10 |} ].
Proof. repeat split; vm_compute; reflexivity. Qed.



(** *** The listing walk *)

(** Induction over the tree, with the hypothesis available for every entry
    of a directory. *)
Lemma node_nested_ind (P : node -> Prop)
  (Hfile : forall data, P (File data))
  (Hdir : forall r es, Forall (fun p => P (snd p)) es -> P (Folder r es))
  (Hgone : P Gone) :
  forall n, P n.
Proof.
  fix IH 1. intros [data|r es|]; [apply Hfile| |apply Hgone].
  apply Hdir. induction es as [|[name c] es IHes]; constructor.
  - apply IH.
  - exact IHes.
Qed.

Lemma walk_Folder {St} (fn : @WalkFunc St) path r es st :
  walk fn path (Folder r es) st
  = let err := if r then None else Some (ErrReadDir path) in
    let '(st1, err1) := fn path (lstat (Folder r es)) err st in
    match err, err1 with
    | None, None => walk_entries fn path es st1
    | _, _ => (st1, err1)
    end.
Proof. reflexivity. Qed.

Lemma walk_entries_cons {St} (fn : @WalkFunc St) path name child rest st :
  walk_entries fn path ((name, child) :: rest) st
  = let filename := Join path name in
    match lstat child with
    | None =>
        let '(st', e) := fn filename None (Some (ErrLstat filename)) st in
        match e with
        | Some e' =>
            if negb (is_SkipDir e') then (st', Some e')
            else walk_entries fn path rest st'
        | None => walk_entries fn path rest st'
        end
    | Some fileInfo =>
        let '(st', e) := walk fn filename child st in
        match e with
        | Some e' =>
            if negb (IsDir fileInfo) || negb (is_SkipDir e')
            then (st', Some e')
            else walk_entries fn path rest st'
        | None => walk_entries fn path rest st'
        end
    end.
Proof. reflexivity. Qed.

(** The outcome of the walk that the listing expects at a node: all the
    files below it appended on a healthy subtree, an error that is neither
    [SkipDir] nor [SkipAll] otherwise. *)
Definition walk_outcome (rs es : list string) (n : node)
  (files : list FileRecord) (r : list FileRecord * option error) : Prop :=
  if healthy n then r = (files ++ files_of es n, None)
  else exists fl e,
      r = (fl, Some e) /\ is_SkipDir e = false /\ is_SkipAll e = false.

(** The statement proved of every node by induction over the tree. *)
Definition walk_ok (rs : list string) (n : node) : Prop :=
  forall es files,
    wf_node n = true -> lstat n <> None ->
    (forall data, n = File data -> es <> []) ->
    Forall (fun s => proper_name s = true) es ->
    walk_outcome rs es n files
      (walk (list_walk_fn (abs_path rs)) (abs_path (rs ++ es)) n files).

Lemma list_walk_fn_dir absPath path sz files :
  list_walk_fn absPath path (Some {| IsDir := true; Size := sz |}) None files
  = (files, None).
Proof. reflexivity. Qed.

Lemma list_walk_fn_err absPath path info e files :
  list_walk_fn absPath path info (Some e) files = (files, Some e).
Proof. reflexivity. Qed.

Lemma walk_entries_list_spec rs es ents :
  Forall (fun s => proper_name s = true) rs ->
  Forall (fun s => proper_name s = true) es ->
  Forall (fun p => walk_ok rs (snd p)) ents ->
  forallb (fun p => proper_name (fst p) && wf_node (snd p)) ents = true ->
  forall files,
    let r := walk_entries (list_walk_fn (abs_path rs)) (abs_path (rs ++ es))
               ents files in
    if forallb (fun p => healthy (snd p)) ents then
      r = (files ++ flat_map (fun p => files_of (es ++ [fst p]) (snd p)) ents,
           None)
    else exists fl e,
        r = (fl, Some e) /\ is_SkipDir e = false /\ is_SkipAll e = false.
Proof.
  intros Hrs Hes.
  induction ents as [|[name child] rest IHrest]; intros IH Hwf files r;
    subst r.
  - simpl. rewrite app_nil_r. reflexivity.
  - inversion IH as [|? ? IHc IHr]; subst. simpl in IHc.
    simpl in Hwf. apply andb_true_iff in Hwf as [Hc Hrest].
    apply andb_true_iff in Hc as [Hname Hcwf].
    specialize (IHrest IHr Hrest).
    rewrite walk_entries_cons. cbv zeta.
    assert (Hrse : Forall (fun s => proper_name s = true) (rs ++ es))
      by (apply Forall_app; split; assumption).
    rewrite Join_abs_path by assumption. rewrite <- app_assoc.
    simpl forallb.
    destruct (lstat child) as [info|] eqn:Hl.
    + assert (Hes' : Forall (fun s => proper_name s = true) (es ++ [name])).
      { apply Forall_app. split; [exact Hes|].
        constructor; [exact Hname|constructor]. }
      assert (Hne : forall data, child = File data -> es ++ [name] <> []).
      { intros _ _ E. apply app_eq_nil in E as [_ E]. discriminate. }
      assert (Hl' : lstat child <> None) by (rewrite Hl; discriminate).
      specialize (IHc (es ++ [name]) files Hcwf Hl' Hne Hes').
      unfold walk_outcome in IHc.
      destruct (healthy child) eqn:Hh.
      * rewrite IHc. simpl andb.
        specialize (IHrest (files ++ files_of (es ++ [name]) child)).
        cbv zeta in IHrest.
        destruct (forallb (fun p => healthy (snd p)) rest) eqn:Hr.
        -- rewrite IHrest. simpl flat_map.
           rewrite <- app_assoc. reflexivity.
        -- exact IHrest.
      * simpl andb. destruct IHc as (fl & e & -> & Hsd & Hsa).
        rewrite Hsd. rewrite orb_true_r. eauto.
    + destruct child; try discriminate. simpl andb.
      rewrite list_walk_fn_err. simpl. eauto.
Qed.

Lemma walk_list_spec rs :
  Forall (fun s => proper_name s = true) rs -> forall n, walk_ok rs n.
Proof.
  intros Hrs.
  induction n as [data|r ents IH|] using node_nested_ind;
    intros es files Hwf Hst Hfile Hes; unfold walk_outcome.
  - (* a file: one record, relative to the root *)
    simpl. rewrite Rel_abs_path by (eauto). reflexivity.
  - (* a directory *)
    rewrite walk_Folder. destruct r; simpl healthy; simpl lstat; cbv zeta.
    + (* readable: no record for the directory itself, then its entries *)
      rewrite list_walk_fn_dir.
      exact (walk_entries_list_spec rs es ents Hrs Hes IH Hwf files).
    + (* unreadable: the read error is handed back *)
      rewrite list_walk_fn_err. eauto.
  - exfalso. apply Hst. reflexivity.
Qed.

Lemma lookup_entry_wf name es child :
  forallb (fun p => proper_name (fst p) && wf_node (snd p)) es = true ->
  lookup_entry name es = Some child -> wf_node child = true.
Proof.
  induction es as [|[n x] es IH]; simpl; [discriminate|].
  intros H. apply andb_true_iff in H as [Hx Hes].
  apply andb_true_iff in Hx as [_ Hx].
  destruct (String.eqb n name).
  - intros [= <-]. exact Hx.
  - apply IH, Hes.
Qed.

Lemma resolve_wf elems : forall anc cur n,
  Forall (fun a => wf_node a = true) anc -> wf_node cur = true ->
  resolve anc cur elems = Some n -> wf_node n = true.
Proof.
  induction elems as [|e rest IH]; intros anc cur n Hanc Hcur; simpl.
  - intros [= <-]. exact Hcur.
  - destruct (String.eqb e ""); [apply IH; assumption|].
    destruct cur as [data|r es|]; try discriminate.
    destruct (String.eqb e "."); [apply IH; assumption|].
    destruct (String.eqb e "..").
    + destruct anc as [|p anc']; [apply IH; assumption|].
      inversion Hanc; subst. apply IH; assumption.
    + destruct (lookup_entry e es) as [child|] eqn:Hl; [|discriminate].
      apply IH.
      * constructor; assumption.
      * simpl in Hcur. exact (lookup_entry_wf _ _ _ Hcur Hl).
Qed.

(** C4.  /list on a directory below the root: one record per non-directory
    entry of the walked subtree, its path relative to the configured root
    and its size as the walk saw it, nothing for directories; 404 when the
    resolved path does not exist, 400 when it is not a directory, and 500
    without any records when the walk meets an I/O error. *)
Theorem C4_list_outcomes rs ds fs param dirPath decoded :
  Forall (fun s => proper_name s = true) rs ->
  Forall (fun s => proper_name s = true) ds ->
  wf_node fs = true ->
  slice_from_1 param = Some dirPath ->
  QueryUnescape dirPath = Some decoded ->
  Join (abs_path rs) decoded = abs_path (rs ++ ds) ->
  match node_at fs (abs_path (rs ++ ds)) with
  | None | Some Gone =>
      list_handler (abs_path rs) fs param = JSONError StatusNotFound DirNotFound
  | Some (File _) =>
      list_handler (abs_path rs) fs param
      = JSONError StatusBadRequest NotADirectory
  | Some (Folder r es) =>
      if healthy (Folder r es) then
        list_handler (abs_path rs) fs param
        = JSONFiles StatusOK (files_of ds (Folder r es))
      else
        exists e, list_handler (abs_path rs) fs param
                  = JSONError StatusInternalServerError (WalkFailed e)
  end.
Proof.
  intros Hrs Hds Hwf Hs Hq Hj. unfold list_handler.
  rewrite Hs, Hq. cbv zeta. rewrite Hj, HasPrefix_abs_path. simpl negb.
  cbv iota. unfold Stat, Walk.
  destruct (node_at fs (abs_path (rs ++ ds))) as [n|] eqn:Hn; [|reflexivity].
  assert (Hnwf : wf_node n = true).
  { unfold node_at in Hn. eapply resolve_wf; [constructor|exact Hwf|exact Hn]. }
  destruct n as [data|r es|]; try reflexivity.
  simpl lstat. simpl IsDir. simpl negb. cbv iota.
  pose proof (walk_list_spec rs Hrs (Folder r es) ds [] Hnwf) as Hw.
  unfold walk_outcome in Hw.
  destruct (healthy (Folder r es)).
  - rewrite Hw; [reflexivity|discriminate|discriminate|exact Hds].
  - destruct Hw as (fl & e & -> & Hsd & Hsa);
      [discriminate|discriminate|exact Hds|].
    rewrite Hsd, Hsa. simpl. eauto.
Qed.

Lemma C4_list_outcomes_witness :
  list_handler "/srv" listing_fs "/"
  = JSONFiles StatusOK [ {| Path := "a"; FSize := 10 |};
                         {| Path := "b/c"; FSize := 20 |} ]
  /\ list_handler "/srv" listing_fs "/b"
     = JSONFiles StatusOK [ {| Path := "b/c"; FSize := 20 |} ]
  /\ list_handler "/srv" listing_fs "/nonexistent"
     = JSONError StatusNotFound DirNotFound
  /\ list_handler "/srv" listing_fs "/a"
     = JSONError StatusBadRequest NotADirectory.
Proof.
  assert (Hsrv : Forall (fun s => proper_name s = true) ["srv"%string])
    by (repeat constructor).
  pose proof (C4_list_outcomes ["srv"%string] [] listing_fs "/" "" ""
                Hsrv ltac:(constructor) eq_refl eq_refl eq_refl eq_refl) as H1.
  pose proof (C4_list_outcomes ["srv"%string] ["b"%string] listing_fs "/b" "b"
                "b" Hsrv ltac:(repeat constructor) eq_refl eq_refl eq_refl
                eq_refl) as H2.
  pose proof (C4_list_outcomes ["srv"%string] ["nonexistent"%string]
                listing_fs "/nonexistent" "nonexistent" "nonexistent" Hsrv
                ltac:(repeat constructor) eq_refl eq_refl eq_refl eq_refl)
    as H3.
  pose proof (C4_list_outcomes ["srv"%string] ["a"%string] listing_fs "/a" "a"
                "a" Hsrv ltac:(repeat constructor) eq_refl eq_refl eq_refl
                eq_refl) as H4.
  split; [exact H1|split; [exact H2|split; [exact H3|exact H4]]].
Defined.

(** An unreadable directory anywhere below the queried one fails the whole
    listing. *)
Example list_io_error :
  list_handler "/srv"
    (Folder true
       [("srv"%string,
         Folder true [("a"%string, File "x");
                      ("locked"%string, Folder false [])])]) "/"
  = JSONError StatusInternalServerError (WalkFailed (ErrReadDir "/srv/locked")).
Proof. reflexivity. Qed.

End ServerFacts.
(** * The ledger file format: what is written is read back *)
Module JsonFacts.
Import Strings Utf8 StrconvParse ClientData Json PathFacts.

(** *** Bytes *)

Lemma chr_byte c : chr (byte c) = c.
Proof. apply ascii_N_embedding. Qed.

Lemma byte_lt_256 c : (byte c < 256)%N.
Proof. apply N_ascii_bounded. Qed.

Lemma isb_byte c d : isb c d = (byte c =? byte d)%N.
Proof.
  unfold isb. destruct (Ascii.eqb_spec c d) as [->|Hne].
  - symmetry. apply N.eqb_refl.
  - symmetry. apply N.eqb_neq. intros H. apply Hne.
    rewrite <- (chr_byte c), <- (chr_byte d), H. reflexivity.
Qed.

(** Turns the comparisons on [N] in the goal and the hypotheses into
    propositions, for [lia]. *)
Ltac nbool :=
  repeat match goal with
         | H : context [(?a <? ?b)%N] |- _ => destruct (N.ltb_spec a b)
         | H : context [(?a <=? ?b)%N] |- _ => destruct (N.leb_spec a b)
         | H : context [(?a =? ?b)%N] |- _ => destruct (N.eqb_spec a b)
         | |- context [(?a <? ?b)%N] => destruct (N.ltb_spec a b)
         | |- context [(?a <=? ?b)%N] => destruct (N.leb_spec a b)
         | |- context [(?a =? ?b)%N] => destruct (N.eqb_spec a b)
         end.

Lemma take_0 s : take s 0 = EmptyString.
Proof. destruct s; reflexivity. Qed.

Lemma skip_0 s : skip s 0 = s.
Proof. destruct s; reflexivity. Qed.

(** *** One step of [scan_string] *)

Lemma scan_quote r : scan_string (String dquote r) = Some (EmptyString, r).
Proof. reflexivity. Qed.

Lemma scan_plain c r :
  (0x20 <=? byte c)%N = true -> (byte c <? RuneSelf)%N = true ->
  (byte c =? 0x22)%N = false -> (byte c =? 0x5C)%N = false ->
  scan_string (String c r) = prepend (String c EmptyString) (scan_string r).
Proof.
  intros H1 H2 H3 H4. simpl scan_string.
  rewrite !isb_byte.
  change (byte dquote) with 0x22%N. change (byte "\") with 0x5C%N.
  rewrite H3, H4, H2.
  replace (byte c <? 32)%N with false
    by (symmetry; apply N.ltb_ge; apply N.leb_le; exact H1).
  reflexivity.
Qed.

Lemma scan_simple e d r :
  simple_escape e = Some d ->
  scan_string (String "\" (String e r))
  = prepend (String d EmptyString) (scan_string r).
Proof. intros H. simpl scan_string. rewrite H. reflexivity. Qed.

Lemma scan_u r rr :
  hex4 r = Some rr -> is_surrogate rr = false ->
  scan_string (String "\" (String "u" r))
  = prepend (EncodeRune rr) (scan_string (skip r 4)).
Proof.
  intros H1 H2. simpl scan_string. rewrite H1, H2. reflexivity.
Qed.

Lemma scan_rune c r :
  (byte c <? RuneSelf)%N = false ->
  scan_string (String c r)
  = prepend (EncodeRune (fst (DecodeRune (String c r))))
      (scan_string (skip r (snd (DecodeRune (String c r)) - 1))).
Proof.
  intros H. unfold RuneSelf in H. apply N.ltb_ge in H.
  change (scan_string (String c r))
    with (if isb c dquote then Some (EmptyString, r)
          else if (byte c <? 0x20)%N then None
          else if isb c "\" then
            match r with
            | EmptyString => None
            | String e r1 =>
                match simple_escape e with
                | Some d => prepend (String d EmptyString) (scan_string r1)
                | None =>
                    if isb e "u" then
                      match hex4 r1 with
                      | None => None
                      | Some rr =>
                          if is_surrogate rr then
                            match getu4 (skip r1 4) with
                            | Some rr1 =>
                                let dec := utf16_DecodeRune rr rr1 in
                                if negb (dec =? RuneError)%N then
                                  prepend (EncodeRune dec)
                                    (scan_string (skip r1 10))
                                else
                                  prepend (EncodeRune RuneError)
                                    (scan_string (skip r1 4))
                            | None =>
                                prepend (EncodeRune RuneError)
                                  (scan_string (skip r1 4))
                            end
                          else prepend (EncodeRune rr) (scan_string (skip r1 4))
                      end
                    else None
                end
            end
          else if (byte c <? RuneSelf)%N then
            prepend (String c EmptyString) (scan_string r)
          else
            let '(rr, size) := DecodeRune (String c r) in
            prepend (EncodeRune rr) (scan_string (skip r (size - 1)))).
  rewrite !isb_byte.
  change (byte dquote) with 0x22%N. change (byte "\") with 0x5C%N.
  unfold RuneSelf.
  replace (byte c =? 34)%N with false by (symmetry; apply N.eqb_neq; lia).
  replace (byte c =? 92)%N with false by (symmetry; apply N.eqb_neq; lia).
  replace (byte c <? 32)%N with false by (symmetry; apply N.ltb_ge; lia).
  replace (byte c <? 128)%N with false by (symmetry; apply N.ltb_ge; lia).
  destruct (DecodeRune (String c r)) as [rr size]. reflexivity.
Qed.

(** *** ASCII bytes written with an escape *)

Lemma nibble_cases n :
  (n < 16)%N ->
  n = 0%N \/ n = 1%N \/ n = 2%N \/ n = 3%N \/ n = 4%N \/ n = 5%N \/ n = 6%N
  \/ n = 7%N \/ n = 8%N \/ n = 9%N \/ n = 10%N \/ n = 11%N \/ n = 12%N
  \/ n = 13%N \/ n = 14%N \/ n = 15%N.
Proof. lia. Qed.

Lemma hex_val_hex_digit n : (n < 16)%N -> hex_val (hex_digit n) = Some n.
Proof.
  intros H. pose proof (nibble_cases n H) as Hc.
  repeat (destruct Hc as [->|Hc]; [reflexivity|]). subst n. reflexivity.
Qed.

Lemma high_nibble b : (b < 256)%N -> (N.shiftr b 4 < 16)%N.
Proof.
  intros H. rewrite N.shiftr_div_pow2. change (2 ^ 4)%N with 16%N.
  apply N.Div0.div_lt_upper_bound. exact H.
Qed.

Lemma low_nibble b : (N.land b 0xF < 16)%N.
Proof.
  change 0xF%N with (N.ones 4). rewrite N.land_ones.
  apply N.mod_lt. discriminate.
Qed.

Lemma nibbles b : (N.shiftr b 4 * 16 + N.land b 0xF = b)%N.
Proof.
  change 0xF%N with (N.ones 4). rewrite N.land_ones, N.shiftr_div_pow2.
  change (2 ^ 4)%N with 16%N. rewrite N.mul_comm. symmetry.
  apply N.div_mod. discriminate.
Qed.

Lemma EncodeRune_ascii c :
  (byte c <? RuneSelf)%N = true -> EncodeRune (byte c) = String c EmptyString.
Proof.
  intros H. unfold RuneSelf in H. apply N.ltb_lt in H. unfold EncodeRune.
  replace (byte c <=? 127)%N with true by (symmetry; apply N.leb_le; lia).
  simpl. rewrite chr_byte. reflexivity.
Qed.

Lemma byte_eq c n : byte c = n -> c = chr n.
Proof. intros <-. symmetry. apply chr_byte. Qed.

Lemma scan_escape c X :
  (byte c <? RuneSelf)%N = true -> html_safe (byte c) = false ->
  scan_string (escape_ascii c +:+ X)
  = prepend (String c EmptyString) (scan_string X).
Proof.
  intros Hlt Hs. unfold escape_ascii. cbv zeta.
  destruct ((byte c =? 0x5C)%N || (byte c =? 0x22)%N) eqn:H1.
  { rewrite append_cons, append_cons, append_nil_l.
    apply scan_simple. unfold simple_escape. rewrite !isb_byte.
    change (byte dquote) with 0x22%N. change (byte "\") with 0x5C%N.
    rewrite (orb_comm (byte c =? 34)%N), H1. reflexivity. }
  destruct (byte c =? 8)%N eqn:H2.
  { apply N.eqb_eq, byte_eq in H2. subst c. reflexivity. }
  destruct (byte c =? 12)%N eqn:H3.
  { apply N.eqb_eq, byte_eq in H3. subst c. reflexivity. }
  destruct (byte c =? 10)%N eqn:H4.
  { apply N.eqb_eq, byte_eq in H4. subst c. reflexivity. }
  destruct (byte c =? 13)%N eqn:H5.
  { apply N.eqb_eq, byte_eq in H5. subst c. reflexivity. }
  destruct (byte c =? 9)%N eqn:H6.
  { apply N.eqb_eq, byte_eq in H6. subst c. reflexivity. }
  rewrite append_assoc, !append_cons, !append_nil_l.
  set (h1 := hex_digit (N.shiftr (byte c) 4)).
  set (h2 := hex_digit (N.land (byte c) 15)).
  rewrite (scan_u _ (byte c)).
  - rewrite (EncodeRune_ascii c Hlt). simpl skip. rewrite skip_0.
    reflexivity.
  - unfold hex4. change (hex_val "0") with (Some 0%N). subst h1 h2.
    rewrite (hex_val_hex_digit _ (high_nibble _ (byte_lt_256 c))).
    rewrite (hex_val_hex_digit _ (low_nibble (byte c))).
    f_equal. change ((0 * 16 + 0) * 16)%N with 0%N. rewrite N.add_0_l.
    apply nibbles.
  - unfold is_surrogate. unfold RuneSelf in Hlt. apply N.ltb_lt in Hlt.
    replace (55296 <=? byte c)%N with false
      by (symmetry; apply N.leb_gt; lia).
    reflexivity.
Qed.

Lemma scan_safe c X :
  (byte c <? RuneSelf)%N = true -> html_safe (byte c) = true ->
  scan_string (String c X) = prepend (String c EmptyString) (scan_string X).
Proof.
  intros Hlt Hs. unfold html_safe in Hs.
  apply andb_true_iff in Hs as (Hs & Hn).
  apply andb_true_iff in Hs as (H20 & _).
  apply negb_true_iff in Hn.
  repeat (apply orb_false_iff in Hn as (Hn & ?)).
  apply scan_plain; assumption.
Qed.

(** *** Runes of several bytes *)

Lemma first_size p0 sz lo hi :
  first p0 = Some (sz, lo, hi) -> sz = 2%nat \/ sz = 3%nat \/ sz = 4%nat.
Proof.
  unfold first. intros H.
  repeat match type of H with
         | (if ?b then _ else _) = _ => destruct b
         end;
    injection H as <- _ _ || discriminate H; auto.
Qed.

(** [DecodeRune] looks at the first four bytes at most. *)
Lemma DecodeRune_take4 s : DecodeRune (take s 4) = DecodeRune s.
Proof.
  destruct s as [|c0 [|c1 [|c2 [|c3 r]]]]; try reflexivity.
  simpl take. rewrite take_0. unfold DecodeRune.
  destruct (byte c0 <? RuneSelf)%N; [reflexivity|].
  destruct (first (byte c0)) as [[[sz lo] hi]|] eqn:Hf; [|reflexivity].
  destruct (first_size _ _ _ _ Hf) as [->|[->| ->]]; reflexivity.
Qed.

(** A byte outside ASCII either is given up as an error and read as one
    byte, or opens a sequence of two to four bytes that is decoded the same
    whatever follows it. *)
Lemma DecodeRune_cases c0 r0 :
  (byte c0 <? RuneSelf)%N = false ->
  (DecodeRune (String c0 r0) = (RuneError, 1%nat))
  \/ (exists c size,
        DecodeRune (String c0 r0) = (c, size)
        /\ (2 <= size)%nat
        /\ (size - 1 <= String.length r0)%nat
        /\ forall Y,
             DecodeRune (String c0 (take r0 (size - 1) +:+ Y)) = (c, size)).
Proof.
  intros Hge. unfold DecodeRune at 1 2. rewrite Hge. cbv zeta.
  destruct (first (byte c0)) as [[[sz lo] hi]|] eqn:Hf; [|left; reflexivity].
  assert (Hdec : forall Z,
            DecodeRune (String c0 Z)
            = if (String.length (String c0 Z) <? sz)%nat
              then (RuneError, 1%nat)
              else
                match Z with
                | EmptyString => (RuneError, 1%nat)
                | String c1 p2 =>
                    let b1 := byte c1 in
                    if ((b1 <? lo) || (hi <? b1))%N then (RuneError, 1%nat)
                    else if (sz <=? 2)%nat then
                      (N.lor (N.shiftl (N.land (byte c0) 0x1F) 6)
                         (N.land b1 0x3F), 2%nat)
                    else
                      match p2 with
                      | EmptyString => (RuneError, 1%nat)
                      | String c2 p3 =>
                          let b2 := byte c2 in
                          if negb (cont b2) then (RuneError, 1%nat)
                          else if (sz <=? 3)%nat then
                            (N.lor (N.shiftl (N.land (byte c0) 0x0F) 12)
                               (N.lor (N.shiftl (N.land b1 0x3F) 6)
                                  (N.land b2 0x3F)), 3%nat)
                          else
                            match p3 with
                            | EmptyString => (RuneError, 1%nat)
                            | String c3 _ =>
                                let b3 := byte c3 in
                                if negb (cont b3) then (RuneError, 1%nat)
                                else
                                  (N.lor (N.shiftl (N.land (byte c0) 0x07) 18)
                                     (N.lor (N.shiftl (N.land b1 0x3F) 12)
                                        (N.lor (N.shiftl (N.land b2 0x3F) 6)
                                           (N.land b3 0x3F))), 4%nat)
                            end
                      end
                end).
  { intros Z. unfold DecodeRune. rewrite Hge, Hf. reflexivity. }
  destruct (first_size _ _ _ _ Hf) as [->|[->| ->]].
  - (* two bytes *)
    destruct r0 as [|c1 r1]; [left; reflexivity|].
    change (String.length (String c0 (String c1 r1)) <? 2)%nat with false.
    cbv iota zeta.
    destruct ((byte c1 <? lo) || (hi <? byte c1))%N eqn:H1;
      [left; reflexivity|].
    right. eexists _, 2%nat.
    split; [reflexivity|]. split; [lia|]. split; [simpl; lia|].
    intros Y. rewrite Hdec. simpl take. rewrite take_0, append_cons.
    change (String.length (String c0 (String c1 (EmptyString +:+ Y))) <? 2)%nat
      with false.
    cbv iota zeta. rewrite H1. reflexivity.
  - (* three bytes *)
    destruct r0 as [|c1 [|c2 r2]]; try (left; reflexivity).
    change (String.length (String c0 (String c1 (String c2 r2))) <? 3)%nat
      with false.
    cbv iota zeta.
    destruct ((byte c1 <? lo) || (hi <? byte c1))%N eqn:H1;
      [left; reflexivity|].
    change (3 <=? 2)%nat with false. cbv iota.
    destruct (negb (cont (byte c2))) eqn:H2; [left; reflexivity|].
    right. eexists _, 3%nat.
    split; [reflexivity|]. split; [lia|]. split; [simpl; lia|].
    intros Y. rewrite Hdec. simpl take. rewrite take_0, !append_cons.
    change (String.length
              (String c0 (String c1 (String c2 (EmptyString +:+ Y)))) <? 3)%nat
      with false.
    cbv iota zeta. rewrite H1. change (3 <=? 2)%nat with false. cbv iota.
    rewrite H2. reflexivity.
  - (* four bytes *)
    destruct r0 as [|c1 [|c2 [|c3 r3]]]; try (left; reflexivity).
    change (String.length
              (String c0 (String c1 (String c2 (String c3 r3)))) <? 4)%nat
      with false.
    cbv iota zeta.
    destruct ((byte c1 <? lo) || (hi <? byte c1))%N eqn:H1;
      [left; reflexivity|].
    change (4 <=? 2)%nat with false. cbv iota.
    destruct (negb (cont (byte c2))) eqn:H2; [left; reflexivity|].
    change (4 <=? 3)%nat with false. cbv iota.
    destruct (negb (cont (byte c3))) eqn:H3; [left; reflexivity|].
    right. eexists _, 4%nat.
    split; [reflexivity|]. split; [lia|]. split; [simpl; lia|].
    intros Y. rewrite Hdec. simpl take. rewrite take_0, !append_cons.
    change (String.length
              (String c0 (String c1 (String c2
                 (String c3 (EmptyString +:+ Y))))) <? 4)%nat
      with false.
    cbv iota zeta. rewrite H1. change (4 <=? 2)%nat with false. cbv iota.
    rewrite H2. change (4 <=? 3)%nat with false. cbv iota.
    rewrite H3. reflexivity.
Qed.

Lemma skip_take_app s n Y :
  (n <= String.length s)%nat -> skip (take s n +:+ Y) n = Y.
Proof.
  revert n. induction s as [|c s IH]; intros [|n] H; simpl in H.
  - simpl. rewrite append_nil_l. apply skip_0.
  - lia.
  - simpl. rewrite append_nil_l. apply skip_0.
  - simpl take. rewrite append_cons. simpl. apply IH. lia.
Qed.

Lemma skip_length s n : (String.length (skip s n) <= String.length s)%nat.
Proof.
  revert n. induction s as [|c s IH]; intros [|n]; simpl; try lia.
  specialize (IH n). lia.
Qed.

(** *** A quoted string is read back as the coerced string *)

Lemma quote_body_cons c0 r0 :
  quote_body (String c0 r0)
  = if (byte c0 <? RuneSelf)%N then
      if html_safe (byte c0) then String c0 (quote_body r0)
      else escape_ascii c0 +:+ quote_body r0
    else
      let '(c, size) := DecodeRune (take (String c0 r0) 4) in
      if (c =? RuneError)%N && (size =? 1)%nat then
        "\ufffd" +:+ quote_body r0
      else if (c =? 0x2028)%N || (c =? 0x2029)%N then
        "\u202" +:+ String (hex_digit (N.land c 0xF))
                      (quote_body (skip r0 (size - 1)))
      else take (String c0 r0) size +:+ quote_body (skip r0 (size - 1)).
Proof. reflexivity. Qed.

Lemma coerce_cons c0 r0 :
  coerce (String c0 r0)
  = if (byte c0 <? RuneSelf)%N then String c0 (coerce r0)
    else
      let '(r, size) := DecodeRune (String c0 r0) in
      EncodeRune r +:+ coerce (skip r0 (size - 1)).
Proof. reflexivity. Qed.

Lemma prepend_Some p t rest :
  prepend p (Some (t, rest)) = Some (p +:+ t, rest).
Proof. reflexivity. Qed.

Lemma scan_quote_body n : forall s rest,
  (String.length s <= n)%nat ->
  scan_string (quote_body s +:+ String dquote rest) = Some (coerce s, rest).
Proof.
  induction n as [n IH] using lt_wf_ind. intros s rest Hn.
  destruct s as [|c0 r0].
  { reflexivity. }
  simpl in Hn.
  assert (IH0 : forall k rest,
            scan_string (quote_body (skip r0 k) +:+ String dquote rest)
            = Some (coerce (skip r0 k), rest)).
  { intros k rest'. apply (IH (String.length r0)); [lia|].
    apply skip_length. }
  rewrite quote_body_cons, coerce_cons.
  destruct (byte c0 <? RuneSelf)%N eqn:Hlt.
  - pose proof (IH0 0%nat rest) as IHr. rewrite skip_0 in IHr.
    destruct (html_safe (byte c0)) eqn:Hs.
    + rewrite append_cons, (scan_safe c0 _ Hlt Hs), IHr, prepend_Some.
      rewrite append_cons, append_nil_l. reflexivity.
    + rewrite append_assoc, (scan_escape c0 _ Hlt Hs), IHr, prepend_Some.
      rewrite append_cons, append_nil_l. reflexivity.
  - rewrite DecodeRune_take4.
    destruct (DecodeRune_cases c0 r0 Hlt)
      as [Herr|(c & size & Hd & H2 & Hlen & Hall)].
    + rewrite Herr. cbv iota zeta beta.
      change ((RuneError =? RuneError)%N && (1 =? 1)%nat) with true.
      cbv iota. rewrite append_assoc, !append_cons, append_nil_l.
      rewrite (scan_u _ RuneError) by reflexivity.
      simpl skip. rewrite skip_0.
      pose proof (IH0 0%nat rest) as IHr. rewrite skip_0 in IHr.
      rewrite IHr, prepend_Some.
      change (1 - 1)%nat with 0%nat. rewrite skip_0. reflexivity.
    + rewrite Hd. cbv iota zeta beta.
      replace (size =? 1)%nat with false
        by (symmetry; apply Nat.eqb_neq; lia).
      rewrite andb_false_r. cbv iota.
      destruct ((c =? 0x2028)%N || (c =? 0x2029)%N) eqn:Hls.
      * rewrite append_assoc, !append_cons, append_nil_l, ?append_cons.
        assert (Hh : hex4 (String "2" (String "0" (String "2"
                       (String (hex_digit (N.land c 0xF))
                          (quote_body (skip r0 (size - 1))
                           +:+ String dquote rest)))))
                     = Some c /\ is_surrogate c = false).
        { apply orb_true_iff in Hls as [E|E]; apply N.eqb_eq in E; subst c;
            split; reflexivity. }
        destruct Hh as (Hh & Hsur).
        rewrite (scan_u _ c Hh Hsur). simpl skip. rewrite skip_0.
        rewrite IH0, prepend_Some. reflexivity.
      * destruct size as [|k]; [lia|].
        rewrite append_assoc. simpl take. rewrite append_cons.
        replace (S k - 1)%nat with k in * by lia.
        rewrite scan_rune by exact Hlt.
        rewrite Hall. simpl fst. simpl snd.
        replace (S k - 1)%nat with k by lia.
        rewrite skip_take_app by exact Hlen.
        rewrite IH0, prepend_Some. reflexivity.
Qed.

(** What [scan_string] reads back from a quoted string is the string with
    its bytes coerced to UTF-8; a valid string is read back as it is. *)
Lemma scan_quote_coerce s rest :
  scan_string (quote_body s +:+ String dquote rest) = Some (coerce s, rest).
Proof. apply (scan_quote_body (String.length s)), le_n. Qed.

(** *** Numbers *)

Import JsonSpec.

Lemma append_nil_r (s : string) : s +:+ EmptyString = s.
Proof.
  induction s as [|c s IH]; [reflexivity|].
  rewrite append_cons, IH. reflexivity.
Qed.

Lemma digits_from_acc d : forall p : positive,
  digits_from (Z.pos p) (NilEmpty.string_of_uint d)
  = Some (Z.pos (Pos.of_uint_acc d p)).
Proof.
  induction d as [|d IH|d IH|d IH|d IH|d IH|d IH|d IH|d IH|d IH|d IH];
    intros p; [reflexivity|..];
    cbn [NilEmpty.string_of_uint digits_from Pos.of_uint_acc];
    match goal with
    | |- (if is_digit ?c then _ else _) = _ =>
        change (is_digit c) with true; cbv iota;
        let v := eval cbv in (digit c) in change (digit c) with v
    end;
    rewrite <- IH; f_equal; lia.
Qed.

Lemma digits_from_0 d :
  digits_from 0 (NilEmpty.string_of_uint d) = Some (Z.of_N (Pos.of_uint d)).
Proof.
  induction d as [|d IH|d IH|d IH|d IH|d IH|d IH|d IH|d IH|d IH|d IH];
    [reflexivity|exact IH|..];
    cbn [NilEmpty.string_of_uint digits_from Pos.of_uint];
    match goal with
    | |- (if is_digit ?c then _ else _) = _ =>
        change (is_digit c) with true; cbv iota;
        let v := eval cbv in (0 * 10 + digit c) in
        change (0 * 10 + digit c) with v
    end;
    rewrite digits_from_acc; reflexivity.
Qed.

(** The decimal digits of a positive number: there is one, and the first
    is not a zero. *)
Lemma to_uint_head p :
  exists c r,
    NilEmpty.string_of_uint (Pos.to_uint p) = String c r
    /\ is_digit c = true /\ isb c "0" = false.
Proof.
  assert (Hn : Decimal.unorm (Pos.to_uint p) = Pos.to_uint p).
  { rewrite <- (DecimalPos.Unsigned.to_of (Pos.to_uint p)).
    rewrite DecimalPos.Unsigned.of_to. reflexivity. }
  pose proof (DecimalPos.Unsigned.to_uint_nonzero p) as Hz.
  destruct (Pos.to_uint p) as [|d|d|d|d|d|d|d|d|d|d] eqn:E;
    try (eexists _, _; split; [reflexivity|split; reflexivity]).
  - discriminate Hn.
  - exfalso. unfold Decimal.unorm in Hn. simpl Decimal.nzhead in Hn.
    assert (Hh : forall u w, Decimal.nzhead u <> Decimal.D0 w).
    { induction u; intros w; simpl; try discriminate. apply IHu. }
    destruct (Decimal.nzhead d) eqn:Ed; try discriminate Hn.
    + injection Hn as <-. apply Hz. reflexivity.
    + exact (Hh d _ Ed).
Qed.

Lemma FormatInt_pos p :
  Strconv.FormatInt (Z.pos p) = NilEmpty.string_of_uint (Pos.to_uint p).
Proof.
  unfold Strconv.FormatInt. simpl.
  pose proof (DecimalPos.Unsigned.to_uint_nonnil p) as H.
  destruct (Pos.to_uint p); [congruence|reflexivity..].
Qed.

Lemma FormatInt_neg p :
  Strconv.FormatInt (Z.neg p)
  = String "-" (NilEmpty.string_of_uint (Pos.to_uint p)).
Proof.
  unfold Strconv.FormatInt. simpl.
  pose proof (DecimalPos.Unsigned.to_uint_nonnil p) as H.
  destruct (Pos.to_uint p); [congruence|reflexivity..].
Qed.

Lemma digits_of_pos p :
  digits_from 0 (NilEmpty.string_of_uint (Pos.to_uint p)) = Some (Z.pos p).
Proof.
  rewrite digits_from_0, DecimalPos.Unsigned.of_to. reflexivity.
Qed.

Lemma digit_not_sign c r :
  is_digit c = true ->
  match String c r with
  | String "+" r' => (false, r')
  | String "-" r' => (true, r')
  | _ => (false, String c r)
  end = (false, String c r).
Proof.
  intros H.
  destruct (Ascii.eqb_spec c "+") as [->|H1]; [discriminate H|].
  destruct (Ascii.eqb_spec c "-") as [->|H2]; [discriminate H|].
  destruct c as [[] [] [] [] [] [] [] []]; try reflexivity; congruence.
Qed.

(** [strconv.ParseInt] reads back what [strconv.FormatInt] writes. *)
Lemma ParseInt_FormatInt v :
  int64 v -> ParseInt (Strconv.FormatInt v) = Some v.
Proof.
  intros Hv. unfold int64 in Hv.
  assert (Hr : (min_int64 <=? v) && (v <=? max_int64) = true).
  { apply andb_true_iff. split; apply Z.leb_le; lia. }
  destruct v as [|p|p].
  - reflexivity.
  - rewrite FormatInt_pos. destruct (to_uint_head p) as (c & r & E & Hd & _).
    unfold ParseInt. pose proof (digits_of_pos p) as Hp. rewrite E in *.
    rewrite (digit_not_sign c r Hd). rewrite Hp, Hr. reflexivity.
  - rewrite FormatInt_neg. destruct (to_uint_head p) as (c & r & E & Hd & _).
    unfold ParseInt. pose proof (digits_of_pos p) as Hp. rewrite E in *.
    rewrite Hp. change (- Z.pos p) with (Z.neg p). rewrite Hr. reflexivity.
Qed.

Lemma uint_all_digits d rest :
  ends_number rest = true ->
  span_digits (NilEmpty.string_of_uint d +:+ rest)
  = (NilEmpty.string_of_uint d, rest).
Proof.
  intros Hr.
  induction d as [|d IH|d IH|d IH|d IH|d IH|d IH|d IH|d IH|d IH|d IH];
    try (cbn [NilEmpty.string_of_uint]; rewrite append_cons;
         cbn [span_digits];
         match goal with
         | |- context [is_digit ?c] => change (is_digit c) with true
         end; cbv iota; rewrite IH; reflexivity).
  cbn [NilEmpty.string_of_uint]. rewrite append_nil_l.
  destruct rest as [|c r]; [reflexivity|]. simpl in Hr |- *.
  destruct (is_digit c); [discriminate Hr|reflexivity].
Qed.

Lemma ends_number_frac_exp rest :
  ends_number rest = true ->
  match rest with
  | String c r =>
      if isb c "." then
        match digits1 r with
        | Some (d, rest') => Some (String c d, rest')
        | None => None
        end
      else Some (EmptyString, rest)
  | EmptyString => Some (EmptyString, rest)
  end = Some (EmptyString, rest)
  /\ match rest with
     | String c r =>
         if isb c "e" || isb c "E" then
           let '(sg, r') :=
             match r with
             | String c' r'' =>
                 if isb c' "+" || isb c' "-"
                 then (String c' EmptyString, r'')
                 else (EmptyString, r)
             | EmptyString => (EmptyString, r)
             end in
           match digits1 r' with
           | Some (d, rest') => Some (String c (sg +:+ d), rest')
           | None => None
           end
         else Some (EmptyString, rest)
     | EmptyString => Some (EmptyString, rest)
     end = Some (EmptyString, rest).
Proof.
  destruct rest as [|c r]; [split; reflexivity|]. simpl. intros H.
  repeat (apply andb_true_iff in H as (H & ?)).
  repeat match goal with
         | h : negb _ = true |- _ => apply negb_true_iff in h; rewrite h
         end.
  split; reflexivity.
Qed.

(** The scanner takes the digits of a positive number as one literal. *)
Lemma scan_number_pos p rest :
  ends_number rest = true ->
  scan_number (NilEmpty.string_of_uint (Pos.to_uint p) +:+ rest)
  = Some (NilEmpty.string_of_uint (Pos.to_uint p), rest).
Proof.
  intros Hr. destruct (to_uint_head p) as (c & r & E & Hd & H0).
  pose proof (uint_all_digits (Pos.to_uint p) rest Hr) as Hsp.
  destruct (ends_number_frac_exp rest Hr) as (Hf & He).
  rewrite E in *. rewrite append_cons in *.
  assert (Hm : isb c "-" = false).
  { rewrite isb_byte. unfold is_digit in Hd. fold (byte c) in Hd.
    change (byte "-") with 45%N. apply N.eqb_neq.
    apply andb_true_iff in Hd as (Hd & _). apply N.leb_le in Hd. lia. }
  assert (Hd1 : digits1 (String c (r +:+ rest)) = Some (String c r, rest))
    by (unfold digits1; rewrite Hsp; reflexivity).
  unfold scan_number. rewrite Hm, H0, Hd, Hd1.
  cbv beta iota zeta. rewrite Hf. cbv beta iota zeta. rewrite He.
  rewrite append_nil_l, !append_nil_r. reflexivity.
Qed.

Lemma scan_number_FormatInt v rest :
  ends_number rest = true ->
  scan_number (Strconv.FormatInt v +:+ rest)
  = Some (Strconv.FormatInt v, rest).
Proof.
  intros Hr. destruct (ends_number_frac_exp rest Hr) as (Hf & He).
  destruct v as [|p|p].
  - change (Strconv.FormatInt 0) with "0"%string.
    rewrite append_cons, append_nil_l. unfold scan_number.
    cbv beta iota zeta. change (isb "0" "-") with false.
    cbv beta iota zeta. change (isb "0" "0") with true.
    cbv beta iota zeta. rewrite Hf. cbv beta iota zeta. rewrite He.
    reflexivity.
  - rewrite FormatInt_pos. apply scan_number_pos, Hr.
  - rewrite FormatInt_neg, append_cons.
    pose proof (scan_number_pos p rest Hr) as Hp.
    destruct (to_uint_head p) as (c & r & E & Hd & H0).
    rewrite E in *. rewrite append_cons in *.
    unfold scan_number in Hp |- *.
    change (isb "-" "-") with true. cbv iota.
    assert (Hm : isb c "-" = false).
    { rewrite isb_byte. unfold is_digit in Hd. fold (byte c) in Hd.
      change (byte "-") with 45%N. apply N.eqb_neq.
      apply andb_true_iff in Hd as (Hd & _). apply N.leb_le in Hd. lia. }
    rewrite Hm in Hp. cbv iota in Hp.
    rewrite H0, Hd in Hp |- *.
    destruct (digits1 (String c (r +:+ rest))) as [[i s2]|];
      [|discriminate Hp].
    destruct (match s2 with
              | String c0 r0 =>
                  if isb c0 "." then
                    match digits1 r0 with
                    | Some (d, rest0) => Some (String c0 d, rest0)
                    | None => None
                    end
                  else Some (EmptyString, s2)
              | EmptyString => Some (EmptyString, s2)
              end) as [[f s3]|]; [|discriminate Hp].
    destruct (match s3 with
              | String c0 r0 =>
                  if isb c0 "e" || isb c0 "E" then
                    let '(sg, r') :=
                      match r0 with
                      | String c' r'' =>
                          if isb c' "+" || isb c' "-"
                          then (String c' EmptyString, r'')
                          else (EmptyString, r0)
                      | EmptyString => (EmptyString, r0)
                      end in
                    match digits1 r' with
                    | Some (d, rest0) => Some (String c0 (sg +:+ d), rest0)
                    | None => None
                    end
                  else Some (EmptyString, s3)
              | EmptyString => Some (EmptyString, s3)
              end) as [[e s4]|]; [|discriminate Hp].
    injection Hp as Hl Hrest. rewrite append_nil_l in Hl.
    rewrite append_cons, append_nil_l, Hl, Hrest. reflexivity.
Qed.

(** *** Values and members *)

(** A number literal begins with a digit or the minus sign. *)
Lemma FormatInt_head v :
  exists c r,
    Strconv.FormatInt v = String c r /\ isb c "-" || is_digit c = true.
Proof.
  destruct v as [|p|p].
  - exists "0"%char, EmptyString. split; reflexivity.
  - rewrite FormatInt_pos. destruct (to_uint_head p) as (c & r & E & Hd & _).
    exists c, r. split; [exact E|]. rewrite Hd. apply orb_true_r.
  - rewrite FormatInt_neg. eexists _, _. split; reflexivity.
Qed.

Lemma number_head c :
  isb c "-" || is_digit c = true ->
  is_space c = false /\ isb c "{" = false /\ isb c "[" = false
  /\ isb c dquote = false.
Proof.
  unfold is_space, is_digit. fold (byte c). rewrite !isb_byte.
  change (byte "-") with 45%N. change (byte " ") with 32%N.
  change (byte "{") with 123%N. change (byte "[") with 91%N.
  change (byte dquote) with 34%N.
  intros H. nbool; simpl in H; try discriminate H; repeat split;
    try reflexivity; lia.
Qed.

Lemma parse_value_number fuel depth v rest :
  ends_number rest = true ->
  parse_value (S fuel) depth (Strconv.FormatInt v +:+ rest)
  = Some (Number (Strconv.FormatInt v), rest).
Proof.
  intros Hr. pose proof (scan_number_FormatInt v rest Hr) as Hs.
  destruct (FormatInt_head v) as (c & r & E & Hc).
  destruct (number_head c Hc) as (H1 & H2 & H3 & H4).
  rewrite E in *. rewrite append_cons in *.
  simpl parse_value. rewrite H1, H2, H3, H4, Hc, Hs. reflexivity.
Qed.

Lemma concat_cons2 sep (x y : string) l :
  String.concat sep (x :: y :: l) = x +:+ sep +:+ String.concat sep (y :: l).
Proof. reflexivity. Qed.

(** The text of one member, followed by [rest]. *)
Lemma encode_entry_app kv rest :
  encode_entry kv +:+ rest
  = String dquote
      (quote_body (fst kv)
       +:+ String dquote (String ":" (Strconv.FormatInt (snd kv) +:+ rest))).
Proof.
  unfold encode_entry, quote.
  rewrite !append_assoc, !append_cons, !append_assoc, !append_cons,
    !append_nil_l. reflexivity.
Qed.

Lemma skip_space_cons c r :
  is_space c = false -> skip_space (String c r) = String c r.
Proof. intros H. simpl. rewrite H. reflexivity. Qed.

Lemma parse_members_S fuel depth s :
  parse_members (S fuel) depth s
  = match skip_space s with
    | EmptyString => None
    | String c r =>
        if isb c dquote then
          match scan_string r with
          | None => None
          | Some (k, r1) =>
              match skip_space r1 with
              | EmptyString => None
              | String c1 r2 =>
                  if isb c1 ":" then
                    match parse_value fuel depth r2 with
                    | None => None
                    | Some (v, r3) =>
                        match skip_space r3 with
                        | EmptyString => None
                        | String c3 r4 =>
                            if isb c3 "," then
                              match parse_members fuel depth r4 with
                              | Some (ms, rest) => Some ((k, v) :: ms, rest)
                              | None => None
                              end
                            else if isb c3 "}" then Some ([(k, v)], r4)
                            else None
                        end
                    end
                  else None
              end
          end
        else None
    end.
Proof. reflexivity. Qed.

(** The members written for a map are read back in the same order, each
    key coerced, each value as the literal written. *)
Lemma parse_members_entries l : forall fuel depth rest,
  l <> [] -> (List.length l < fuel)%nat ->
  parse_members fuel depth
    (String.concat "," (List.map encode_entry l) +:+ String "}" rest)
  = Some (List.map (fun kv => (coerce (fst kv),
                               Number (Strconv.FormatInt (snd kv)))) l,
          rest).
Proof.
  induction l as [|kv l IH]; intros fuel depth rest Hne Hf; [congruence|].
  destruct fuel as [|fuel]; [simpl in Hf; lia|].
  destruct fuel as [|fuel]; [simpl in Hf; lia|].
  assert (Hentry : forall tail,
            ends_number tail = true ->
            parse_members (S (S fuel)) depth (encode_entry kv +:+ tail)
            = match skip_space tail with
              | EmptyString => None
              | String c3 r4 =>
                  if isb c3 "," then
                    match parse_members (S fuel) depth r4 with
                    | Some (ms, rest) =>
                        Some ((coerce (fst kv),
                               Number (Strconv.FormatInt (snd kv))) :: ms,
                              rest)
                    | None => None
                    end
                  else if isb c3 "}" then
                    Some ([(coerce (fst kv),
                            Number (Strconv.FormatInt (snd kv)))], r4)
                  else None
              end).
  { intros tail Ht. rewrite encode_entry_app, parse_members_S.
    rewrite skip_space_cons by reflexivity.
    change (isb dquote dquote) with true. cbv iota.
    rewrite scan_quote_coerce.
    rewrite skip_space_cons by reflexivity.
    change (isb ":" ":") with true. cbv iota.
    rewrite (parse_value_number fuel depth (snd kv) tail Ht). reflexivity. }
  destruct l as [|kv' l].
  - simpl List.map. simpl String.concat.
    rewrite Hentry by reflexivity.
    rewrite skip_space_cons by reflexivity. reflexivity.
  - change (List.map encode_entry (kv :: kv' :: l))
      with (encode_entry kv :: encode_entry kv' :: List.map encode_entry l).
    rewrite concat_cons2, !append_assoc.
    change (encode_entry kv' :: List.map encode_entry l)
      with (List.map encode_entry (kv' :: l)).
    rewrite append_cons, append_nil_l.
    rewrite Hentry by reflexivity.
    rewrite skip_space_cons by reflexivity.
    change (isb "," ",") with true. cbv iota.
    rewrite (IH (S fuel) depth rest) by (discriminate || (simpl in *; lia)).
    reflexivity.
Qed.

(** *** The whole text *)

Lemma length_append (a b : string) :
  String.length (a +:+ b) = (String.length a + String.length b)%nat.
Proof.
  induction a as [|c a IH]; [rewrite append_nil_l; reflexivity|].
  rewrite append_cons. simpl. rewrite IH. reflexivity.
Qed.

Lemma length_entry kv : (1 <= String.length (encode_entry kv))%nat.
Proof.
  rewrite <- (append_nil_r (encode_entry kv)), encode_entry_app.
  simpl. lia.
Qed.

Lemma length_entries l :
  (List.length l
   <= String.length (String.concat "," (List.map encode_entry l)))%nat.
Proof.
  induction l as [|kv l IH]; [simpl; lia|].
  destruct l as [|kv' l].
  - simpl. apply length_entry.
  - change (List.map encode_entry (kv :: kv' :: l))
      with (encode_entry kv :: encode_entry kv' :: List.map encode_entry l).
    rewrite concat_cons2.
    change (encode_entry kv' :: List.map encode_entry l)
      with (List.map encode_entry (kv' :: l)).
    remember (String.concat "," (List.map encode_entry (kv' :: l))) as C.
    rewrite !length_append. pose proof (length_entry kv).
    simpl List.length in *. lia.
Qed.

Lemma entries_head l tail :
  l <> [] ->
  exists r,
    String.concat "," (List.map encode_entry l) +:+ tail = String dquote r.
Proof.
  destruct l as [|kv [|kv' l]]; [congruence| |]; intros _.
  - simpl. rewrite encode_entry_app. eauto.
  - change (List.map encode_entry (kv :: kv' :: l))
      with (encode_entry kv :: encode_entry kv' :: List.map encode_entry l).
    rewrite concat_cons2, !append_assoc, encode_entry_app. eauto.
Qed.

Lemma parse_value_object fuel depth X c r :
  (depth + 1 <= maxNestingDepth)%N ->
  skip_space X = String c r -> isb c "}" = false ->
  parse_value (S fuel) depth (String "{" X)
  = match parse_members fuel (depth + 1) X with
    | Some (ms, rest) => Some (Object ms, rest)
    | None => None
    end.
Proof.
  intros Hd HX Hc. simpl parse_value.
  change (is_space "{") with false. cbv iota.
  change (isb "{" "{") with true. cbv iota.
  replace (maxNestingDepth <? depth + 1)%N with false
    by (symmetry; apply N.ltb_ge; exact Hd).
  rewrite HX, Hc. reflexivity.
Qed.

(** The value written for the map is read back. *)
Lemma parse_value_map fuel m tail :
  (List.length (sort_entries (map_to_list m)) + 1 < fuel)%nat ->
  parse_value fuel 1 (encode_map (Some m) +:+ tail)
  = Some (Object (List.map (fun kv => (coerce (fst kv),
                                       Number (Strconv.FormatInt (snd kv))))
                    (sort_entries (map_to_list m))),
          tail).
Proof.
  intros Hf. unfold encode_map.
  remember (sort_entries (map_to_list m)) as es eqn:Ees. clear Ees.
  destruct fuel as [|fuel]; [lia|].
  rewrite !append_assoc, append_cons, append_nil_l, append_cons, append_nil_l.
  destruct es as [|kv es'].
  - simpl String.concat. rewrite append_nil_l. reflexivity.
  - assert (Hne : kv :: es' <> []) by discriminate.
    destruct (entries_head (kv :: es') (String "}" tail) Hne) as (r & Er).
    rewrite (parse_value_object fuel 1 _ dquote r);
      [|vm_compute; discriminate
       |rewrite Er; apply skip_space_cons; reflexivity|reflexivity].
    change (1 + 1)%N with 2%N.
    rewrite (parse_members_entries (kv :: es') fuel 2 tail Hne) by lia.
    reflexivity.
Qed.

Lemma Marshal_text state :
  Marshal state
  = String "{"
      (String dquote
         (quote_body "files"
          +:+ String dquote
                (String ":" (encode_map (Files state) +:+ "}")))).
Proof.
  unfold Marshal, quote.
  rewrite append_cons, append_nil_l, !append_cons, !append_assoc,
    !append_cons, !append_nil_l.
  reflexivity.
Qed.

(** The value the text of a state is parsed into. *)
Lemma parse_Marshal m :
  parse (Marshal {| Files := Some m |})
  = Some (Object
            [("files"%string,
              Object (List.map
                        (fun kv => (coerce (fst kv),
                                    Number (Strconv.FormatInt (snd kv))))
                        (sort_entries (map_to_list m))))]).
Proof.
  unfold parse. rewrite Marshal_text. simpl Files.
  set (E := encode_map (Some m)).
  set (X := String dquote
              (quote_body "files"
               +:+ String dquote (String ":" (E +:+ "}")))).
  assert (HlenX : (List.length (sort_entries (map_to_list m)) + 11
                   <= String.length X)%nat).
  { subst X E. unfold encode_map. simpl String.length.
    rewrite !length_append. simpl String.length.
    pose proof (length_entries (sort_entries (map_to_list m))). lia. }
  change (String.length (String "{" X)) with (S (String.length X)).
  rewrite (parse_value_object _ 0 X dquote
             (quote_body "files"
              +:+ String dquote (String ":" (E +:+ "}"))));
    [|vm_compute; discriminate|reflexivity|reflexivity].
  rewrite parse_members_S. subst X.
  rewrite skip_space_cons by reflexivity.
  change (isb dquote dquote) with true. cbv iota.
  rewrite scan_quote_coerce.
  rewrite skip_space_cons by reflexivity.
  change (isb ":" ":") with true. cbv iota.
  subst E. rewrite parse_value_map by lia.
  reflexivity.
Qed.

Lemma parse_Marshal_nil :
  parse (Marshal {| Files := None |})
  = Some (Object [("files"%string, Null)]).
Proof. vm_compute. reflexivity. Qed.

(** *** Decoding *)

Lemma decode_entries l : forall (acc : gmap string Z) e,
  Forall (fun kv => int64 (snd kv)) l ->
  fold_left
    (fun (acc : gmap string Z * bool) (kv : string * value) =>
       let '(n, e) := decode_int64 (snd kv) in
       (<[fst kv := n]> (fst acc), snd acc || e))
    (List.map (fun kv => (coerce (fst kv),
                          Number (Strconv.FormatInt (snd kv)))) l)
    (acc, e)
  = (fold_left (fun acc kv => <[coerce (fst kv) := snd kv]> acc) l acc, e).
Proof.
  induction l as [|kv l IH]; intros acc e H; [reflexivity|].
  inversion H as [|? ? Hv Hl]; subst. simpl.
  rewrite (ParseInt_FormatInt _ Hv). simpl. rewrite orb_false_r.
  apply IH, Hl.
Qed.

Lemma insert_sorted_perm kv l : Permutation (insert_sorted kv l) (kv :: l).
Proof.
  induction l as [|kv' l IH]; [reflexivity|]. simpl.
  destruct (key_le (fst kv) (fst kv')); [reflexivity|].
  rewrite IH. apply perm_swap.
Qed.

Lemma sort_entries_perm l : Permutation (sort_entries l) l.
Proof.
  induction l as [|kv l IH]; [reflexivity|]. simpl.
  rewrite insert_sorted_perm. constructor. exact IH.
Qed.

Lemma sorted_entry m k v :
  In (k, v) (sort_entries (map_to_list m)) -> m !! k = Some v.
Proof.
  intros H. apply elem_of_map_to_list. apply list_elem_of_In.
  eapply Permutation_in; [apply sort_entries_perm|exact H].
Qed.

Lemma Unmarshal_Marshal_reloaded state :
  wf_state state ->
  Unmarshal (Marshal state) {| Files := Some ∅ |}
  = ({| Files := option_map reloaded (Files state) |}, false).
Proof.
  intros Hwf. destruct state as [[m|]].
  - unfold Unmarshal. rewrite parse_Marshal.
    unfold decode_state. simpl fold_left.
    change (is_files_key "files") with true. cbv iota.
    unfold decode_map. simpl default.
    rewrite decode_entries; [reflexivity|].
    apply Forall_forall. intros [k v] Hin. simpl.
    apply list_elem_of_In in Hin.
    exact (Hwf m k v eq_refl (sorted_entry m k v Hin)).
  - unfold Unmarshal. rewrite parse_Marshal_nil. reflexivity.
Qed.

(** X15.  What [json.Unmarshal] makes of the text [json.Marshal] wrote for
    a ledger, filling an empty ledger: no error, a nil map for a nil map,
    and else the map with every key coerced to valid UTF-8 (each byte that
    is not part of a valid encoding replaced by U+FFFD), entered in the
    byte order of the original keys so that of two keys coerced to the
    same string the later one stays. *)
Theorem X15_unmarshal_marshal state :
  wf_state state ->
  Unmarshal (Marshal state) {| Files := Some ∅ |}
  = ({| Files := option_map reloaded (Files state) |}, false).
Proof. exact (Unmarshal_Marshal_reloaded state). Qed.



Lemma X15_unmarshal_marshal_witness :
  Unmarshal (Marshal bad_state) {| Files := Some ∅ |}
  = ({| Files := option_map reloaded (Files bad_state) |}, false).
Proof.
  apply (X15_unmarshal_marshal bad_state).
  intros m k v Hm Hk. injection Hm as <-.
  apply lookup_insert_Some in Hk as [(_ & <-)|(_ & Hk)].
  - vm_compute. split; discriminate.
  - rewrite lookup_empty in Hk. discriminate Hk.
Defined.

(** With valid keys, entering the entries again gives the map back. *)
Lemma fold_insert_entries (l : list (string * Z)) :
  fold_left (fun (acc : gmap string Z) kv => <[fst kv := snd kv]> acc) l ∅
  = list_to_map (rev l).
Proof.
  rewrite <- fold_left_rev_right. reflexivity.
Qed.

Lemma reloaded_valid (m : gmap string Z) :
  (forall k v, m !! k = Some v -> valid k) -> reloaded m = m.
Proof.
  intros Hv. unfold reloaded.
  set (es := sort_entries (map_to_list m)).
  assert (Hes : forall kv, In kv es -> coerce (fst kv) = fst kv).
  { intros [k v] Hin. apply (Hv k v), sorted_entry. exact Hin. }
  assert (Hfold : forall l (acc : gmap string Z),
            (forall kv, In kv l -> coerce (fst kv) = fst kv) ->
            fold_left (fun acc kv => <[coerce (fst kv) := snd kv]> acc) l acc
            = fold_left (fun acc kv => <[fst kv := snd kv]> acc) l acc).
  { induction l as [|kv l IH]; intros acc H; [reflexivity|]. simpl.
    rewrite (H kv (or_introl eq_refl)). apply IH.
    intros kv' Hin. apply H. right. exact Hin. }
  rewrite (Hfold es ∅ Hes), fold_insert_entries.
  assert (Hp : Permutation (rev es) (map_to_list m)).
  { rewrite <- Permutation_rev. apply sort_entries_perm. }
  transitivity (list_to_map (map_to_list m) : gmap string Z);
    [|apply list_to_map_to_list].
  apply list_to_map_proper; [|exact Hp].
  rewrite Hp. apply NoDup_fst_map_to_list.
Qed.

(** X14.  A ledger whose keys are valid UTF-8 survives being written and
    read: [json.Unmarshal] of the text [json.Marshal] produced returns no
    error and exactly the ledger that was written, a nil map included. *)
Theorem X14_round_trip state :
  wf_state state -> valid_keys state ->
  Unmarshal (Marshal state) {| Files := Some ∅ |} = (state, false).
Proof.
  intros Hwf Hv. rewrite (Unmarshal_Marshal_reloaded state Hwf).
  destruct state as [[m|]]; [|reflexivity]. simpl.
  rewrite reloaded_valid; [reflexivity|].
  intros k v Hk. exact (Hv m k v eq_refl Hk).
Qed.

Lemma X14_round_trip_witness :
  Unmarshal (Marshal plain_state) {| Files := Some ∅ |}
  = (plain_state, false).
Proof.
  apply (X14_round_trip plain_state).
  - intros m k v Hm Hk. injection Hm as <-.
    apply lookup_insert_Some in Hk as [(_ & <-)|(_ & Hk)];
      [vm_compute; split; discriminate|].
    apply lookup_insert_Some in Hk as [(_ & <-)|(_ & Hk)];
      [vm_compute; split; discriminate|].
    rewrite lookup_empty in Hk. discriminate Hk.
  - intros m k v Hm Hk. injection Hm as <-.
    apply lookup_insert_Some in Hk as [(<- & _)|(_ & Hk)];
      [vm_compute; reflexivity|].
    apply lookup_insert_Some in Hk as [(<- & _)|(_ & Hk)];
      [vm_compute; reflexivity|].
    rewrite lookup_empty in Hk. discriminate Hk.
Defined.

(** *** What a loaded ledger holds *)

Lemma decode_int64_range v : int64 (fst (decode_int64 v)).
Proof.
  assert (H0 : int64 0) by (vm_compute; split; discriminate).
  destruct v as [|b|lit|s|vs|ms]; simpl; try exact H0.
  unfold ParseInt.
  destruct (match lit with
            | String "+" r => (false, r)
            | String "-" r => (true, r)
            | _ => (false, lit)
            end) as [neg body].
  destruct body as [|c r]; [exact H0|].
  destruct (digits_from 0 (String c r)) as [un|]; [|exact H0].
  destruct ((min_int64 <=? (if neg then - un else un))
            && ((if neg then - un else un) <=? max_int64)) eqn:E;
    [|exact H0].
  apply andb_true_iff in E as (E1 & E2).
  apply Z.leb_le in E1, E2. simpl. split; assumption.
Qed.

Lemma decode_map_range m0 v :
  (forall m k x, m0 = Some m -> m !! k = Some x -> int64 x) ->
  forall m k x, fst (decode_map m0 v) = Some m -> m !! k = Some x -> int64 x.
Proof.
  intros H0. destruct v as [|b|lit|s|vs|ms]; simpl; try exact H0;
    try discriminate.
  assert (Hfold : forall (l : list (string * value)) (acc : gmap string Z) e,
            (forall k x, acc !! k = Some x -> int64 x) ->
            forall k x,
              fst (fold_left
                     (fun (acc : gmap string Z * bool) (kv : string * value) =>
                        let '(n, e) := decode_int64 (snd kv) in
                        (<[fst kv := n]> (fst acc), snd acc || e))
                     l (acc, e)) !! k = Some x -> int64 x).
  { induction l as [|kv l IH]; intros acc e Hacc k x; [apply Hacc|].
    simpl. pose proof (decode_int64_range (snd kv)) as Hr.
    destruct (decode_int64 (snd kv)) as [n e']. simpl in Hr. apply IH.
    intros k' x' Hk. apply lookup_insert_Some in Hk as [(_ & <-)|(_ & Hk)];
      [exact Hr|exact (Hacc k' x' Hk)]. }
  intros m k x Hm Hk.
  destruct (fold_left _ ms (default ∅ m0, false)) as [m' e] eqn:Ef.
  simpl in Hm. injection Hm as <-.
  pose proof (Hfold ms (default ∅ m0) false) as Hf. rewrite Ef in Hf.
  apply (Hf ltac:(intros k' x' Hk'; destruct m0 as [m1|];
                  [exact (H0 m1 k' x' eq_refl Hk')
                  |simpl in Hk'; rewrite lookup_empty in Hk'; discriminate])
            k x Hk).
Qed.

(** Whatever the text, the sizes [json.Unmarshal] puts into an empty
    ledger are [int64] values. *)
Lemma Unmarshal_wf data : wf_state (fst (Unmarshal data {| Files := Some ∅ |})).
Proof.
  assert (Hempty : wf_state {| Files := Some ∅ |}).
  { intros m k v Hm Hk. injection Hm as <-. rewrite lookup_empty in Hk.
    discriminate Hk. }
  unfold Unmarshal. destruct (parse data) as [v|]; [|exact Hempty].
  destruct v as [|b|lit|s|vs|ms]; try exact Hempty.
  unfold decode_state.
  assert (Hfold : forall (l : list (string * value)) st e,
            wf_state st ->
            wf_state
              (fst (fold_left
                      (fun (acc : DownloadState * bool)
                           (kv : string * value) =>
                         if is_files_key (fst kv) then
                           let '(m, e) :=
                             decode_map (Files (fst acc)) (snd kv) in
                           ({| Files := m |}, snd acc || e)
                         else acc)
                      l (st, e)))).
  { induction l as [|kv l IH]; intros st e Hst; [exact Hst|]. simpl.
    destruct (is_files_key (fst kv)); [|apply IH, Hst].
    pose proof (decode_map_range (Files st) (snd kv)) as Hr.
    destruct (decode_map (Files st) (snd kv)) as [m e']. apply IH.
    intros m1 k x Hm Hk. simpl in Hm. subst m.
    apply (Hr ltac:(intros m2 k2 x2 H2 Hk2; exact (Hst m2 k2 x2 H2 Hk2))
              m1 k x eq_refl Hk). }
  apply Hfold, Hempty.
Qed.

End JsonFacts.
(** * The single-file transfer and the ledger file *)
Module ClientFacts.
Import Strings Filepath ClientData ClientOs Client PathFacts.
Import Utf8 JsonSpec JsonFacts.

Lemma file_at_insert (f : fs) k n k' :
  file_at (<[k := n]> f) k'
  = if decide (k = k') then
      match n with File r w d => Some (File r w d) | Dir _ => None end
    else file_at f k'.
Proof.
  unfold file_at. destruct (decide (k = k')) as [->|Hne].
  - rewrite lookup_insert_eq. destruct n; reflexivity.
  - rewrite lookup_insert_ne by exact Hne. reflexivity.
Qed.

Lemma node_at_None (f : fs) path :
  node_at f path = None -> path <> ""%string -> f !! key path = None.
Proof.
  unfold node_at. intros H Hne.
  destruct (String.eqb path "") eqn:E;
    [apply String.eqb_eq in E; congruence|].
  destruct (f !! key path); [discriminate H|reflexivity].
Qed.

Lemma node_at_File (f : fs) path r w d :
  node_at f path = Some (File r w d) -> f !! key path = Some (File r w d).
Proof.
  unfold node_at. destruct (String.eqb path ""); [discriminate|].
  destruct (f !! key path) as [n|]; [congruence|].
  destruct (always_dir (key path)); discriminate.
Qed.

Lemma same_files_refl f : same_files f f.
Proof. intros k. reflexivity. Qed.

Lemma same_files_trans f g h :
  same_files f g -> same_files g h -> same_files f h.
Proof. intros H1 H2 k. rewrite (H1 k). apply H2. Qed.

Lemma same_files_node_at_File f g path r w d :
  same_files f g -> node_at f path = Some (File r w d) ->
  node_at g path = Some (File r w d).
Proof.
  intros Hs H. pose proof (node_at_File f path r w d H) as Hl.
  pose proof (Hs (key path)) as Hk. unfold file_at in Hk. rewrite Hl in Hk.
  unfold node_at in *. destruct (String.eqb path ""); [discriminate|].
  destruct (g !! key path) as [[r' w' d'|w']|]; congruence.
Qed.

(** [os.Mkdir] touches no file. *)
Lemma Mkdir_same_files f path :
  same_files f (fst (Mkdir f path)).
Proof.
  unfold Mkdir. destruct (node_at f path) eqn:Hn; [apply same_files_refl|].
  destruct (String.eqb path "") eqn:E; [apply same_files_refl|].
  assert (Hne : path <> ""%string)
    by (intros ->; discriminate E).
  destruct (node_at f (Filepath.Dir (key path))) as [[r w d|[|]]|];
    try apply same_files_refl.
  simpl. intros k. rewrite file_at_insert.
  destruct (decide (key path = k)) as [<-|_]; [|reflexivity].
  unfold file_at. rewrite (node_at_None f path Hn Hne). reflexivity.
Qed.

(** Nor does [os.MkdirAll]. *)
Lemma mkdir_all_same_files f rooted relems :
  same_files f (fst (mkdir_all f rooted relems)).
Proof.
  induction relems as [|e parent IH]; simpl.
  - destruct (node_at f _) as [[r w d|w]|]; apply same_files_refl.
  - destruct (node_at f _) as [[r w d|w]|]; try apply same_files_refl.
    destruct (mkdir_all f rooted parent) as [f1 ok] eqn:Hm. simpl in IH.
    destruct ok; [|exact IH].
    eapply same_files_trans; [exact IH|apply Mkdir_same_files].
Qed.

Lemma MkdirAll_same_files f path :
  same_files f (fst (MkdirAll f path)).
Proof.
  unfold MkdirAll. destruct (String.eqb path ""); [apply same_files_refl|].
  apply mkdir_all_same_files.
Qed.

(** Opening a file for writing empties it and touches no other file. *)
Lemma Create_spec f path f' :
  Create f path = Some f' ->
  (exists r w, f' !! key path = Some (File r w EmptyString))
  /\ same_files_but (key path) f f'.
Proof.
  unfold Create. intros H.
  destruct (node_at f path) as [[r w d|w]|] eqn:Hn.
  - destruct w; [|discriminate H]. injection H as <-. split.
    + exists r, true. apply lookup_insert_eq.
    + intros k Hk. rewrite file_at_insert.
      destruct (decide (key path = k)); [congruence|reflexivity].
  - discriminate H.
  - destruct (String.eqb path ""); [discriminate H|].
    destruct (node_at f (Filepath.Dir (key path))) as [[r w d|[|]]|];
      try discriminate H.
    injection H as <-. split.
    + exists true, true. apply lookup_insert_eq.
    + intros k Hk. rewrite file_at_insert.
      destruct (decide (key path = k)); [congruence|reflexivity].
Qed.

(** Writing through the handle appends to that file only. *)
Lemma write_spec f path r w old data :
  f !! key path = Some (File r w old) ->
  write f path data !! key path = Some (File r w (old +:+ data))
  /\ same_files_but (key path) f (write f path data).
Proof.
  intros H. unfold write. rewrite H. split.
  - apply lookup_insert_eq.
  - intros k Hk. rewrite file_at_insert.
    destruct (decide (key path = k)); [congruence|reflexivity].
Qed.

Lemma same_files_but_trans k f g h :
  same_files_but k f g -> same_files_but k g h -> same_files_but k f h.
Proof. intros H1 H2 k' Hk. rewrite (H1 k' Hk). apply (H2 k' Hk). Qed.

Lemma same_files_weaken k f g : same_files f g -> same_files_but k f g.
Proof. intros H k' _. apply H. Qed.

(** [os.WriteFile] touches no file but its own. *)
Lemma WriteFile_same_files_but f path data :
  same_files_but (key path) f (fst (WriteFile f path data)).
Proof.
  unfold WriteFile. destruct (Create f path) as [f'|] eqn:Hc; simpl.
  - destruct (Create_spec f path f' Hc) as ((r & w & Hl) & Hs).
    eapply same_files_but_trans; [exact Hs|].
    apply (write_spec f' path r w _ data Hl).
  - intros k _. reflexivity.
Qed.

(** When it succeeds, the file holds the data. *)
Lemma WriteFile_ok f path data f' :
  WriteFile f path data = (f', true) ->
  exists r w, f' !! key path = Some (File r w data).
Proof.
  unfold WriteFile. destruct (Create f path) as [f0|] eqn:Hc; [|discriminate].
  intros H. injection H as <-.
  destruct (Create_spec f path f0 Hc) as ((r & w & Hl) & _).
  exists r, w. destruct (write_spec f0 path r w _ data Hl) as (H & _).
  rewrite H, append_nil_l. reflexivity.
Qed.

(** [saveDownloadState] touches no file but the ledger. *)
Lemma saveDownloadState_same_files_but cfg state f :
  same_files_but (key (resumeFile cfg)) f (saveDownloadState cfg state f).
Proof. apply WriteFile_same_files_but. Qed.

(** After [os.Create] and [io.Copy] the local file holds the bytes the
    body delivered; no other file has changed. *)
Lemma copy_spec f1 name f2 body :
  Create f1 name = Some f2 ->
  (exists r w, write f2 name body !! key name = Some (File r w body))
  /\ same_files_but (key name) f1 (write f2 name body).
Proof.
  intros Hc. destruct (Create_spec f1 name f2 Hc) as ((r & w & Hl) & Hs).
  destruct (write_spec f2 name r w _ body Hl) as (Hw & Hs').
  split.
  - exists r, w. rewrite Hw, append_nil_l. reflexivity.
  - eapply same_files_but_trans; [exact Hs|exact Hs'].
Qed.

(** X3.  What [downloadFile] leaves on disk.  Files other than the local
    target and the ledger never change.  Short of the return after
    [saveDownloadState], the ledger file does not change either (the target
    being another file than the ledger).  On the returns before [os.Create]
    (request, status, directory, skip, create) no file changes at all; on
    the returns after the copy (read error, size mismatch, nil map) the
    local file is left holding the bytes received. *)
Theorem X3_download_frame cfg net f filePath :
  key (resumeFile cfg) <> key (fileName cfg filePath) ->
  let out := fst (downloadFile cfg net f filePath) in
  let f' := snd (downloadFile cfg net f filePath) in
  (forall k, k <> key (fileName cfg filePath) -> k <> key (resumeFile cfg) ->
     file_at f k = file_at f' k)
  /\ (saved out = false ->
      file_at f (key (resumeFile cfg)) = file_at f' (key (resumeFile cfg)))
  /\ (copied out = false -> same_files f f')
  /\ (copied out = true -> saved out = false ->
      exists resp r w,
        Do net (download_url cfg filePath) = Some resp
        /\ f' !! key (fileName cfg filePath) = Some (File r w (Body resp))).
Proof.
  intros Hne. unfold downloadFile. fold (saveDir cfg filePath).
  fold (fileName cfg filePath).
  assert (Hrefl : forall k,
            k <> key (fileName cfg filePath) -> k <> key (resumeFile cfg) ->
            file_at f k = file_at f k) by reflexivity.
  destruct (NewRequest_ok net (download_url cfg filePath)); simpl;
    [|repeat split; auto using same_files_refl; discriminate].
  destruct (Do net (download_url cfg filePath)) as [resp|]; simpl;
    [|repeat split; auto using same_files_refl; discriminate].
  destruct (StatusCode resp =? StatusOK); simpl;
    [|repeat split; auto using same_files_refl; discriminate].
  pose proof (MkdirAll_same_files f (saveDir cfg filePath)) as Hmk.
  destruct (MkdirAll f (saveDir cfg filePath)) as [f1 ok]. simpl in Hmk.
  destruct ok; simpl;
    [|repeat split; auto; discriminate].
  destruct (match Stat f1 (fileName cfg filePath) with
            | Some info => _ | None => false end); simpl;
    [repeat split; auto; discriminate|].
  destruct (Create f1 (fileName cfg filePath)) as [f2|] eqn:Hc; simpl;
    [|repeat split; auto; discriminate].
  destruct (copy_spec f1 _ f2 (Body resp) Hc) as ((r & w & Hl) & Hs).
  set (f3 := write f2 (fileName cfg filePath) (Body resp)) in *.
  assert (H13 : same_files_but (key (fileName cfg filePath)) f f3).
  { intros k Hk. rewrite (Hmk k). apply Hs, Hk. }
  assert (Hled : file_at f (key (resumeFile cfg))
                 = file_at f3 (key (resumeFile cfg)))
    by (apply H13, Hne).
  assert (Hkeep : exists resp0 r0 w0,
             Some resp = Some resp0
             /\ f3 !! key (fileName cfg filePath)
                = Some (File r0 w0 (Body resp0)))
    by (exists resp, r, w; split; [reflexivity|exact Hl]).
  destruct (BodyErr resp); simpl;
    [repeat split; auto; discriminate|].
  destruct ((0 <? ContentLength resp)
            && negb (len (Body resp) =? ContentLength resp)); simpl;
    [repeat split; auto; discriminate|].
  destruct (Files (loadDownloadState cfg f)) as [m|]; simpl;
    [|repeat split; auto; discriminate].
  repeat split; try discriminate.
  intros k Hk1 Hk2. rewrite (H13 k Hk1).
  apply saveDownloadState_same_files_but, Hk2.
Qed.

Lemma X3_download_frame_witness :
  let resp := {| StatusCode := 200; ContentLength := 5; Body := "ab";
                 BodyErr := false |} in
  let out := fst (downloadFile demo_cfg (demo_net resp) demo_fs "x") in
  let f' := snd (downloadFile demo_cfg (demo_net resp) demo_fs "x") in
  out = ErrSizeMismatch
  /\ file_at demo_fs "state.json" = file_at f' "state.json"
  /\ exists resp' r w,
       Do (demo_net resp) (download_url demo_cfg "x") = Some resp'
       /\ f' !! key (fileName demo_cfg "x") = Some (File r w (Body resp')).
Proof.
  intros resp out f'.
  destruct (X3_download_frame demo_cfg (demo_net resp) demo_fs "x")
    as (_ & H2 & _ & H4).
  - vm_compute. discriminate.
  - split; [vm_compute; reflexivity|]. split.
    + apply H2. vm_compute. reflexivity.
    + apply H4; vm_compute; reflexivity.
Defined.

Lemma file_at_Some (f : fs) k n : file_at f k = Some n -> f !! k = Some n.
Proof.
  unfold file_at. destruct (f !! k) as [[r w d|w]|]; congruence.
Qed.

Lemma lookup_file_at (f : fs) k r w d :
  f !! k = Some (File r w d) -> file_at f k = Some (File r w d).
Proof. unfold file_at. intros ->. reflexivity. Qed.

(** X4.  [downloadFile] skips the transfer exactly when the request is
    answered with status 200, the directory could be made, and [os.Stat]
    on the local path succeeds with a size equal to a Content-Length that
    is strictly positive; without a positive Content-Length it never
    skips. *)
Theorem X4_skip_exactly cfg net f filePath :
  fst (downloadFile cfg net f filePath) = Skipped
  <-> NewRequest_ok net (download_url cfg filePath) = true
      /\ exists resp info,
           Do net (download_url cfg filePath) = Some resp
           /\ StatusCode resp = StatusOK
           /\ snd (MkdirAll f (saveDir cfg filePath)) = true
           /\ Stat (fst (MkdirAll f (saveDir cfg filePath)))
                (fileName cfg filePath) = Some info
           /\ 0 < ContentLength resp
           /\ Os.Size info = ContentLength resp.
Proof.
  unfold downloadFile. fold (saveDir cfg filePath).
  fold (fileName cfg filePath).
  destruct (NewRequest_ok net (download_url cfg filePath)); simpl;
    [|split; [discriminate|intros (H & _); discriminate H]].
  destruct (Do net (download_url cfg filePath)) as [resp|]; simpl;
    [|split; [discriminate|intros (_ & ? & ? & H & _); discriminate H]].
  destruct (StatusCode resp =? StatusOK) eqn:Hst; simpl.
  2:{ split; [discriminate|]. intros (_ & resp' & ? & H & Hs & _).
      injection H as <-. apply Z.eqb_neq in Hst. contradiction. }
  apply Z.eqb_eq in Hst.
  destruct (MkdirAll f (saveDir cfg filePath)) as [f1 ok]. simpl.
  destruct ok; simpl;
    [|split; [discriminate|intros (_ & ? & ? & _ & _ & H & _); discriminate H]].
  destruct (Stat f1 (fileName cfg filePath)) as [info|] eqn:Hi; simpl.
  2:{ destruct (Create f1 _); simpl;
        [destruct (BodyErr resp); simpl;
         [|destruct (_ && _); simpl;
           [|destruct (Files _); simpl]]|];
        (split; [discriminate
                |intros (_ & ? & ? & _ & _ & _ & H & _); discriminate H]). }
  destruct ((0 <? ContentLength resp)
            && (Os.Size info =? ContentLength resp)) eqn:Hc; simpl.
  - apply andb_true_iff in Hc as (H1 & H2).
    apply Z.ltb_lt in H1. apply Z.eqb_eq in H2.
    split; [|reflexivity]. intros _. split; [reflexivity|].
    exists resp, info. repeat split; assumption.
  - assert (Hno : ~ (0 < ContentLength resp
                     /\ Os.Size info = ContentLength resp)).
    { intros (H1 & H2). apply Z.ltb_lt in H1. apply Z.eqb_eq in H2.
      rewrite H1, H2 in Hc. discriminate Hc. }
    destruct (Create f1 _); simpl;
      [destruct (BodyErr resp); simpl;
       [|destruct (_ && negb _); simpl;
         [|destruct (Files _); simpl]]|];
      (split; [discriminate|]);
      intros (_ & resp' & info' & H & _ & _ & Hi' & H1 & H2);
      injection H as <-; injection Hi' as <-; exfalso; apply Hno;
      split; assumption.
Qed.

(** X5.  A regular local file whose size equals a positive Content-Length
    is not downloaded again: when the answer has status 200 and the
    directory step succeeds, [downloadFile] skips and every file, the
    ledger among them, holds what it held. *)
Theorem X5_complete_file_skipped cfg net f filePath resp r w data :
  NewRequest_ok net (download_url cfg filePath) = true ->
  Do net (download_url cfg filePath) = Some resp ->
  StatusCode resp = StatusOK ->
  snd (MkdirAll f (saveDir cfg filePath)) = true ->
  node_at f (fileName cfg filePath) = Some (File r w data) ->
  0 < ContentLength resp ->
  len data = ContentLength resp ->
  fst (downloadFile cfg net f filePath) = Skipped
  /\ same_files f (snd (downloadFile cfg net f filePath)).
Proof.
  intros Hreq Hdo Hst Hmk Hn Hpos Hlen.
  pose proof (MkdirAll_same_files f (saveDir cfg filePath)) as Hs.
  pose proof (same_files_node_at_File _ _ _ r w data Hs Hn) as Hn1.
  unfold downloadFile. fold (saveDir cfg filePath).
  fold (fileName cfg filePath). rewrite Hreq, Hdo. simpl.
  rewrite Hst. simpl.
  destruct (MkdirAll f (saveDir cfg filePath)) as [f1 ok].
  simpl in Hmk, Hs, Hn1. subst ok. simpl.
  unfold Stat. rewrite Hn1. simpl. rewrite Hlen, Z.eqb_refl.
  apply Z.ltb_lt in Hpos. rewrite Hpos. simpl. split; [reflexivity|exact Hs].
Qed.

Lemma X5_complete_file_skipped_witness :
  let resp := {| StatusCode := 200; ContentLength := 3; Body := "abc";
                 BodyErr := false |} in
  fst (downloadFile demo_cfg (demo_net resp) demo_fs "x") = Skipped
  /\ same_files demo_fs
       (snd (downloadFile demo_cfg (demo_net resp) demo_fs "x")).
Proof.
  intros resp.
  apply (X5_complete_file_skipped demo_cfg (demo_net resp) demo_fs "x" resp
           true true "abc"); vm_compute; reflexivity.
Defined.

(** X6.  Without a positive Content-Length an existing local file is
    never taken to be complete, whatever its size: when the answer has
    status 200, the directory step succeeds and the file can be written,
    it is emptied and filled with the bytes the body delivers. *)
Theorem X6_rewritten_without_length cfg net f filePath resp r old :
  NewRequest_ok net (download_url cfg filePath) = true ->
  Do net (download_url cfg filePath) = Some resp ->
  StatusCode resp = StatusOK ->
  snd (MkdirAll f (saveDir cfg filePath)) = true ->
  node_at f (fileName cfg filePath) = Some (File r true old) ->
  key (resumeFile cfg) <> key (fileName cfg filePath) ->
  ContentLength resp <= 0 ->
  let out := fst (downloadFile cfg net f filePath) in
  let f' := snd (downloadFile cfg net f filePath) in
  copied out = true
  /\ f' !! key (fileName cfg filePath) = Some (File r true (Body resp))
  /\ (BodyErr resp = false ->
      forall m, Files (loadDownloadState cfg f) = Some m ->
                out = Downloaded (len (Body resp))).
Proof.
  intros Hreq Hdo Hst Hmk Hn Hne Hle.
  pose proof (MkdirAll_same_files f (saveDir cfg filePath)) as Hs.
  pose proof (same_files_node_at_File _ _ _ r true old Hs Hn) as Hn1.
  unfold downloadFile. fold (saveDir cfg filePath).
  fold (fileName cfg filePath). rewrite Hreq, Hdo. simpl.
  rewrite Hst. simpl.
  destruct (MkdirAll f (saveDir cfg filePath)) as [f1 ok].
  simpl in Hmk, Hs, Hn1. subst ok. simpl.
  assert (Hz : (0 <? ContentLength resp) = false) by (apply Z.ltb_ge; lia).
  unfold Stat. rewrite Hn1, Hz. simpl.
  unfold Create. rewrite Hn1.
  set (f2 := <[key (fileName cfg filePath) := File r true EmptyString]> f1).
  assert (H2 : f2 !! key (fileName cfg filePath)
               = Some (File r true EmptyString)) by apply lookup_insert_eq.
  destruct (write_spec f2 (fileName cfg filePath) r true _ (Body resp) H2)
    as (H3 & _).
  rewrite append_nil_l in H3.
  destruct (BodyErr resp); simpl.
  { split; [reflexivity|]. split; [exact H3|discriminate]. }
  destruct (Files (loadDownloadState cfg f)) as [m|]; simpl.
  - split; [reflexivity|]. split; [|intros _ m' _; reflexivity].
    apply file_at_Some.
    rewrite <- (saveDownloadState_same_files_but cfg _ _ _
                  (not_eq_sym Hne)).
    apply lookup_file_at, H3.
  - split; [reflexivity|]. split; [exact H3|]. intros _ m Hm.
    discriminate Hm.
Qed.

Lemma X6_rewritten_without_length_witness :
  let resp := {| StatusCode := 200; ContentLength := 0; Body := "";
                 BodyErr := false |} in
  let f := <["out/x" := File true true ""]> demo_fs in
  let out := fst (downloadFile demo_cfg (demo_net resp) f "x") in
  let f' := snd (downloadFile demo_cfg (demo_net resp) f "x") in
  copied out = true
  /\ f' !! key (fileName demo_cfg "x") = Some (File true true (Body resp))
  /\ (BodyErr resp = false ->
      forall m, Files (loadDownloadState demo_cfg f) = Some m ->
                out = Downloaded (len (Body resp))).
Proof.
  intros resp f.
  apply (X6_rewritten_without_length demo_cfg (demo_net resp) f "x" resp
           true "");
    try (vm_compute; reflexivity).
  - vm_compute. discriminate.
  - vm_compute. discriminate.
Defined.

(** What [downloadFile] does when nothing goes wrong on the way. *)
Lemma downloadFile_transfer_ok cfg net f filePath resp :
  transfer_ok cfg net f filePath resp ->
  exists f2,
    Create (fst (MkdirAll f (saveDir cfg filePath))) (fileName cfg filePath)
    = Some f2
    /\ downloadFile cfg net f filePath
       = match Files (loadDownloadState cfg f) with
         | None => (PanicNilMap, write f2 (fileName cfg filePath) (Body resp))
         | Some m =>
             (Downloaded (len (Body resp)),
              saveDownloadState cfg
                {| Files := Some (<[filePath := len (Body resp)]> m) |}
                (write f2 (fileName cfg filePath) (Body resp)))
         end.
Proof.
  intros (Hreq & Hdo & Hst & Hmk & Hstat & Hcr & Herr & Hlen).
  unfold downloadFile. fold (saveDir cfg filePath).
  fold (fileName cfg filePath). rewrite Hreq, Hdo. simpl.
  rewrite Hst. simpl.
  destruct (MkdirAll f (saveDir cfg filePath)) as [f1 ok].
  simpl in Hmk, Hstat, Hcr. subst ok. simpl.
  destruct (Create f1 (fileName cfg filePath)) as [f2|]; [|congruence].
  exists f2. split; [reflexivity|].
  assert (Hc : match Stat f1 (fileName cfg filePath) with
               | Some info =>
                   (0 <? ContentLength resp)
                   && (Os.Size info =? ContentLength resp)
               | None => false
               end = false).
  { destruct (Stat f1 (fileName cfg filePath)) as [info|]; [|reflexivity].
    destruct (0 <? ContentLength resp) eqn:Hp; [|reflexivity]. simpl.
    apply Z.eqb_neq. apply Hstat; [reflexivity|]. apply Z.ltb_lt, Hp. }
  rewrite Hc, Herr. simpl.
  assert (Hs : (0 <? ContentLength resp)
               && negb (len (Body resp) =? ContentLength resp) = false).
  { destruct (0 <? ContentLength resp) eqn:Hp; [|reflexivity]. simpl.
    rewrite (Hlen (proj1 (Z.ltb_lt _ _) Hp)), Z.eqb_refl. reflexivity. }
  rewrite Hs. reflexivity.
Qed.

Lemma load_null_ledger cfg f :
  ReadFile f (resumeFile cfg) = Some null_ledger ->
  Files (loadDownloadState cfg f) = None.
Proof.
  intros H. unfold loadDownloadState. rewrite H.
  vm_compute. reflexivity.
Qed.

(** X7.  A ledger file that holds a null map, as [json.Marshal] writes a
    nil map, makes [loadDownloadState] return a nil map; a transfer in
    which nothing else goes wrong then ends in the panic of the assignment
    to [state.Files], after the local file has been written in full and
    before the ledger is saved. *)
Theorem X7_null_ledger_panics cfg net f filePath resp :
  ReadFile f (resumeFile cfg) = Some null_ledger ->
  transfer_ok cfg net f filePath resp ->
  fst (downloadFile cfg net f filePath) = PanicNilMap
  /\ exists r w,
       snd (downloadFile cfg net f filePath) !! key (fileName cfg filePath)
       = Some (File r w (Body resp)).
Proof.
  intros Hl Hok.
  destruct (downloadFile_transfer_ok cfg net f filePath resp Hok)
    as (f2 & Hc & ->).
  rewrite (load_null_ledger cfg f Hl). simpl. split; [reflexivity|].
  destruct (copy_spec _ _ f2 (Body resp) Hc) as (H & _). exact H.
Qed.

Lemma demo_transfer_ok :
  transfer_ok demo_cfg
    (demo_net {| StatusCode := 200; ContentLength := 3; Body := "abc";
                 BodyErr := false |}) null_ledger_fs "y"
    {| StatusCode := 200; ContentLength := 3; Body := "abc";
       BodyErr := false |}.
Proof.
  unfold transfer_ok. repeat split; try (vm_compute; reflexivity).
  - intros info Hi. vm_compute in Hi. discriminate Hi.
  - vm_compute. discriminate.
Qed.

Lemma X7_null_ledger_panics_witness :
  let resp := {| StatusCode := 200; ContentLength := 3; Body := "abc";
                 BodyErr := false |} in
  fst (downloadFile demo_cfg (demo_net resp) null_ledger_fs "y")
  = PanicNilMap
  /\ exists r w,
       snd (downloadFile demo_cfg (demo_net resp) null_ledger_fs "y")
         !! key (fileName demo_cfg "y")
       = Some (File r w (Body resp)).
Proof.
  intros resp.
  apply (X7_null_ledger_panics demo_cfg (demo_net resp) null_ledger_fs "y"
           resp).
  - vm_compute. reflexivity.
  - exact demo_transfer_ok.
Defined.

(** Decoding an object without a [files] member changes nothing. *)
Lemma decode_state_no_files ms state e :
  Forall (fun kv => Json.is_files_key (fst kv) = false) ms ->
  fold_left
    (fun (acc : DownloadState * bool) (kv : string * Json.value) =>
       if Json.is_files_key (fst kv) then
         let '(m, e) := Json.decode_map (Files (fst acc)) (snd kv) in
         ({| Files := m |}, snd acc || e)
       else acc)
    ms (state, e) = (state, e).
Proof.
  induction 1 as [|kv ms Hk _ IH]; simpl; [reflexivity|].
  rewrite Hk. exact IH.
Qed.

(** X8.  [loadDownloadState] returns the empty ledger, and no error,
    whenever the ledger file cannot be read (it is missing, a directory, or
    not readable), does not hold valid JSON, or holds JSON that is not an
    object with a [files] member. *)
Theorem X8_load_empty_ledger cfg f :
  (ReadFile f (resumeFile cfg) = None ->
   loadDownloadState cfg f = empty_state)
  /\ (forall data,
        ReadFile f (resumeFile cfg) = Some data ->
        Json.parse data = None ->
        loadDownloadState cfg f = empty_state)
  /\ (forall data v,
        ReadFile f (resumeFile cfg) = Some data ->
        Json.parse data = Some v ->
        (forall ms, v = Json.Object ms ->
           Forall (fun kv => Json.is_files_key (fst kv) = false) ms) ->
        loadDownloadState cfg f = empty_state)
  /\ (ReadFile f (resumeFile cfg) = None
      <-> match node_at f (resumeFile cfg) with
          | Some (File readable _ _) => readable = false
          | _ => True
          end).
Proof.
  unfold loadDownloadState, empty_state. repeat split.
  - intros ->. reflexivity.
  - intros data -> Hp. unfold Json.Unmarshal. rewrite Hp. reflexivity.
  - intros data v -> Hp Hv. unfold Json.Unmarshal. rewrite Hp.
    destruct v as [|b|lit|s|vs|ms]; try reflexivity.
    unfold Json.decode_state.
    rewrite (decode_state_no_files ms _ false (Hv ms eq_refl)). reflexivity.
  - unfold ReadFile.
    destruct (node_at f (resumeFile cfg)) as [[[|] w d|w]|]; auto;
      discriminate.
  - unfold ReadFile.
    destruct (node_at f (resumeFile cfg)) as [[[|] w d|w]|]; auto;
      discriminate.
Qed.

Lemma X8_load_empty_ledger_witness :
  loadDownloadState demo_cfg demo_fs = empty_state
  /\ loadDownloadState demo_cfg (demo_fs_ledger "{") = empty_state
  /\ loadDownloadState demo_cfg (demo_fs_ledger "[1, 2]") = empty_state.
Proof.
  split; [|split].
  - apply (X8_load_empty_ledger demo_cfg demo_fs). vm_compute. reflexivity.
  - apply (proj1 (proj2 (X8_load_empty_ledger demo_cfg (demo_fs_ledger "{")))
             "{"%string); vm_compute; reflexivity.
  - apply (proj1 (proj2 (proj2 (X8_load_empty_ledger demo_cfg
                                  (demo_fs_ledger "[1, 2]"))))
             "[1, 2]"%string
             (Json.Array [Json.Number "1"; Json.Number "2"]));
      try (vm_compute; reflexivity).
    intros ms H. discriminate H.
Defined.

(** *** Writing the ledger and reading it back *)

Lemma node_at_lookup (f : fs) path n :
  path <> ""%string -> f !! key path = Some n -> node_at f path = Some n.
Proof.
  intros Hne H. unfold node_at.
  destruct (String.eqb path "") eqn:E;
    [apply String.eqb_eq in E; contradiction|].
  rewrite H. reflexivity.
Qed.

Lemma node_at_not_empty (f : fs) path n :
  node_at f path = Some n -> path <> ""%string.
Proof. intros H ->. discriminate H. Qed.

(** A file that can be rewritten holds, after [os.WriteFile], the data
    written, and can be read. *)
Lemma WriteFile_can_rewrite f path data :
  can_rewrite f path = true ->
  ReadFile (fst (WriteFile f path data)) path = Some data.
Proof.
  unfold can_rewrite, WriteFile, Create. intros H.
  destruct (node_at f path) as [[r w old|w]|] eqn:Hn; [| discriminate H|].
  - apply andb_true_iff in H as (-> & ->). simpl.
    pose proof (node_at_not_empty f path _ Hn) as Hne.
    unfold ReadFile, write. rewrite lookup_insert_eq.
    rewrite (node_at_lookup _ path (File true true (EmptyString +:+ data)) Hne)
      by apply lookup_insert_eq.
    rewrite append_nil_l. reflexivity.
  - apply andb_true_iff in H as (Hne & Hp).
    apply negb_true_iff in Hne. rewrite Hne.
    assert (Hne' : path <> ""%string) by (intros ->; discriminate Hne).
    destruct (node_at f (Filepath.Dir (key path))) as [[r w d|[|]]|];
      try discriminate Hp.
    simpl. unfold ReadFile, write. rewrite lookup_insert_eq.
    rewrite (node_at_lookup _ path (File true true (EmptyString +:+ data)) Hne')
      by apply lookup_insert_eq.
    rewrite append_nil_l. reflexivity.
Qed.

Lemma load_after_save cfg state f :
  wf_state state ->
  can_rewrite f (resumeFile cfg) = true ->
  loadDownloadState cfg (saveDownloadState cfg state f)
  = {| Files := option_map reloaded (Files state) |}.
Proof.
  intros Hwf Hc. unfold loadDownloadState, saveDownloadState.
  rewrite (WriteFile_can_rewrite f _ _ Hc).
  rewrite (Unmarshal_Marshal_reloaded state Hwf). reflexivity.
Qed.

(** X16.  [saveDownloadState] followed by [loadDownloadState] gives the
    ledger back, whenever its keys are valid UTF-8 and the ledger file can
    be written and read (a readable and writable file, or a missing file
    in a writable directory). *)
Theorem X16_save_then_load cfg state f :
  wf_state state -> valid_keys state ->
  can_rewrite f (resumeFile cfg) = true ->
  loadDownloadState cfg (saveDownloadState cfg state f) = state.
Proof.
  intros Hwf Hv Hc. rewrite (load_after_save cfg state f Hwf Hc).
  destruct state as [[m|]]; [|reflexivity]. simpl.
  rewrite reloaded_valid; [reflexivity|].
  intros k v Hk. exact (Hv m k v eq_refl Hk).
Qed.

Lemma plain_state_wf : wf_state plain_state /\ valid_keys plain_state.
Proof.
  split; intros m k v Hm Hk; injection Hm as <-.
  - apply lookup_insert_Some in Hk as [(_ & <-)|(_ & Hk)];
      [vm_compute; split; discriminate|].
    apply lookup_insert_Some in Hk as [(_ & <-)|(_ & Hk)];
      [vm_compute; split; discriminate|].
    rewrite lookup_empty in Hk. discriminate Hk.
  - apply lookup_insert_Some in Hk as [(<- & _)|(_ & Hk)];
      [vm_compute; reflexivity|].
    apply lookup_insert_Some in Hk as [(<- & _)|(_ & Hk)];
      [vm_compute; reflexivity|].
    rewrite lookup_empty in Hk. discriminate Hk.
Qed.

Lemma X16_save_then_load_witness :
  loadDownloadState demo_cfg (saveDownloadState demo_cfg plain_state demo_fs)
  = plain_state.
Proof.
  apply (X16_save_then_load demo_cfg plain_state demo_fs).
  - exact (proj1 plain_state_wf).
  - exact (proj2 plain_state_wf).
  - vm_compute. reflexivity.
Defined.

(** The ledger [loadDownloadState] returns holds [int64] sizes. *)
Lemma load_wf cfg f : wf_state (loadDownloadState cfg f).
Proof.
  unfold loadDownloadState.
  destruct (ReadFile f (resumeFile cfg)) as [data|]; [apply Unmarshal_wf|].
  intros m k v Hm Hk. injection Hm as <-. rewrite lookup_empty in Hk.
  discriminate Hk.
Qed.

(** X17.  After a transfer in which nothing goes wrong, the ledger read
    from disk is the ledger read before it with the entry of the file
    added, its value the number of bytes written: the earlier entries are
    kept and an earlier entry of this file is replaced.  (The ledger file
    exists and is readable and writable, it is not the local target, and
    the keys, the file path among them, are valid UTF-8.) *)
Theorem X17_ledger_after_success cfg net f filePath resp old m :
  transfer_ok cfg net f filePath resp ->
  node_at f (resumeFile cfg) = Some (File true true old) ->
  key (resumeFile cfg) <> key (fileName cfg filePath) ->
  Files (loadDownloadState cfg f) = Some m ->
  (forall k v, m !! k = Some v -> valid k) -> valid filePath ->
  len (Body resp) <= StrconvParse.max_int64 ->
  fst (downloadFile cfg net f filePath) = Downloaded (len (Body resp))
  /\ loadDownloadState cfg (snd (downloadFile cfg net f filePath))
     = {| Files := Some (<[filePath := len (Body resp)]> m) |}.
Proof.
  intros Hok Hled Hne Hm Hv Hvp Hlen.
  destruct (downloadFile_transfer_ok cfg net f filePath resp Hok)
    as (f2 & Hc & ->).
  rewrite Hm. simpl. split; [reflexivity|].
  set (f3 := write f2 (fileName cfg filePath) (Body resp)).
  assert (Hled3 : node_at f3 (resumeFile cfg) = Some (File true true old)).
  { pose proof (MkdirAll_same_files f (saveDir cfg filePath)) as H1.
    pose proof (same_files_node_at_File _ _ _ _ _ _ H1 Hled) as Hl1.
    destruct (copy_spec _ _ f2 (Body resp) Hc) as (_ & Hs).
    pose proof (node_at_File _ _ _ _ _ Hl1) as Hk.
    pose proof (Hs (key (resumeFile cfg)) Hne) as Hk3.
    rewrite (lookup_file_at _ _ _ _ _ Hk) in Hk3. symmetry in Hk3.
    apply file_at_Some in Hk3.
    apply node_at_lookup; [exact (node_at_not_empty _ _ _ Hled)|exact Hk3]. }
  assert (Hcan : can_rewrite f3 (resumeFile cfg) = true)
    by (unfold can_rewrite; rewrite Hled3; reflexivity).
  assert (Hwf : wf_state {| Files := Some (<[filePath := len (Body resp)]> m) |}).
  { intros m' k v Hm' Hk. injection Hm' as <-.
    apply lookup_insert_Some in Hk as [(_ & <-)|(_ & Hk)].
    - split; [|exact Hlen]. unfold len.
      transitivity 0; [vm_compute; discriminate|apply Nat2Z.is_nonneg].
    - exact (load_wf cfg f m k v Hm Hk). }
  rewrite (load_after_save cfg _ f3 Hwf Hcan). simpl. f_equal. f_equal.
  apply reloaded_valid. intros k v Hk.
  apply lookup_insert_Some in Hk as [(<- & _)|(_ & Hk)];
    [exact Hvp|exact (Hv k v Hk)].
Qed.

Lemma ledger_transfer_ok :
  transfer_ok demo_cfg (demo_net three_bytes) ledger_fs "y" three_bytes.
Proof.
  unfold transfer_ok. repeat split; try (vm_compute; reflexivity).
  - intros info Hi. vm_compute in Hi. discriminate Hi.
  - vm_compute. discriminate.
Qed.

Lemma X17_ledger_after_success_witness :
  fst (downloadFile demo_cfg (demo_net three_bytes) ledger_fs "y")
  = Downloaded 3
  /\ loadDownloadState demo_cfg
       (snd (downloadFile demo_cfg (demo_net three_bytes) ledger_fs "y"))
     = {| Files := Some (<["y"%string := 3]>
                           (<["a/b.txt"%string := 100]>
                              (<["x"%string := 0]> ∅))) |}.
Proof.
  apply (X17_ledger_after_success demo_cfg (demo_net three_bytes) ledger_fs
           "y" three_bytes (Json.Marshal plain_state)).
  - exact ledger_transfer_ok.
  - vm_compute. reflexivity.
  - vm_compute. discriminate.
  - vm_compute. reflexivity.
  - exact (fun k v => proj2 plain_state_wf _ k v eq_refl).
  - vm_compute. reflexivity.
  - vm_compute. discriminate.
Defined.

End ClientFacts.

(** * The batch download *)
Module BatchFacts.
Import ClientData Batch.

Section Run.
Variable files : list FileInfo.
Variable concurrency : Z.

#[local] Abbreviation step := (step files concurrency).
#[local] Abbreviation reachable := (reachable files concurrency).
#[local] Abbreviation pending := (pending files).
#[local] Abbreviation weight := (weight files concurrency).
#[local] Abbreviation Inv := (Inv files concurrency).

Lemma sum_map_insert (f : worker -> nat) (ws : list worker) k w w' :
  ws !! k = Some w ->
  (list_sum (List.map f (<[k := w']> ws)) + f w
   = list_sum (List.map f ws) + f w')%nat.
Proof.
  revert k. induction ws as [|x ws IH]; intros [|k] H; simpl in *;
    try discriminate.
  - injection H as ->. lia.
  - specialize (IH k H). lia.
Qed.

Lemma sum_map_app (f : worker -> nat) (ws : list worker) w :
  list_sum (List.map f (ws ++ [w])) = (list_sum (List.map f ws) + f w)%nat.
Proof. rewrite List.map_app, list_sum_app. simpl. lia. Qed.

Lemma Forall_live_no_exited (ws : list worker) :
  Forall (fun w => live w = true) ws -> ~ Exists (fun w => w = Exited) ws.
Proof.
  intros H E. apply Exists_exists in E as (w & Hw & ->).
  rewrite Forall_forall in H. specialize (H _ Hw). discriminate.
Qed.

Lemma Forall_receiving_live (ws : list worker) :
  Forall (fun w => w = Receiving) ws -> Forall (fun w => live w = true) ws.
Proof. intros H. eapply Forall_impl; [exact H|]. intros w ->. reflexivity. Qed.

Lemma Exists_insert_inv (ws : list worker) k w :
  live w = true ->
  Exists (fun x => x = Exited) (<[k := w]> ws) ->
  Exists (fun x => x = Exited) ws.
Proof.
  intros Hw. revert k. induction ws as [|x ws IH]; intros k E.
  - destruct k; exact E.
  - destruct k as [|k]; simpl in E; apply Exists_cons in E as [Hx|Hx];
      apply Exists_cons.
    + rewrite Hx in Hw; discriminate.
    + right. exact Hx.
    + left. exact Hx.
    + right. apply (IH k), Hx.
Qed.

Lemma lookup_Exists (ws : list worker) k w (P : worker -> Prop) :
  ws !! k = Some w -> P w -> Exists P ws.
Proof.
  intros H Hw. apply Exists_exists. exists w. split; [|exact Hw].
  eapply list_elem_of_lookup_2. exact H.
Qed.

Lemma inv_init : Inv init.
Proof.
  split; unfold Batch.pending; simpl.
  - reflexivity.
  - reflexivity.
  - lia.
  - intros E. inversion E.
  - repeat split; try lia. constructor.
Qed.

Lemma live_count_app ws w :
  live_count (ws ++ [w]) = (live_count ws + (if live w then 1 else 0))%nat.
Proof. apply sum_map_app. Qed.

Lemma live_count_insert ws k w w' :
  ws !! k = Some w ->
  (live_count (<[k := w']> ws) + (if live w then 1 else 0)
   = live_count ws + (if live w' then 1 else 0))%nat.
Proof. apply sum_map_insert. Qed.

Lemma inv_step s s' : Inv s -> step s s' -> Inv s'.
Proof.
  intros [Hwg Hperm Hcap Hex Hpc] Hstep.
  unfold Batch.pending in *.
  destruct Hstep as [i s Hp Hlt|i s Hp Hge|file rest s Hp Hlen|s Hp|s Hp
                    |s Hp Hz|k file rest s Hk Ht|k file s Hk|k s Hk Ht Hc];
    try rewrite Hp in *.
  - (* a worker is started *)
    destruct Hpc as (H0 & Hl & Hmax & Ht & Hcalls & Hcl & Hall).
    split; simpl; unfold Batch.pending; simpl.
    + rewrite live_count_app. simpl. lia.
    + exact Hperm.
    + exact Hcap.
    + intros E. exfalso.
      apply (Forall_live_no_exited (workers s ++ [Receiving])); [|exact E].
      apply Forall_app. split; [apply Forall_receiving_live, Hall|].
      constructor; [reflexivity|constructor].
    + rewrite length_app. simpl. repeat split; try lia; try assumption.
      apply Forall_app. split; [exact Hall|].
      constructor; [reflexivity|constructor].
  - (* all workers are started *)
    destruct Hpc as (H0 & Hl & Hmax & Ht & Hcalls & Hcl & Hall).
    split; simpl; unfold Batch.pending; simpl; try assumption.
    repeat split; try lia; try assumption.
    apply Forall_receiving_live, Hall.
  - (* a task is sent *)
    destruct Hpc as (Hl & Hcl & Hall).
    split; simpl; unfold Batch.pending; simpl; try assumption.
    + rewrite List.map_app. simpl in *.
      rewrite <- app_assoc. simpl. exact Hperm.
    + rewrite length_app. simpl in *. lia.
    + intros E. exfalso. exact (Forall_live_no_exited _ Hall E).
    + auto.
  - (* every task has been sent *)
    destruct Hpc as (Hl & Hcl & Hall).
    split; simpl; unfold Batch.pending; simpl; try assumption. auto.
  - (* the channel is closed *)
    destruct Hpc as (Hl & Hcl & Hall).
    split; simpl; unfold Batch.pending; simpl; try assumption.
    + intros E. exfalso. exact (Forall_live_no_exited _ Hall E).
    + auto.
  - (* the wait is over *)
    destruct Hpc as (Hl & Hcl).
    split; simpl; unfold Batch.pending; simpl; try assumption. auto.
  - (* a worker takes a task *)
    assert (Hnoex : ~ Exists (fun w => w = Exited) (workers s)).
    { intros E. destruct (Hex E) as [Hnil _]. congruence. }
    split; simpl; unfold Batch.pending; simpl.
    + pose proof (live_count_insert _ k Receiving (Downloading file) Hk).
      simpl in *. lia.
    + rewrite Ht in Hperm. simpl in Hperm.
      rewrite <- app_assoc. simpl. exact Hperm.
    + rewrite Ht in Hcap. simpl in Hcap. lia.
    + intros E. exfalso. apply Hnoex.
      eapply Exists_insert_inv; [|exact E]. reflexivity.
    + destruct (pc s); rewrite ?length_insert.
      * destruct Hpc as (_ & _ & _ & Hnil & _). congruence.
      * destruct Hpc as (Hl & Hcl & Hall). repeat split; try assumption.
        apply Forall_insert; [exact Hall|reflexivity].
      * destruct Hpc as (Hl & Hcl & Hall). repeat split; try assumption.
        apply Forall_insert; [exact Hall|reflexivity].
      * exact Hpc.
      * exact Hpc.
  - (* downloadFile returns *)
    split; simpl; unfold Batch.pending; simpl; try assumption.
    + pose proof (live_count_insert _ k (Downloading file) Receiving Hk).
      simpl in *. lia.
    + intros E. apply Hex.
      eapply Exists_insert_inv; [|exact E]. reflexivity.
    + destruct (pc s); rewrite ?length_insert.
      * destruct Hpc as (H0 & Hl & Hmax & Hnil & Hcalls & Hcl & Hall).
        repeat split; try assumption.
        apply Forall_insert; [exact Hall|reflexivity].
      * destruct Hpc as (Hl & Hcl & Hall). repeat split; try assumption.
        apply Forall_insert; [exact Hall|reflexivity].
      * destruct Hpc as (Hl & Hcl & Hall). repeat split; try assumption.
        apply Forall_insert; [exact Hall|reflexivity].
      * exact Hpc.
      * exact Hpc.
  - (* a worker leaves *)
    split; simpl; unfold Batch.pending; simpl; try assumption.
    + pose proof (live_count_insert _ k Receiving Exited Hk).
      simpl in *. lia.
    + auto.
    + destruct (pc s); rewrite ?length_insert.
      * destruct Hpc as (_ & _ & _ & _ & _ & Hcl & _). congruence.
      * destruct Hpc as (_ & Hcl & _). congruence.
      * destruct Hpc as (_ & Hcl & _). congruence.
      * exact Hpc.
      * destruct Hpc as (Hl & Hcl & Hz). exfalso.
        pose proof (live_count_insert _ k Receiving Exited Hk) as Hlc.
        simpl in Hlc. lia.
Qed.

Lemma reachable_inv s : reachable s -> Inv s.
Proof.
  induction 1 as [|s s' _ IH Hstep]; [apply inv_init|].
  exact (inv_step s s' IH Hstep).
Qed.

Lemma live_count_zero ws :
  live_count ws = 0%nat -> Forall (fun w => w = Exited) ws.
Proof.
  induction ws as [|w ws IH]; [constructor|].
  unfold live_count. simpl. fold (live_count ws). intros H.
  destruct w; simpl in H; try lia.
  constructor; [reflexivity|]. apply IH. lia.
Qed.

Lemma live_count_pos ws :
  live_count ws <> 0%nat -> exists k w, ws !! k = Some w /\ live w = true.
Proof.
  induction ws as [|w ws IH]; [unfold live_count; simpl; lia|].
  unfold live_count. simpl. fold (live_count ws). intros H.
  destruct (live w) eqn:Hw.
  - exists 0%nat, w. auto.
  - destruct IH as (k & w' & Hk & Hl); [lia|].
    exists (S k), w'. auto.
Qed.

(** Safety at the return of [downloadDirectory]. *)
Lemma returned_all_done s :
  1 <= concurrency -> reachable s -> pc s = Returned ->
  Z.of_nat (List.length (workers s)) = concurrency
  /\ Forall (fun w => w = Exited) (workers s)
  /\ Permutation (calls s) (List.map Path files).
Proof.
  intros HC Hr Hp. destruct (reachable_inv s Hr) as [Hwg Hperm _ Hex Hpc].
  unfold Batch.pending in Hperm. rewrite Hp in *.
  destruct Hpc as (Hl & _ & Hz).
  assert (Hall : Forall (fun w => w = Exited) (workers s)).
  { apply live_count_zero. lia. }
  split; [lia|]. split; [exact Hall|].
  destruct (workers s) as [|w ws] eqn:Hws; [simpl in Hl; lia|].
  destruct Hex as [Hnil _].
  { left. inversion Hall; subst; reflexivity. }
  rewrite Hnil in Hperm. simpl in Hperm. rewrite app_nil_r in Hperm.
  symmetry. exact Hperm.
Qed.

Lemma workers_bounded s :
  0 <= concurrency -> reachable s ->
  Z.of_nat (List.length (workers s)) <= concurrency.
Proof.
  intros HC Hr. destruct (reachable_inv s Hr) as [_ _ _ _ Hpc].
  destruct (pc s); lia.
Qed.

(** No deadlock: a state that has not returned can take a step. *)
Lemma progress s : reachable s -> pc s <> Returned -> exists s', step s s'.
Proof.
  intros Hr Hp. destruct (reachable_inv s Hr) as [Hwg _ Hcap _ Hpc].
  unfold Batch.pending in Hcap.
  destruct (pc s) as [i|[|file rest]| | |] eqn:Epc; try congruence.
  - destruct (Z_lt_dec i concurrency) as [Hlt|Hge].
    + eexists. exact (step_spawn files concurrency i s Epc Hlt).
    + eexists. exact (step_spawned files concurrency i s Epc Hge).
  - eexists. exact (step_sent files concurrency s Epc).
  - eexists. apply (step_send files concurrency file rest s Epc).
    unfold capacity. simpl in Hcap. lia.
  - eexists. exact (step_close files concurrency s Epc).
  - destruct Hpc as (_ & Hcl).
    destruct (Z.eq_dec (wg s) 0) as [Hz|Hnz].
    + eexists. exact (step_wait files concurrency s Epc Hz).
    + destruct (live_count_pos (workers s)) as (k & w & Hk & Hl); [lia|].
      destruct w as [|file|]; try discriminate.
      * destruct (tasks s) as [|file rest] eqn:Ht.
        -- eexists. exact (step_exit files concurrency k s Hk Ht Hcl).
        -- eexists. exact (step_receive files concurrency k file rest s Hk Ht).
      * eexists. exact (step_downloaded files concurrency k file s Hk).
Qed.

(** Every step uses up some of the weight, so every run is finite. *)
Lemma step_weight s s' : step s s' -> (weight s' < weight s)%nat.
Proof.
  intros Hstep. unfold Batch.weight.
  destruct Hstep as [i s Hp Hlt|i s Hp Hge|file rest s Hp Hlen|s Hp|s Hp
                    |s Hp Hz|k file rest s Hk Ht|k file s Hk|k s Hk Ht Hc];
    simpl; try rewrite Hp; simpl.
  - rewrite sum_map_app. simpl. lia.
  - lia.
  - rewrite length_app. simpl. lia.
  - lia.
  - lia.
  - lia.
  - pose proof (sum_map_insert worker_weight _ k Receiving
                  (Downloading file) Hk) as H.
    simpl in H. rewrite Ht. simpl. lia.
  - pose proof (sum_map_insert worker_weight _ k (Downloading file)
                  Receiving Hk) as H.
    simpl in H. lia.
  - pose proof (sum_map_insert worker_weight _ k Receiving Exited Hk) as H.
    simpl in H. lia.
Qed.

End Run.

(** C2.  For a listing that is not empty and a worker count of at least
    one: never more than [concurrency] workers exist, and when
    [downloadDirectory] returns exactly [concurrency] workers were started,
    all of them have terminated, and the [downloadFile] calls made are the
    listed files, each once, whatever the interleaving; moreover a run
    cannot get stuck before the return and every run is finite. *)
Theorem C2_each_file_once files concurrency :
  files <> [] -> 1 <= concurrency ->
  (forall s, reachable files concurrency s ->
     Z.of_nat (List.length (workers s)) <= concurrency)
  /\ (forall s, reachable files concurrency s -> pc s = Returned ->
        Z.of_nat (List.length (workers s)) = concurrency
        /\ Forall (fun w => w = Exited) (workers s)
        /\ Permutation (calls s) (List.map Path files)
        /\ List.length (calls s) = List.length files)
  /\ (forall s, reachable files concurrency s -> pc s <> Returned ->
        exists s', step files concurrency s s')
  /\ (forall s s', step files concurrency s s' ->
        (weight files concurrency s' < weight files concurrency s)%nat).
Proof.
  intros _ HC. split; [|split; [|split]].
  - intros s Hr. apply (workers_bounded files concurrency s); [lia|exact Hr].
  - intros s Hr Hp.
    destruct (returned_all_done files concurrency s HC Hr Hp) as (H1 & H2 & H3).
    repeat split; try assumption.
    apply Permutation_length in H3. rewrite H3. apply length_map.
  - intros s Hr Hp. exact (progress files concurrency s Hr Hp).
  - intros s s' Hs. exact (step_weight files concurrency s s' Hs).
Qed.

(** One step of a run from the state known to be reachable. *)
Ltac fire H rule :=
  lazymatch type of H with
  | reachable ?f ?n ?s =>
      let R := fresh "R" in
      eassert (R : reachable f n _);
      [ eapply (reach_step f n s);
        [ exact H | rule; try reflexivity; try (simpl; lia) ] | ];
      cbn in R; clear H; rename R into H
  end.

Lemma early_state_reachable : reachable two_files 1 early_state.
Proof.
  pose proof (reach_init two_files 1) as H.
  fire H ltac:(eapply (step_spawn _ _ 0)).
  fire H ltac:(eapply (step_spawned _ _ 1)).
  fire H ltac:(eapply step_send).
  fire H ltac:(eapply (step_receive _ _ 0%nat)).
  exact H.
Qed.

Lemma final_state_reachable : reachable two_files 1 final_state.
Proof.
  pose proof early_state_reachable as H. unfold early_state in H.
  fire H ltac:(eapply step_send).
  fire H ltac:(eapply step_sent).
  fire H ltac:(eapply (step_downloaded _ _ 0%nat)).
  fire H ltac:(eapply (step_receive _ _ 0%nat)).
  fire H ltac:(eapply step_close).
  fire H ltac:(eapply (step_downloaded _ _ 0%nat)).
  fire H ltac:(eapply (step_exit _ _ 0%nat)).
  fire H ltac:(eapply step_wait).
  exact H.
Qed.

Lemma C2_each_file_once_witness :
  Z.of_nat (List.length (workers final_state)) = 1
  /\ Forall (fun w => w = Exited) (workers final_state)
  /\ Permutation (calls final_state) (List.map Path two_files)
  /\ List.length (calls final_state) = List.length two_files.
Proof.
  destruct (C2_each_file_once two_files 1 ltac:(discriminate) ltac:(lia))
    as (_ & H & _ & _).
  exact (H final_state final_state_reachable eq_refl).
Defined.

(** With two files and one worker, the worker is already downloading the
    first file while the second has not been sent. *)
Lemma C9_worker_starts_early :
  reachable two_files 1 early_state
  /\ workers early_state = [Downloading {| Path := "a"; Size := 10 |}]
  /\ calls early_state = ["a"%string]
  /\ pending two_files early_state = [ {| Path := "b"; Size := 20 |} ].
Proof.
  split; [exact early_state_reachable|]. repeat split.
Qed.

(** C9, amended.  No send ever blocks (the queue has room for every file),
    nothing has been dequeued while the workers are still being started,
    and every file has been sent before the queue is closed and before any
    worker terminates. *)
Theorem C9_enqueue_order files concurrency s :
  reachable files concurrency s ->
  (forall file rest, pc s = Sending (file :: rest) ->
     (List.length (tasks s) < capacity files)%nat)
  /\ (forall i, pc s = Spawning i -> calls s = [] /\ tasks s = [])
  /\ (closed s = true \/ Exists (fun w => w = Exited) (workers s) ->
      pending files s = []).
Proof.
  intros Hr. destruct (reachable_inv files concurrency s Hr)
    as [_ _ Hcap Hex Hpc].
  split; [|split].
  - intros file rest Hp. unfold Batch.pending in Hcap. rewrite Hp in Hcap.
    unfold capacity. simpl in Hcap. lia.
  - intros i Hp. rewrite Hp in Hpc. tauto.
  - intros H. assert (Hc : closed s = true).
    { destruct H as [H|H]; [exact H|]. apply Hex, H. }
    unfold Batch.pending. destruct (pc s); try reflexivity.
    + destruct Hpc as (_ & _ & _ & _ & _ & Hf & _). congruence.
    + destruct Hpc as (_ & Hf & _). congruence.
Qed.

Lemma C9_enqueue_order_witness :
  (forall file rest, pc early_state = Sending (file :: rest) ->
     (List.length (tasks early_state) < capacity two_files)%nat)
  /\ (closed early_state = true
      \/ Exists (fun w => w = Exited) (workers early_state) ->
      pending two_files early_state = []).
Proof.
  destruct (C9_enqueue_order two_files 1 early_state early_state_reachable)
    as (H1 & _ & H3).
  split; [exact H1|exact H3].
Defined.

End BatchFacts.
(** * The batch download: order of the calls, and a pool without workers *)
Module BatchOrder.
Import ClientData Batch BatchFacts.

Section Run.
Variable files : list FileInfo.
Variable concurrency : Z.

(** The files already handed to [downloadFile], those in the channel and
    those still to be sent make up the listing, in this order. *)
Lemma order_step s s' :
  step files concurrency s s' ->
  (exists done, calls s = List.map Path done
                /\ files = done ++ tasks s ++ pending files s) ->
  exists done, calls s' = List.map Path done
               /\ files = done ++ tasks s' ++ pending files s'.
Proof.
  intros Hs (done & Hc & Hf). unfold pending in *.
  destruct Hs as [i s Hp Hi|i s Hp Hi|file rest s Hp Hcap|s Hp|s Hp|s Hp Hw
                 |k file rest s Hk Ht|k file s Hk|k s Hk Ht Hcl];
    simpl; try rewrite Hp in Hf; try (exists done; split; [exact Hc|]).
  - exact Hf.
  - exact Hf.
  - rewrite <- app_assoc. exact Hf.
  - exact Hf.
  - exact Hf.
  - exact Hf.
  - exists (done ++ [file]). split.
    + rewrite Hc, map_app. reflexivity.
    + rewrite Ht in Hf. rewrite <- app_assoc. exact Hf.
  - exact Hf.
  - exact Hf.
Qed.

Lemma order_reachable s :
  reachable files concurrency s ->
  exists done, calls s = List.map Path done
               /\ files = done ++ tasks s ++ pending files s.
Proof.
  induction 1 as [|s s' Hr IH Hs].
  - exists []. split; [reflexivity|]. unfold pending. simpl.
    reflexivity.
  - exact (order_step s s' Hs IH).
Qed.

(** Every run comes to the return of [downloadDirectory]. *)
Lemma run_returns s :
  reachable files concurrency s ->
  exists s', reachable files concurrency s' /\ pc s' = Returned.
Proof.
  remember (weight files concurrency s) as n eqn:Hn.
  revert s Hn. induction n as [n IH] using lt_wf_ind. intros s Hn Hr.
  destruct (pc s) as [i|rest| | |] eqn:Hp;
    try (destruct (progress files concurrency s Hr ltac:(congruence))
           as (s1 & Hs);
         pose proof (step_weight files concurrency s s1 Hs) as Hw;
         apply (IH (weight files concurrency s1) ltac:(lia) s1 eq_refl);
         exact (reach_step files concurrency s s1 Hr Hs)).
  exists s. split; [exact Hr|exact Hp].
Qed.

(** With a worker count of zero or less no worker is ever started. *)
Lemma no_workers s :
  concurrency <= 0 -> reachable files concurrency s -> workers s = [].
Proof.
  intros HC Hr. destruct (reachable_inv files concurrency s Hr)
    as [_ _ _ _ Hpc].
  destruct (workers s) as [|w ws]; [reflexivity|]. exfalso.
  simpl List.length in Hpc. destruct (pc s); lia.
Qed.

Lemma no_workers_no_calls s :
  concurrency <= 0 -> reachable files concurrency s -> calls s = [].
Proof.
  intros HC Hr. induction Hr as [|s s' Hr IH Hs]; [reflexivity|].
  pose proof (no_workers s HC Hr) as Hw.
  destruct Hs; simpl; try exact IH.
  match goal with H : workers _ !! _ = Some _ |- _ =>
    rewrite Hw in H; discriminate H end.
Qed.

End Run.



(** X2.  With a worker count of zero or less [downloadDirectory] starts no
    worker and calls [downloadFile] for no file; it still sends every file,
    closes the channel and returns, leaving the whole listing in the
    channel. *)
Theorem X2_no_worker_no_download files concurrency :
  concurrency <= 0 ->
  (forall s, reachable files concurrency s ->
     workers s = [] /\ calls s = []
     /\ (pc s = Returned -> tasks s = files))
  /\ exists s, reachable files concurrency s /\ pc s = Returned.
Proof.
  intros HC. split.
  - intros s Hr. split; [exact (no_workers files concurrency s HC Hr)|].
    pose proof (no_workers_no_calls files concurrency s HC Hr) as Hc.
    split; [exact Hc|]. intros Hp.
    destruct (order_reachable files concurrency s Hr) as (done & Hd & Hf).
    unfold pending in Hf. rewrite Hp in Hf. rewrite Hc in Hd.
    destruct done; [|discriminate Hd].
    rewrite Hf. simpl. rewrite app_nil_r. reflexivity.
  - exact (run_returns files concurrency _ (reach_init files concurrency)).
Qed.

Lemma X2_no_worker_no_download_witness :
  (forall s, reachable two_files 0 s ->
     workers s = [] /\ calls s = [] /\ (pc s = Returned -> tasks s = two_files))
  /\ exists s, reachable two_files 0 s /\ pc s = Returned.
Proof.
  exact (X2_no_worker_no_download two_files 0 ltac:(lia)).
Defined.

End BatchOrder.
(** * The server handlers: which requests pass the prefix test, and how
    the request path is decoded *)
Module ServerMore.
Import Strings Url Filepath Strconv Os Walker Server ServerSpec PathFacts.
Import ServerFacts UrlSpec.

Abbreviation proper := (fun s : string => proper_name s = true).

(** *** [Join] of the root and a path of several elements *)

Lemma clean_step_up d out ups :
  clean_step true (d :: out, ups) ".." = (out, ups).
Proof. reflexivity. Qed.

Lemma Clean_rooted l :
  l <> [] -> Forall (fun s => has_slash s = false) l ->
  Clean (String "/" (join_slash l)) = abs_path (clean_elems true l).
Proof.
  intros Hne Hl. unfold Clean. simpl String.eqb. simpl is_rooted. cbv iota.
  rewrite split_slash_cons_slash, split_join by assumption.
  reflexivity.
Qed.

Lemma abs_path_slash rs ys :
  ys <> [] ->
  abs_path rs +:+ "/" +:+ join_slash ys
  = String "/" (join_slash ((if rs is [] then [EmptyString] else rs) ++ ys)).
Proof.
  intros Hy. unfold abs_path. rewrite append_cons. f_equal.
  destruct rs as [|r rs].
  - simpl. destruct ys; [congruence|]. reflexivity.
  - rewrite join_slash_app by (discriminate || assumption).
    rewrite append_cons, append_nil_l. reflexivity.
Qed.

Lemma Join_abs_elems rs ys :
  Forall proper rs -> ys <> [] -> Forall (fun s => has_slash s = false) ys ->
  Join (abs_path rs) (join_slash ys) = abs_path (clean_elems true (rs ++ ys)).
Proof.
  intros Hr Hy Hs. unfold Join. simpl String.eqb. simpl negb. cbv iota.
  rewrite abs_path_slash by exact Hy.
  rewrite Clean_rooted.
  - destruct rs; reflexivity.
  - destruct rs; discriminate.
  - apply Forall_app. split; [|exact Hs].
    destruct rs; [repeat constructor|]. apply Forall_proper_no_slash, Hr.
Qed.

(** A path of proper names below the root. *)
Lemma Join_abs_below rs ys :
  Forall proper rs -> Forall proper ys ->
  Join (abs_path rs) (join_slash ys) = abs_path (rs ++ ys).
Proof.
  intros Hr Hy. destruct ys as [|y ys].
  - rewrite app_nil_r. unfold Join. simpl String.eqb. simpl negb. cbv iota.
    change (join_slash []) with EmptyString.
    replace (abs_path rs +:+ "/" +:+ "")
      with (String "/" (join_slash ((if rs is [] then [EmptyString] else rs)
                                      ++ [EmptyString]))).
    + rewrite Clean_rooted.
      * unfold clean_elems.
        rewrite clean_fold_proper.
        -- simpl. rewrite app_nil_r, rev_involutive.
           rewrite List.filter_app. simpl. rewrite app_nil_r.
           destruct rs; [reflexivity|]. rewrite filter_proper by exact Hr.
           reflexivity.
        -- apply Forall_app. split; [|repeat constructor].
           destruct rs; [repeat constructor|]. apply Forall_proper_blank, Hr.
      * destruct rs; discriminate.
      * apply Forall_app. split; [|repeat constructor].
        destruct rs; [repeat constructor|]. apply Forall_proper_no_slash, Hr.
    + unfold abs_path. rewrite append_cons. f_equal.
      destruct rs as [|r rs]; [reflexivity|].
      rewrite join_slash_snoc by discriminate. reflexivity.
  - rewrite Join_abs_elems; [|exact Hr|discriminate
                             |apply Forall_proper_no_slash, Hy].
    rewrite clean_elems_proper.
    + rewrite filter_proper; [reflexivity|].
      apply Forall_app. split; assumption.
    + apply Forall_proper_blank, Forall_app. split; assumption.
Qed.

(** One step up from the root, then down again. *)
Lemma Join_abs_up rs d ys :
  Forall proper rs -> proper d -> Forall proper ys ->
  Join (abs_path (rs ++ [d])) (join_slash (".."%string :: ys))
  = abs_path (rs ++ ys).
Proof.
  intros Hr Hd Hy.
  assert (Hrd : Forall proper (rs ++ [d]))
    by (apply Forall_app; split; [exact Hr|repeat constructor; exact Hd]).
  rewrite Join_abs_elems; [|exact Hrd|discriminate|].
  2:{ constructor; [reflexivity|]. apply Forall_proper_no_slash, Hy. }
  f_equal. unfold clean_elems.
  rewrite fold_left_app, clean_fold_proper by (apply Forall_proper_blank, Hrd).
  rewrite filter_proper by exact Hrd.
  rewrite rev_app_distr. simpl rev. simpl app.
  change (fold_left (clean_step true) (".."%string :: ys)
            (d :: rev rs ++ [], 0%nat))
    with (fold_left (clean_step true) ys (rev rs ++ [], 0%nat)).
  rewrite clean_fold_proper by (apply Forall_proper_blank, Hy).
  rewrite filter_proper by exact Hy. simpl.
  rewrite app_nil_r, rev_app_distr, !rev_involutive. reflexivity.
Qed.

(** *** The prefix test on a sibling of the root *)

Lemma HasPrefix_common p a b :
  HasPrefix (p +:+ a) (p +:+ b) = HasPrefix a b.
Proof.
  induction p as [|c p IH]; [rewrite !append_nil_l; reflexivity|].
  rewrite !append_cons. simpl. rewrite Ascii.eqb_refl. exact IH.
Qed.

(** A name followed by a separator begins with [d] only if the name
    does. *)
Lemma HasPrefix_name d : forall x t,
  has_slash d = false ->
  HasPrefix (x +:+ String "/" t) d = HasPrefix x d.
Proof.
  induction d as [|c d IH]; intros x t Hd; [reflexivity|].
  simpl in Hd. apply orb_false_iff in Hd as (Hc & Hd).
  destruct x as [|e x].
  - rewrite append_nil_l. simpl. rewrite Hc. reflexivity.
  - rewrite append_cons. simpl. rewrite IH by exact Hd. reflexivity.
Qed.

Lemma HasPrefix_join rs x ys d :
  has_slash d = false ->
  HasPrefix (join_slash (rs ++ x :: ys)) (join_slash (rs ++ [d]))
  = HasPrefix x d.
Proof.
  intros Hd. induction rs as [|r rs IH].
  - simpl app. change (join_slash [d]) with d.
    destruct ys as [|y ys]; [reflexivity|].
    rewrite join_slash_cons. apply HasPrefix_name, Hd.
  - change ((r :: rs) ++ x :: ys) with (r :: (rs ++ x :: ys)).
    change ((r :: rs) ++ [d]) with (r :: (rs ++ [d])).
    assert (H1 : exists z zs, rs ++ x :: ys = z :: zs)
      by (destruct rs; simpl; eauto).
    assert (H2 : exists z zs, rs ++ [d] = z :: zs)
      by (destruct rs; simpl; eauto).
    destruct H1 as (z1 & zs1 & E1), H2 as (z2 & zs2 & E2).
    rewrite E1, E2, !join_slash_cons, <- E1, <- E2.
    change (String "/" (join_slash (rs ++ x :: ys)))
      with ("/" +:+ join_slash (rs ++ x :: ys)).
    change (String "/" (join_slash (rs ++ [d])))
      with ("/" +:+ join_slash (rs ++ [d])).
    rewrite <- !append_assoc, HasPrefix_common. exact IH.
Qed.

Lemma HasPrefix_sibling rs x ys d :
  has_slash d = false ->
  HasPrefix (abs_path (rs ++ x :: ys)) (abs_path (rs ++ [d])) = HasPrefix x d.
Proof.
  intros Hd. unfold abs_path. simpl. apply HasPrefix_join, Hd.
Qed.

(** X9.  The prefix test on a request that climbs out of the root
    directory by one [..] and descends into a sibling [x]: both handlers
    answer 403 exactly when the sibling's name does not begin with the
    name of the root directory; a sibling whose name extends the root's
    (root [a], sibling [ab]) is let through with everything below it. *)
Theorem X9_sibling_rejected_iff rs d x ys fs param path :
  Forall proper rs -> proper d -> proper x -> Forall proper ys ->
  slice_from_1 param = Some path ->
  QueryUnescape path = Some (join_slash (".."%string :: x :: ys)) ->
  (download_handler (abs_path (rs ++ [d])) fs param
   = JSONError StatusForbidden AccessDenied
   <-> HasPrefix x d = false)
  /\ (list_handler (abs_path (rs ++ [d])) fs param
      = JSONError StatusForbidden AccessDenied
      <-> HasPrefix x d = false).
Proof.
  intros Hr Hd Hx Hy Hs Hq.
  assert (Hxy : Forall proper (x :: ys)) by (constructor; assumption).
  rewrite (download_forbidden_iff _ fs param path _ Hs Hq).
  rewrite (list_forbidden_iff _ fs param path _ Hs Hq).
  rewrite (Join_abs_up rs d (x :: ys) Hr Hd Hxy).
  rewrite HasPrefix_sibling by (apply proper_name_no_slash, Hd).
  split; reflexivity.
Qed.

Lemma X9_sibling_rejected_iff_witness :
  (download_handler "/data/a" sibling_fs "/../b/secret"
   = JSONError StatusForbidden AccessDenied
   <-> HasPrefix "b" "a" = false)
  /\ (list_handler "/data/a" sibling_fs "/../b/secret"
      = JSONError StatusForbidden AccessDenied
      <-> HasPrefix "b" "a" = false).
Proof.
  apply (X9_sibling_rejected_iff ["data"%string] "a" "b" ["secret"%string]
           sibling_fs "/../b/secret" "../b/secret");
    try (repeat constructor); reflexivity.
Defined.

(** X10.  A request path made of proper names (no empty element, no [.],
    no [..]) always passes the prefix test: neither handler answers 403,
    and the path resolved is the root followed by these names. *)
Theorem X10_below_root_admitted rs ds fs param path :
  Forall proper rs -> Forall proper ds ->
  slice_from_1 param = Some path ->
  QueryUnescape path = Some (join_slash ds) ->
  Join (abs_path rs) (join_slash ds) = abs_path (rs ++ ds)
  /\ download_handler (abs_path rs) fs param
     <> JSONError StatusForbidden AccessDenied
  /\ list_handler (abs_path rs) fs param
     <> JSONError StatusForbidden AccessDenied.
Proof.
  intros Hr Hd Hs Hq.
  pose proof (Join_abs_below rs ds Hr Hd) as Hj.
  split; [exact Hj|].
  rewrite (download_forbidden_iff _ fs param path _ Hs Hq).
  rewrite (list_forbidden_iff _ fs param path _ Hs Hq).
  rewrite Hj, HasPrefix_abs_path. split; discriminate.
Qed.

Lemma X10_below_root_admitted_witness :
  Join "/srv" "b/c" = "/srv/b/c"%string
  /\ download_handler "/srv" listing_fs "/b/c"
     <> JSONError StatusForbidden AccessDenied
  /\ list_handler "/srv" listing_fs "/b/c"
     <> JSONError StatusForbidden AccessDenied.
Proof.
  apply (X10_below_root_admitted ["srv"%string] ["b"%string; "c"%string]
           listing_fs "/b/c" "b/c");
    try (repeat constructor); reflexivity.
Defined.

(** *** Decoding the request path *)

Lemma QueryUnescape_no_percent s :
  has_percent s = false -> QueryUnescape s = Some (plus_to_space s).
Proof.
  induction s as [|c s IH]; [reflexivity|]. simpl. intros H.
  apply orb_false_iff in H as (Hc & Hs). rewrite Hc, (IH Hs). reflexivity.
Qed.

Lemma has_percent_plus_to_space s :
  has_percent (plus_to_space s) = has_percent s.
Proof.
  induction s as [|c s IH]; [reflexivity|]. simpl. rewrite IH. f_equal.
  destruct (Ascii.eqb_spec c "+") as [->|_]; reflexivity.
Qed.

Lemma plus_to_space_idem s :
  plus_to_space (plus_to_space s) = plus_to_space s.
Proof.
  induction s as [|c s IH]; [reflexivity|]. simpl. rewrite IH. f_equal.
  destruct (Ascii.eqb c "+") eqn:E; [reflexivity|].
  rewrite E. reflexivity.
Qed.

(** X11.  The handlers read a [+] in the request path as a space: a
    request path without [%] is answered exactly as the path with every
    [+] replaced by a space, so a file whose name contains [+] is never
    the one looked up under that name. *)
Theorem X11_plus_read_as_space absPath fs c s :
  has_percent s = false ->
  QueryUnescape s = Some (plus_to_space s)
  /\ download_handler absPath fs (String c s)
     = download_handler absPath fs (String c (plus_to_space s))
  /\ list_handler absPath fs (String c s)
     = list_handler absPath fs (String c (plus_to_space s)).
Proof.
  intros H. pose proof (QueryUnescape_no_percent s H) as H1.
  assert (H2 : QueryUnescape (plus_to_space s) = Some (plus_to_space s)).
  { rewrite QueryUnescape_no_percent
      by (rewrite has_percent_plus_to_space; exact H).
    rewrite plus_to_space_idem. reflexivity. }
  split; [exact H1|].
  unfold download_handler, list_handler, slice_from_1.
  rewrite H1, H2. split; reflexivity.
Qed.

Lemma X11_plus_read_as_space_witness :
  QueryUnescape "a+b" = Some "a b"%string
  /\ download_handler "/srv" listing_fs "/a+b"
     = download_handler "/srv" listing_fs "/a b"
  /\ list_handler "/srv" listing_fs "/a+b"
     = list_handler "/srv" listing_fs "/a b".
Proof.
  exact (X11_plus_read_as_space "/srv" listing_fs "/" "a+b" eq_refl).
Defined.

(** A [%] that is not followed by two hexadecimal digits makes the
    decoding fail, wherever it stands. *)
Lemma QueryUnescape_bad_escape n : forall pre suf,
  (String.length pre <= n)%nat -> two_hex suf = false ->
  QueryUnescape (pre +:+ String "%" suf) = None.
Proof.
  induction n as [n IH] using lt_wf_ind. intros pre suf Hn Hs.
  destruct pre as [|c pre].
  - rewrite append_nil_l. simpl.
    destruct suf as [|h1 [|h2 r]]; try reflexivity.
    simpl in Hs. rewrite Hs. reflexivity.
  - rewrite append_cons. simpl in Hn.
    change (QueryUnescape (String c (pre +:+ String "%" suf)))
      with (if Ascii.eqb c "%" then
              match pre +:+ String "%" suf with
              | String h1 (String h2 r') =>
                  if ishex h1 && ishex h2 then
                    match QueryUnescape r' with
                    | Some t =>
                        Some (String (ascii_of_N (unhex h1 * 16 + unhex h2)) t)
                    | None => None
                    end
                  else None
              | _ => None
              end
            else
              match QueryUnescape (pre +:+ String "%" suf) with
              | Some t =>
                  Some (String (if Ascii.eqb c "+" then " "%char else c) t)
              | None => None
              end).
    destruct (Ascii.eqb c "%").
    + destruct pre as [|h1 [|h2 pre]].
      * rewrite append_nil_l. destruct suf; reflexivity.
      * rewrite append_cons, append_nil_l.
        rewrite andb_false_r. reflexivity.
      * rewrite !append_cons. simpl in Hn.
        rewrite (IH (String.length pre)) by (lia || assumption).
        destruct (ishex h1 && ishex h2); reflexivity.
    + rewrite (IH (String.length pre)) by (lia || assumption). reflexivity.
Qed.

(** And the decoding fails for no other reason. *)
Lemma QueryUnescape_None n : forall s,
  (String.length s <= n)%nat -> QueryUnescape s = None ->
  exists pre suf, s = pre +:+ String "%" suf /\ two_hex suf = false.
Proof.
  induction n as [n IH] using lt_wf_ind. intros s Hn H.
  destruct s as [|c s]; [discriminate H|]. simpl in Hn.
  change (QueryUnescape (String c s))
    with (if Ascii.eqb c "%" then
            match s with
            | String h1 (String h2 r') =>
                if ishex h1 && ishex h2 then
                  match QueryUnescape r' with
                  | Some t =>
                      Some (String (ascii_of_N (unhex h1 * 16 + unhex h2)) t)
                  | None => None
                  end
                else None
            | _ => None
            end
          else
            match QueryUnescape s with
            | Some t =>
                Some (String (if Ascii.eqb c "+" then " "%char else c) t)
            | None => None
            end) in H.
  destruct (Ascii.eqb_spec c "%") as [->|Hc].
  - destruct s as [|h1 [|h2 r]].
    + exists EmptyString, EmptyString. split; reflexivity.
    + exists EmptyString, (String h1 EmptyString). split; reflexivity.
    + destruct (ishex h1 && ishex h2) eqn:Hh.
      * destruct (QueryUnescape r) eqn:Hr; [discriminate H|].
        simpl in Hn.
        destruct (IH (String.length r) ltac:(lia) r (le_n _) Hr)
          as (pre & suf & -> & Hs).
        exists (String "%" (String h1 (String h2 pre))), suf.
        split; [|exact Hs]. rewrite !append_cons. reflexivity.
      * exists EmptyString, (String h1 (String h2 r)).
        split; [reflexivity|exact Hh].
  - destruct (QueryUnescape s) eqn:Hr; [discriminate H|].
    destruct (IH (String.length s) ltac:(lia) s (le_n _) Hr)
      as (pre & suf & -> & Hs).
    exists (String c pre), suf. split; [|exact Hs].
    rewrite append_cons. reflexivity.
Qed.

(** X13.  The handlers answer 400 "invalid path" exactly when the request
    path, after its leading slash, holds a [%] that is not followed by two
    hexadecimal digits. *)
Theorem X13_bad_escape_rejected absPath fs c s :
  let bad := exists pre suf,
               s = pre +:+ String "%" suf /\ two_hex suf = false in
  (download_handler absPath fs (String c s)
   = JSONError StatusBadRequest InvalidFilePath <-> bad)
  /\ (list_handler absPath fs (String c s)
      = JSONError StatusBadRequest InvalidDirPath <-> bad).
Proof.
  intros bad.
  assert (Hbad : QueryUnescape s = None <-> bad).
  { split.
    - apply (QueryUnescape_None (String.length s)), le_n.
    - intros (pre & suf & -> & Hs).
      apply (QueryUnescape_bad_escape (String.length pre)); [apply le_n|].
      exact Hs. }
  rewrite <- Hbad. unfold download_handler, list_handler, slice_from_1.
  destruct (QueryUnescape s) as [decoded|]; [|split; split; reflexivity].
  cbv zeta.
  split; (split; [|discriminate]).
  - destruct (negb _); [discriminate|].
    destruct (Stat fs _) as [info|]; [|discriminate].
    destruct (IsDir info); [discriminate|]. unfold ServeFile.
    destruct (node_at fs _) as [[]|]; discriminate.
  - destruct (negb _); [discriminate|].
    destruct (Stat fs _) as [info|]; [|discriminate].
    destruct (negb (IsDir info)); [discriminate|].
    destruct (Walk _ _ _ _) as [files [e|]]; discriminate.
Qed.

(** *** The client's escaping against the server's decoding *)




End ServerMore.
(** * The directories [listServerContent] prints *)
Module ListFacts.
Import Strings Filepath ClientData ClientList ServerSpec PathFacts.

Abbreviation proper := (fun s : string => proper_name s = true).

Lemma proper_not_rooted x r : proper x -> is_rooted (x +:+ r) = false.
Proof.
  intros H. destruct (proper_name_inv _ H) as (H1 & _ & _ & H4).
  destruct x as [|c x]; [discriminate H1|].
  rewrite append_cons. simpl in H4 |- *.
  apply orb_false_iff in H4 as (H4 & _). exact H4.
Qed.

Lemma join_proper_head d ds :
  exists r, join_slash (d :: ds) = d +:+ r.
Proof.
  destruct ds as [|e ds].
  - exists EmptyString. rewrite JsonFacts.append_nil_r. reflexivity.
  - rewrite join_slash_cons. eauto.
Qed.

Lemma join_proper_not_blank d ds :
  proper d -> String.eqb (join_slash (d :: ds)) "" = false
              /\ String.eqb (join_slash (d :: ds)) "." = false.
Proof.
  intros H. destruct (proper_name_inv _ H) as (H1 & H2 & _ & _).
  destruct ds as [|e ds]; [simpl; auto|].
  rewrite join_slash_cons.
  destruct d as [|c [|c' d]]; [discriminate H1| |].
  - rewrite append_cons, append_nil_l. split; [reflexivity|].
    simpl. destruct (Ascii.eqb c "."); reflexivity.
  - rewrite !append_cons. split; [reflexivity|]. simpl.
    destruct (Ascii.eqb c "."); reflexivity.
Qed.

(** [filepath.Dir] of a relative path of proper names: the path without
    its last element, [.] when there is only one. *)
Lemma Dir_join ds x :
  Forall proper ds -> proper x ->
  Filepath.Dir (join_slash (ds ++ [x]))
  = if ds is [] then "."%string else join_slash ds.
Proof.
  intros Hd Hx. unfold Filepath.Dir, dir_prefix.
  assert (Hall : Forall (fun s => has_slash s = false) (ds ++ [x])).
  { apply Forall_app. split; [apply Forall_proper_no_slash, Hd|].
    constructor; [apply proper_name_no_slash, Hx|constructor]. }
  rewrite split_join by (destruct ds; discriminate || exact Hall).
  rewrite rev_app_distr. simpl rev. simpl app.
  destruct ds as [|d ds]; [reflexivity|].
  assert (Hr : exists y ys, rev (d :: ds) = y :: ys).
  { destruct (rev (d :: ds)) as [|y ys] eqn:E; [|eauto].
    apply (f_equal (@List.length string)) in E.
    rewrite length_rev in E. discriminate E. }
  destruct Hr as (y & ys & Er). rewrite Er, <- Er, rev_involutive.
  inversion Hd as [|? ? Hd1 Hds]; subst.
  rewrite <- (join_slash_snoc (d :: ds) EmptyString) by discriminate.
  unfold Clean.
  destruct (join_proper_head d (ds ++ [EmptyString])) as (r & Ej).
  change ((d :: ds) ++ [EmptyString]) with (d :: (ds ++ [EmptyString])).
  destruct (join_proper_not_blank d (ds ++ [EmptyString]) Hd1) as (Hb & _).
  rewrite Hb. rewrite Ej at 1. rewrite (proper_not_rooted d r Hd1).
  rewrite split_join.
  - rewrite clean_elems_proper.
    + change (d :: ds ++ [EmptyString]) with ((d :: ds) ++ [EmptyString]).
      rewrite List.filter_app.
      change (List.filter (fun s => negb (String.eqb s "")) [EmptyString])
        with (@nil string).
      rewrite app_nil_r, filter_proper by exact Hd.
      destruct (join_proper_not_blank d ds Hd1) as (Hb' & _).
      rewrite Hb'. reflexivity.
    + constructor; [right; exact Hd1|].
      apply Forall_app. split; [apply Forall_proper_blank, Hds|].
      constructor; [left; reflexivity|constructor].
  - discriminate.
  - constructor; [apply proper_name_no_slash, Hd1|].
    apply Forall_app. split; [apply Forall_proper_no_slash, Hds|].
    constructor; [reflexivity|constructor].
Qed.

Lemma listed_dirs_spec files : forall (acc : gset string) d,
  d ∈ fold_left
        (fun (dirs : gset string) (file : FileInfo) =>
           let dir := Filepath.Dir (Path file) in
           if negb (String.eqb dir ".") then {[ dir ]} ∪ dirs else dirs)
        files acc
  <-> d ∈ acc
      \/ (d <> "."%string
          /\ exists file, In file files /\ Filepath.Dir (Path file) = d).
Proof.
  induction files as [|file files IH]; intros acc d.
  - simpl. split; [auto|]. intros [H|(_ & ? & [] & _)]. exact H.
  - simpl fold_left. rewrite IH. cbv zeta.
    destruct (String.eqb (Filepath.Dir (Path file)) ".") eqn:E; simpl negb;
      cbv iota.
    + apply String.eqb_eq in E. split.
      * intros [H|(Hd & f & Hin & Hf)]; [auto|].
        right. split; [exact Hd|]. exists f. split; [right; exact Hin|exact Hf].
      * intros [H|(Hd & f & [<-|Hin] & Hf)]; [auto|congruence|].
        right. split; [exact Hd|]. exists f. split; assumption.
    + apply String.eqb_neq in E. rewrite elem_of_union, elem_of_singleton.
      split.
      * intros [[->|H]|(Hd & f & Hin & Hf)]; [|auto|].
        -- right. split; [exact E|]. exists file. split; [left|]; reflexivity.
        -- right. split; [exact Hd|]. exists f.
           split; [right; exact Hin|exact Hf].
      * intros [H|(Hd & f & [<-|Hin] & Hf)]; [auto|auto|].
        right. split; [exact Hd|]. exists f. split; assumption.
Qed.

(** X18.  For a listing whose paths are made of proper names,
    [listServerContent] collects exactly the immediate parent directories
    of the listed files: a directory is printed if and only if some listed
    file lies directly in it; files at the top of the listing add nothing,
    and a directory that holds only subdirectories is not printed. *)
Theorem X18_listed_dirs files d :
  Forall (fun file => exists ds x,
            Forall proper ds /\ proper x
            /\ Path file = join_slash (ds ++ [x])) files ->
  d ∈ listed_dirs files
  <-> exists ds x,
        ds <> [] /\ Forall proper ds /\ proper x
        /\ In (join_slash (ds ++ [x])) (List.map Path files)
        /\ d = join_slash ds.
Proof.
  intros Hf. unfold listed_dirs. rewrite listed_dirs_spec. split.
  - intros [H|(Hd & file & Hin & Hdir)]; [set_solver|].
    rewrite Forall_forall in Hf.
    destruct (Hf file (proj2 (list_elem_of_In _ _) Hin))
      as (ds & x & Hds & Hx & Hp).
    rewrite Hp, (Dir_join ds x Hds Hx) in Hdir.
    destruct ds as [|d0 ds]; [congruence|].
    exists (d0 :: ds), x. repeat split; try assumption; try discriminate.
    + rewrite <- Hp. apply in_map, Hin.
    + congruence.
  - intros (ds & x & Hne & Hds & Hx & Hin & ->). right.
    destruct ds as [|d0 ds]; [congruence|].
    inversion Hds as [|? ? Hd0 _]; subst. split.
    + intros E. destruct (join_proper_not_blank d0 ds Hd0) as (_ & Hb).
      rewrite E in Hb. discriminate Hb.
    + apply in_map_iff in Hin as (file & Hp & Hin). exists file.
      split; [exact Hin|]. rewrite Hp. apply (Dir_join (d0 :: ds) x Hds Hx).
Qed.

Lemma X18_listed_dirs_witness :
  "b"%string ∈ listed_dirs [ {| Path := "a"; Size := 10 |};
                             {| Path := "b/c"; Size := 20 |} ]
  <-> exists ds x,
        ds <> [] /\ Forall proper ds /\ proper x
        /\ In (join_slash (ds ++ [x])) ["a"%string; "b/c"%string]
        /\ "b"%string = join_slash ds.
Proof.
  apply (X18_listed_dirs [ {| Path := "a"; Size := 10 |};
                           {| Path := "b/c"; Size := 20 |} ] "b").
  repeat constructor.
  - exists [], "a"%string. repeat split; constructor.
  - exists ["b"%string], "c"%string. repeat split; repeat constructor.
Defined.

End ListFacts.
(** * The listing from the server to the client *)
Module ListingFacts.
Import Strings Utf8 StrconvParse ClientData Json PathFacts.
Import JsonSpec JsonFacts Client ListingJson ClientDir ListingSpec.

Lemma quote_app s rest :
  quote s +:+ rest = String dquote (quote_body s +:+ String dquote rest).
Proof.
  unfold quote. rewrite append_cons, append_assoc, append_cons, append_nil_l.
  reflexivity.
Qed.

Lemma parse_value_string fuel depth s rest :
  parse_value (S fuel) depth (quote s +:+ rest) = Some (Str (coerce s), rest).
Proof.
  rewrite quote_app. simpl parse_value.
  change (is_space dquote) with false. cbv iota.
  change (isb dquote "{") with false. change (isb dquote "[") with false.
  change (isb dquote dquote) with true. cbv iota.
  rewrite scan_quote_coerce. reflexivity.
Qed.

Lemma encode_record_app r rest :
  encode_record r +:+ rest
  = String "{"
      (quote "path"
       +:+ String ":"
             (quote (Server.Path r)
              +:+ String ","
                    (quote "size"
                     +:+ String ":"
                           (Strconv.FormatInt (Server.FSize r)
                            +:+ String "}" rest)))).
Proof.
  unfold encode_record.
  rewrite !append_assoc, !append_cons, !append_nil_l. reflexivity.
Qed.

Lemma parse_value_record fuel depth r rest :
  (depth + 1 <= maxNestingDepth)%N ->
  parse_value (S (S (S (S fuel)))) depth (encode_record r +:+ rest)
  = Some (record_value r, rest).
Proof.
  intros Hd. rewrite encode_record_app.
  rewrite quote_app.
  erewrite (parse_value_object _ depth _ dquote);
    [|exact Hd|reflexivity|reflexivity].
  rewrite <- quote_app.
  rewrite parse_members_S, quote_app.
  rewrite skip_space_cons by reflexivity.
  change (isb dquote dquote) with true. cbv iota.
  rewrite scan_quote_coerce.
  rewrite skip_space_cons by reflexivity.
  change (isb ":" ":") with true. cbv iota.
  rewrite parse_value_string.
  rewrite skip_space_cons by reflexivity.
  change (isb "," ",") with true. cbv iota.
  rewrite parse_members_S, quote_app.
  rewrite skip_space_cons by reflexivity.
  change (isb dquote dquote) with true. cbv iota.
  rewrite scan_quote_coerce.
  rewrite skip_space_cons by reflexivity.
  change (isb ":" ":") with true. cbv iota.
  rewrite parse_value_number by reflexivity.
  rewrite skip_space_cons by reflexivity.
  reflexivity.
Qed.

Lemma parse_elements_S fuel depth s :
  parse_elements (S fuel) depth s
  = match parse_value fuel depth s with
    | None => None
    | Some (v, r1) =>
        match skip_space r1 with
        | EmptyString => None
        | String c r2 =>
            if isb c "," then
              match parse_elements fuel depth r2 with
              | Some (vs, rest) => Some (v :: vs, rest)
              | None => None
              end
            else if isb c "]" then Some ([v], r2)
            else None
        end
    end.
Proof. reflexivity. Qed.

Lemma parse_elements_records l : forall fuel depth rest,
  l <> [] -> (List.length l + 4 <= fuel)%nat ->
  (depth + 1 <= maxNestingDepth)%N ->
  parse_elements fuel depth
    (String.concat "," (List.map encode_record l) +:+ String "]" rest)
  = Some (List.map record_value l, rest).
Proof.
  induction l as [|r l IH]; intros fuel depth rest Hne Hf Hd; [congruence|].
  simpl List.length in Hf.
  do 5 (destruct fuel as [|fuel]; [lia|]).
  rewrite parse_elements_S.
  destruct l as [|r' l].
  - simpl List.map. simpl String.concat.
    rewrite (parse_value_record fuel depth r _ Hd).
    rewrite skip_space_cons by reflexivity. reflexivity.
  - change (List.map encode_record (r :: r' :: l))
      with (encode_record r :: encode_record r' :: List.map encode_record l).
    rewrite concat_cons2, !append_assoc.
    change (encode_record r' :: List.map encode_record l)
      with (List.map encode_record (r' :: l)).
    rewrite append_cons, append_nil_l.
    rewrite (parse_value_record fuel depth r _ Hd).
    rewrite skip_space_cons by reflexivity.
    change (isb "," ",") with true. cbv iota.
    rewrite (IH (S (S (S (S fuel)))) depth rest)
      by (discriminate || (simpl in *; lia) || exact Hd).
    reflexivity.
Qed.

Lemma length_record r : (1 <= String.length (encode_record r))%nat.
Proof.
  rewrite <- (append_nil_r (encode_record r)), encode_record_app.
  simpl. lia.
Qed.

Lemma length_records l :
  (List.length l
   <= String.length (String.concat "," (List.map encode_record l)))%nat.
Proof.
  induction l as [|r l IH]; [simpl; lia|].
  destruct l as [|r' l].
  - simpl. apply length_record.
  - change (List.map encode_record (r :: r' :: l))
      with (encode_record r :: encode_record r' :: List.map encode_record l).
    rewrite concat_cons2.
    change (encode_record r' :: List.map encode_record l)
      with (List.map encode_record (r' :: l)).
    remember (String.concat "," (List.map encode_record (r' :: l))) as C.
    rewrite !length_append. pose proof (length_record r).
    simpl List.length in *. lia.
Qed.

Lemma parse_value_array fuel depth X c r :
  (depth + 1 <= maxNestingDepth)%N ->
  skip_space X = String c r -> isb c "]" = false ->
  parse_value (S fuel) depth (String "[" X)
  = match parse_elements fuel (depth + 1) X with
    | Some (vs, rest) => Some (Array vs, rest)
    | None => None
    end.
Proof.
  intros Hd HX Hc. simpl parse_value.
  change (is_space "[") with false. cbv iota.
  change (isb "[" "{") with false. change (isb "[" "[") with true. cbv iota.
  replace (maxNestingDepth <? depth + 1)%N with false
    by (symmetry; apply N.ltb_ge; exact Hd).
  rewrite HX, Hc. reflexivity.
Qed.

Lemma records_head l tail :
  l <> [] ->
  exists r,
    String.concat "," (List.map encode_record l) +:+ tail = String "{" r.
Proof.
  destruct l as [|x [|y l]]; [congruence| |]; intros _.
  - simpl. rewrite encode_record_app. eauto.
  - change (List.map encode_record (x :: y :: l))
      with (encode_record x :: encode_record y :: List.map encode_record l).
    rewrite concat_cons2, !append_assoc, encode_record_app. eauto.
Qed.

Lemma encode_listing_text files :
  encode_listing files
  = String "{"
      (String dquote
         (quote_body "files"
          +:+ String dquote (String ":" (encode_records files +:+ "}")))).
Proof.
  unfold encode_listing, quote.
  rewrite append_cons, append_nil_l, !append_cons, !append_assoc,
    !append_cons, !append_nil_l.
  reflexivity.
Qed.

(** The value the body of a listing that is not empty is parsed into,
    whatever follows the body. *)
Lemma parse_listing files tail :
  files <> [] ->
  parse_value (S (String.length (encode_listing files +:+ tail))) 0
    (encode_listing files +:+ tail)
  = Some (Object [("files"%string, Array (List.map record_value files))],
          tail).
Proof.
  intros Hne. rewrite encode_listing_text.
  set (E := encode_records files).
  assert (HE : E = "[" +:+ String.concat "," (List.map encode_record files)
                   +:+ "]")
    by (subst E; destruct files; [congruence|reflexivity]).
  rewrite !append_cons, !append_assoc, !append_cons, !append_assoc,
    append_cons, append_nil_l.
  set (X := String dquote
              (quote_body "files"
               +:+ String dquote (String ":" (E +:+ String "}" tail)))).
  assert (HlenX : (List.length files + 11 <= String.length X)%nat).
  { subst X. rewrite HE. simpl String.length.
    rewrite !length_append. simpl String.length.
    pose proof (length_records files). lia. }
  change (String.length (String "{" X)) with (S (String.length X)).
  erewrite (parse_value_object _ 0 X dquote);
    [|vm_compute; discriminate|reflexivity|reflexivity].
  destruct (String.length X) as [|[|[|n]]] eqn:En; try lia.
  rewrite parse_members_S. subst X.
  rewrite skip_space_cons by reflexivity.
  change (isb dquote dquote) with true. cbv iota.
  rewrite scan_quote_coerce.
  rewrite skip_space_cons by reflexivity.
  change (isb ":" ":") with true. cbv iota.
  rewrite HE, !append_assoc, append_cons, append_nil_l, append_cons,
    append_nil_l.
  destruct (records_head files (String "]" (String "}" tail)) Hne)
    as (r & Er).
  erewrite (parse_value_array _ 1 _ "{");
    [|vm_compute; discriminate
     |rewrite Er; apply skip_space_cons; reflexivity|reflexivity].
  change (1 + 1)%N with 2%N.
  rewrite (parse_elements_records files _ 2 _ Hne)
    by (lia || (vm_compute; discriminate)).
  rewrite skip_space_cons by reflexivity. reflexivity.
Qed.

(** *** Decoding *)

Lemma decode_record r :
  int64 (Server.FSize r) ->
  decode_FileInfo zero_FileInfo (record_value r)
  = ({| Path := coerce (Server.Path r); Size := Server.FSize r |}, false).
Proof.
  intros Hv. unfold decode_FileInfo, record_value. simpl fold_left.
  change (key_matches "path" "path") with true.
  change (key_matches "path" "size") with false.
  change (key_matches "size" "size") with true. cbv iota. simpl.
  rewrite (ParseInt_FormatInt _ Hv). reflexivity.
Qed.

Lemma decode_records l : forall acc e,
  Forall (fun r => int64 (Server.FSize r)) l ->
  fold_left
    (fun (acc : list FileInfo * bool) (x : value) =>
       let '(file, e') := decode_FileInfo zero_FileInfo x in
       (fst acc ++ [file], snd acc || e'))
    (List.map record_value l) (acc, e)
  = (acc ++ List.map (fun r => {| Path := coerce (Server.Path r);
                                  Size := Server.FSize r |}) l, e).
Proof.
  induction l as [|r l IH]; intros acc e H.
  - simpl. rewrite app_nil_r. reflexivity.
  - inversion H as [|? ? Hr Hl]; subst. simpl.
    rewrite (ParseInt_FormatInt _ Hr), orb_false_r.
    rewrite (IH _ _ Hl), <- app_assoc. reflexivity.
Qed.

(** What the client decodes from the body the server sends for [files],
    followed by anything. *)
Lemma Decode_listing files tail :
  Forall (fun r => int64 (Server.FSize r)) files ->
  files <> [] ->
  Decode (encode_listing files +:+ tail)
  = Some (List.map (fun r => {| Path := coerce (Server.Path r);
                                Size := Server.FSize r |}) files).
Proof.
  intros Hv Hne. unfold Decode. rewrite (parse_listing files tail Hne).
  unfold decode_result. simpl fold_left.
  change (key_matches "files" "files") with true. cbv iota.
  unfold decode_files. rewrite (decode_records files [] false Hv).
  reflexivity.
Qed.

Lemma Decode_listing_nil tail :
  Decode (encode_listing [] +:+ tail) = Some [].
Proof.
  unfold Decode. rewrite length_append.
  change (encode_listing []) with (String "{" (quote "files" +:+ ":null}")).
  change (quote "files" +:+ ":null}")
    with (String dquote (quote_body "files" +:+ String dquote ":null}")).
  rewrite !append_cons, append_assoc, !append_cons, append_nil_l.
  set (n := String.length tail). simpl Nat.add.
  erewrite (parse_value_object _ 0 _ dquote);
    [|vm_compute; discriminate|reflexivity|reflexivity].
  rewrite parse_members_S.
  rewrite skip_space_cons by reflexivity.
  change (isb dquote dquote) with true. cbv iota.
  rewrite scan_quote_coerce.
  rewrite skip_space_cons by reflexivity.
  change (isb ":" ":") with true. cbv iota.
  lazy. reflexivity.
Qed.

(** X19. The body the /list handler sends for the files it has collected
    is decoded by the client into the same files in the same order, each
    with its size, and with its path where every malformed UTF-8 byte has
    become U+FFFD; a handler that has collected nothing sends a body the
    client decodes into no file.  What follows the body is not looked
    at. *)
Theorem X19_listing_round_trip (files : list Server.FileRecord)
  (tail : string) :
  Forall (fun r => int64 (Server.FSize r)) files ->
  Decode (encode_listing files +:+ tail)
  = Some (List.map (fun r => {| Path := coerce (Server.Path r);
                                Size := Server.FSize r |}) files).
Proof.
  intros Hv. destruct files as [|r l].
  - apply Decode_listing_nil.
  - apply Decode_listing; [exact Hv|discriminate].
Qed.

Lemma X19_listing_round_trip_witness :
  Forall (fun r => int64 (Server.FSize r)) two_records /\
  Decode (encode_listing two_records +:+ "")
  = Some [ {| Path := "a"; Size := 10 |}; {| Path := "b/c"; Size := 20 |} ].
Proof.
  assert (H : Forall (fun r => int64 (Server.FSize r)) two_records)
    by (repeat constructor; vm_compute; intuition discriminate).
  split; [exact H|].
  exact (X19_listing_round_trip two_records "" H).
Defined.

Lemma map_valid_paths files :
  Forall (fun r => valid (Server.Path r)) files ->
  List.map (fun r => {| Path := coerce (Server.Path r);
                        Size := Server.FSize r |}) files
  = List.map to_FileInfo files.
Proof.
  induction 1 as [|r l Hr _ IH]; [reflexivity|].
  simpl. rewrite IH. unfold to_FileInfo. rewrite Hr. reflexivity.
Qed.

(** X20. When the server answers the listing request of a batch download
    with status 200 and the body for the files it has collected (paths in
    valid UTF-8), the client gives up with the message for an empty or
    missing directory exactly when the server collected nothing, and
    otherwise goes on to the workers with the server's files, in the
    server's order, sizes included. *)
Theorem X20_listing_end_to_end (cfg : Config) (net : Net)
  (dirPath : string) (files : list Server.FileRecord) :
  NewRequest_ok net (list_url cfg dirPath) = true ->
  Do net (list_url cfg dirPath) = Some (listing_response files) ->
  Forall (fun r => int64 (Server.FSize r)) files ->
  Forall (fun r => valid (Server.Path r)) files ->
  downloadDirectory_listing cfg net dirPath
  = match files with
    | [] => ListEmpty
    | _ => ListStarted (List.map to_FileInfo files)
    end.
Proof.
  intros Hreq Hdo Hv Hp. unfold downloadDirectory_listing.
  rewrite Hreq, Hdo. simpl negb. cbv iota.
  change (Body (listing_response files)) with (encode_listing files).
  rewrite <- (append_nil_r (encode_listing files)).
  destruct files as [|r l].
  - rewrite Decode_listing_nil. reflexivity.
  - rewrite Decode_listing by (exact Hv || discriminate).
    rewrite (map_valid_paths _ Hp). reflexivity.
Qed.

Lemma X20_listing_end_to_end_witness :
  Forall (fun r => valid (Server.Path r)) two_records /\
  downloadDirectory_listing demo_cfg
    (demo_net (listing_response two_records)) "docs"
  = ListStarted [ {| Path := "a"; Size := 10 |};
                  {| Path := "b/c"; Size := 20 |} ].
Proof.
  assert (Hv : Forall (fun r => int64 (Server.FSize r)) two_records)
    by (repeat constructor; vm_compute; intuition discriminate).
  assert (Hp : Forall (fun r => valid (Server.Path r)) two_records)
    by (repeat constructor; vm_compute; reflexivity).
  split; [exact Hp|].
  exact (X20_listing_end_to_end demo_cfg
           (demo_net (listing_response two_records)) "docs" two_records
           eq_refl eq_refl Hv Hp).
Defined.

End ListingFacts.
